(** * Website status checker: probe aggregation and consensus engine

    A shallow embedding of [backend/lambda_function.py] and the properties
    of its verdict resolver, URL validation, cache gateway, external
    aggregation and multi-region orchestration.

    Conventions of the embedding.
    - A Python [str] is a [string]; a character is the code point of the
      same number (U+0000 to U+00FF).
    - A Python [dict] with a fixed set of keys is a record; the [checks]
      mapping of the aggregator and the cache table are [gmap]s.
    - Everything outside the process (clock, local time zone, resolver,
      HTTP, sockets, the thread pool's timing, DynamoDB faults, peer
      invocations, environment variables) is an oracle in [Env]; what the
      process changes or leaves behind (the table, the calls it issued, its
      log) is the [State].
    - A number is kept by its value. The client of the table hands the
      numbers of a row back in its decimal type, equal to the integers
      written but refused by [json.dumps]; the embedding does not tell the
      two apart and takes [json.dumps] to succeed, as it does on every body
      built from the probes and from a fan-out. What the handler answers
      when the payload comes from the table and holds a status code is
      therefore not described.
    - Code that can raise runs in the monad [M], a state monad whose result
      is a value or a raised exception. *)

From Stdlib Require Import ZArith Lia Ascii String List Bool.
From stdpp Require Import base option list strings gmap fin_maps pretty.

Local Open Scope string_scope.
Local Open Scope Z_scope.

(** ** Python strings *)

Module Str.

Definition code (c : ascii) : N := N_of_ascii c.

Definition between (lo hi : N) (c : ascii) : bool :=
  ((lo <=? code c) && (code c <=? hi))%N.

Definition eqc (a b : ascii) : bool := Ascii.eqb a b.

Definition is_upper_ascii := between 65 90.
Definition is_lower_ascii := between 97 122.
Definition is_digit_ascii := between 48 57.
Definition isascii_char (c : ascii) : bool := (code c <? 128)%N.

Fixpoint forallb (p : ascii -> bool) (s : string) : bool :=
  match s with
  | EmptyString => true
  | String c r => p c && forallb p r
  end.

Fixpoint existsb (p : ascii -> bool) (s : string) : bool :=
  match s with
  | EmptyString => false
  | String c r => p c || existsb p r
  end.

(** [c in s] for a one-character [c]. *)
Definition has_char (c : ascii) (s : string) : bool := existsb (eqc c) s.

(** [s.isascii()] *)
Definition isascii (s : string) : bool := forallb isascii_char s.

(** [s.lower()] on U+0000..U+00FF: A-Z and the Latin-1 capitals
    U+00C0..U+00DE (but the multiplication sign U+00D7) move up by 32. *)
Definition lower_char (c : ascii) : ascii :=
  if is_upper_ascii c || (between 192 222 c && negb (code c =? 215)%N)
  then ascii_of_N (code c + 32) else c.

Fixpoint lower (s : string) : string :=
  match s with
  | EmptyString => EmptyString
  | String c r => String (lower_char c) (lower r)
  end.

(** [s.startswith(p)] *)
Fixpoint startswith (p s : string) : bool :=
  match p, s with
  | EmptyString, _ => true
  | String a p', String b s' => eqc a b && startswith p' s'
  | String _ _, EmptyString => false
  end.

(** [needle in hay] *)
Fixpoint contains (needle hay : string) : bool :=
  startswith needle hay ||
  match hay with
  | EmptyString => false
  | String _ r => contains needle r
  end.

(** Characters removed from the left while [p] holds: [s.lstrip(chars)]. *)
Fixpoint lstrip_by (p : ascii -> bool) (s : string) : string :=
  match s with
  | EmptyString => EmptyString
  | String c r => if p c then lstrip_by p r else s
  end.

Fixpoint filter (p : ascii -> bool) (s : string) : string :=
  match s with
  | EmptyString => EmptyString
  | String c r => if p c then String c (filter p r) else filter p r
  end.

(** [s.partition(c)] for a one-character separator:
    [(before, found, after)]. *)
Fixpoint partition (c : ascii) (s : string) : string * bool * string :=
  match s with
  | EmptyString => (EmptyString, false, EmptyString)
  | String a r =>
      if eqc a c then (EmptyString, true, r)
      else let '(h, f, t) := partition c r in
           if f then (String a h, true, t) else (s, false, EmptyString)
  end.

(** Third component of [s.rpartition(c)]: what follows the last [c],
    the whole of [s] when there is none. *)
Fixpoint after_last (c : ascii) (s : string) : string :=
  match s with
  | EmptyString => EmptyString
  | String a r =>
      if has_char c r then after_last c r
      else if eqc a c then r else s
  end.

(** [str.isspace] on U+0000..U+00FF. *)
Definition is_space (c : ascii) : bool :=
  between 9 13 c || between 28 32 c || (code c =? 133)%N || (code c =? 160)%N.

Definition rev (s : string) : string := String.rev s.

(** [s.strip()] *)
Definition strip (s : string) : string :=
  rev (lstrip_by is_space (rev (lstrip_by is_space s))).

(** [s.split(c)] for a one-character separator; never the empty list. *)
Fixpoint split (c : ascii) (s : string) : list string :=
  match s with
  | EmptyString => [EmptyString]
  | String a r =>
      if eqc a c then EmptyString :: split c r
      else match split c r with
           | w :: ws => String a w :: ws
           | [] => [String a EmptyString]
           end
  end.

(** [int(s)] for a string of ASCII digits. *)
Definition digit_val (c : ascii) : Z := Z.of_N (code c) - 48.

Fixpoint int_acc (acc : Z) (s : string) : Z :=
  match s with
  | EmptyString => acc
  | String c r => int_acc (10 * acc + digit_val c) r
  end.

Definition int (s : string) : Z := int_acc 0 s.

(** Truth value of a string: non-empty. *)
Definition truthy (s : string) : bool :=
  match s with EmptyString => false | _ => true end.

End Str.

(** ** [urllib.parse.urlparse]

    The part of CPython's [urlsplit] (3.12) that decides the two fields the
    program reads, [scheme] and [netloc], and the [hostname] and [port]
    properties derived from [netloc]. [None] stands for a raised
    [ValueError]. The library's two deeper validations of a netloc (the
    address inside brackets, and NFKC normalisation of a non-ASCII netloc)
    are an oracle, [netloc_invalid], asked only where the library runs
    them. *)

Module Urllib.

Record ParseResult := { scheme : string; netloc : string }.

(** [_WHATWG_C0_CONTROL_OR_SPACE] *)
Definition c0_or_space (c : ascii) : bool := (Str.code c <=? 32)%N.

(** [_UNSAFE_URL_BYTES_TO_REMOVE]: tab, carriage return, line feed. *)
Definition unsafe_byte (c : ascii) : bool :=
  ((Str.code c =? 9) || (Str.code c =? 13) || (Str.code c =? 10))%N.

(** [scheme_chars]: ASCII letters, digits, and [+-.]. *)
Definition scheme_char (c : ascii) : bool :=
  Str.is_lower_ascii c || Str.is_upper_ascii c || Str.is_digit_ascii c ||
  Str.eqc c "+" || Str.eqc c "-" || Str.eqc c ".".

Definition is_alpha_ascii (c : ascii) : bool :=
  Str.is_lower_ascii c || Str.is_upper_ascii c.

(** The scheme step: [(scheme, rest)]. *)
Definition split_scheme (url : string) : string * string :=
  match url with
  | EmptyString => (EmptyString, url)
  | String c0 _ =>
      let '(before, found, rest) := Str.partition ":" url in
      if found && Str.truthy before && is_alpha_ascii c0
         && Str.forallb scheme_char before
      then (Str.lower before, rest)
      else (EmptyString, url)
  end.

Definition netloc_delim (c : ascii) : bool :=
  Str.eqc c "/" || Str.eqc c "?" || Str.eqc c "#".

(** [_splitnetloc(url, 2)] applied to what follows the two slashes:
    the text up to the first of [/?#]. *)
Fixpoint take_netloc (s : string) : string :=
  match s with
  | EmptyString => EmptyString
  | String c r => if netloc_delim c then EmptyString else String c (take_netloc r)
  end.

Definition split_netloc (url : string) : string :=
  match url with
  | String "/" (String "/" r) => take_netloc r
  | _ => EmptyString
  end.

Definition urlparse (netloc_invalid : string -> bool) (url : string)
  : option ParseResult :=
  let url := Str.lstrip_by c0_or_space url in
  let url := Str.filter (fun c => negb (unsafe_byte c)) url in
  let '(sch, rest) := split_scheme url in
  let nl := split_netloc rest in
  let lb := Str.has_char "[" nl in
  let rb := Str.has_char "]" nl in
  if (lb && negb rb) || (rb && negb lb) then None
  else if (lb && rb) && netloc_invalid nl then None
  else if Str.truthy nl && negb (Str.isascii nl) && netloc_invalid nl then None
  else Some {| scheme := sch; netloc := nl |}.

(** [_hostinfo]: [(hostname, port)] as raw strings, [None] for an empty
    port. *)
Definition hostinfo (nl : string) : string * option string :=
  let hi := Str.after_last "@" nl in
  let '(_, have_open_br, bracketed) := Str.partition "[" hi in
  let '(h, p) :=
    if have_open_br then
      let '(h, _, p) := Str.partition "]" bracketed in
      let '(_, _, p) := Str.partition ":" p in (h, p)
    else
      let '(h, _, p) := Str.partition ":" hi in (h, p) in
  (h, if Str.truthy p then Some p else None).

(** [.hostname]: [None] when empty; lower-cased up to a [%] zone. *)
Definition hostname (p : ParseResult) : option string :=
  let h := fst (hostinfo (netloc p)) in
  if Str.truthy h then
    let '(h, pc, zone) := Str.partition "%" h in
    Some (Str.lower h +:+ (if pc then "%" else "") +:+ zone)
  else None.

(** [.port]: outer [None] is a raised [ValueError]. *)
Definition port (p : ParseResult) : option (option Z) :=
  match snd (hostinfo (netloc p)) with
  | None => Some None
  | Some s =>
      if Str.forallb Str.is_digit_ascii s then
        let n := Str.int s in
        if (0 <=? n) && (n <=? 65535) then Some (Some n) else None
      else None
  end.

End Urllib.


(** ** Exceptions and outcomes *)

(** The exception classes the program's [except] clauses tell apart.
    [RequestsTimeout] is [requests.exceptions.Timeout], a subclass of
    [RequestException]; every class is a subclass of [Exception]. *)
Inductive ExnClass :=
| RequestsTimeout
| RequestException
| ClientError
| FuturesTimeout
| ValueError
| AttributeError
| OtherException.

(** An exception: its class and [str(e)]. *)
Record Exn := { exn_class : ExnClass; exn_str : string }.

Inductive Outcome (A : Type) :=
| Returns (a : A)
| Raises (e : Exn).
Arguments Returns {A} a.
Arguments Raises {A} e.

(** ** Data model *)

Inductive Observer := Downforeveryoneorjustme | Isitdownrightnow | Websiteplanet.

Definition observer_name (o : Observer) : string :=
  match o with
  | Downforeveryoneorjustme => "downforeveryoneorjustme"
  | Isitdownrightnow => "isitdownrightnow"
  | Websiteplanet => "websiteplanet"
  end.

Definition observer_eqb (a b : Observer) : bool :=
  match a, b with
  | Downforeveryoneorjustme, Downforeveryoneorjustme
  | Isitdownrightnow, Isitdownrightnow
  | Websiteplanet, Websiteplanet => true
  | _, _ => false
  end.

(** What the program reads of a [requests] response. *)
Record HttpResponse := {
  resp_status_code : Z;
  resp_content_length : nat;   (* len(resp.content) *)
  resp_url : string;           (* final URL after redirects *)
  resp_text : string
}.

(** One element of [results] in the DNS probe. *)
Record ResolverResult := {
  rr_dns_server : string;
  rr_status : string;
  rr_ip_address : option string;
  rr_error : option string
}.

(** DnsProbeResult: the dictionary returned by [check_dns_resolution]. *)
Record DnsResult := {
  dns_overall_status : string;
  dns_success_count : nat;
  dns_total_servers : nat;
  dns_results : list ResolverResult
}.

(** The dictionary returned by [check_http_response]; keys a branch does
    not set are [None]. Every branch sets ['status']. *)
Record HttpResult := {
  http_status : string;
  http_status_code : option Z;
  http_response_time : option Z;
  http_content_length : option nat;
  http_redirected : option bool;
  http_final_url : option string;
  http_error : option string
}.

(** The dictionary returned by [check_port_connectivity]. *)
Record PortResult := {
  port_port : Z;
  port_status : string;
  port_response_time : option Z;
  port_error : option string
}.

(** The [checks] argument of the verdict resolver and of the summary. *)
Record Checks := {
  chk_dns : DnsResult;
  chk_http : HttpResult;
  chk_port : PortResult
}.

(** One element of ['protocols'] in the websiteplanet result. *)
Record ProtocolResult := {
  pr_protocol : string;
  pr_status : string;
  pr_status_code : option Z;
  pr_error : option string
}.

(** ExternalObserverResult: the dictionary an observer contributes. *)
Record ObserverResult := {
  obs_status : string;
  obs_message : option string;
  obs_status_code : option Z;
  obs_error : option string;
  obs_protocols : option (list ProtocolResult)
}.

(** The mapping from observer name to result. *)
Abbreviation Payload := (gmap string ObserverResult).

(** CacheEntry: a row of the table. A field is [None] when the row lacks
    the key; for ['timestamp'] also when its text is not what
    [datetime.fromisoformat] turns into a naive datetime. A timestamp is
    the number of microseconds since the epoch; the ttl is in seconds. The
    numbers of the payload are kept by value, whatever type the client of
    the table gives them on a read. *)
Record Item := {
  item_data : option Payload;
  item_timestamp : option Z;
  item_ttl : option Z
}.

(** The dictionary returned by [check_website_status]. *)
Record StatusResult := {
  sr_url : string;
  sr_domain : option string;
  sr_status : string;
  sr_response_time : Z;
  sr_region : string;
  sr_timestamp : Z;
  sr_detailed_checks : Checks;
  sr_summary : string;
  sr_external_checks : option Payload
}.

(** A region's entry in the merged list: the local dictionary, or what
    [json.loads] made of a peer's body, an object of which the program
    reads ['status'] ([None] when absent or not a string), or any other
    JSON value. *)
Inductive RegionValue :=
| LocalRegion (r : StatusResult)
| PeerObject (status : option string)
| PeerOther.

(** The body of the multi-region response. *)
Record MultiRegionResult := {
  mr_url : string;
  mr_overall_status : string;
  mr_regions_up : nat;
  mr_total_regions : nat;
  mr_results : list RegionValue;
  mr_timestamp : Z;
  mr_analysis : string
}.

Inductive Body :=
| BodyEmpty                            (* {} *)
| BodyError (msg : string)             (* {'error': msg} *)
| BodyStatus (r : StatusResult)
| BodyMultiRegion (r : MultiRegionResult).

Record Response := {
  statusCode : Z;
  headers : list (string * string);
  body : Body
}.

(** The request. ['body'], when present and non-empty, is JSON text:
    invalid, an object (of which the program reads ['url']), or another
    value. *)
Inductive JsonBody :=
| JsonInvalid
| JsonObject (url : option string)
| JsonOther.

Record Event := {
  ev_httpMethod : option string;
  ev_body : option JsonBody;
  ev_url : option string
}.

(** What a peer invocation gives: [client.invoke] or the decoding of its
    payload raises, or the payload is an object with a ['statusCode'] and a
    ['body'] whose decoding raises or gives a value. *)
Inductive PeerBody :=
| PeerBodyRaises
| PeerBodyValue (v : RegionValue).

Inductive InvokeOutcome :=
| InvokeRaises (e : Exn)
| InvokePayload (status_code : option Z) (b : PeerBody).

(** ** Environment and state *)

(** External calls the process issues. *)
Inductive Call :=
| CallResolve (domain : option string)
| CallHttpGet (url : string)
| CallConnect (host : option string) (port : Z)
| CallObserver (o : Observer) (request_url : string)
| CallGetItem (url : string)
| CallPutItem (url : string)
| CallInvoke (fname : string).

Record Env := {
  environ_AWS_REGION : option string;
  environ_OTHER_REGIONS : option string;
  (** n-th reading of the system clock, in microseconds since the epoch *)
  clock : nat -> Z;
  (** the offset of the process's local time from UTC, in microseconds, at
      the naive datetime given (as microseconds since the epoch when read
      as UTC): what [datetime.timestamp] applies to a naive datetime *)
  local_utcoffset : Z -> Z;
  netloc_invalid : string -> bool;
  (** [socket.gethostbyname], at the n-th resolver of the list *)
  gethostbyname : nat -> option string -> Outcome string;
  (** [requests.get] of the HTTP probe *)
  requests_get : string -> Outcome HttpResponse;
  (** [sock.connect_ex]: the error number, 0 when connected *)
  connect_ex : option string -> Z -> Outcome Z;
  (** the HTTP request an observer sends *)
  observer_request : Observer -> string -> Outcome HttpResponse;
  (** the futures [as_completed] yields before its 5 s deadline, in order *)
  as_completed : list Observer;
  (** DynamoDB: a fault of the resource, the table or the request, raised
      where the request is made *)
  get_item_fault : option Exn;
  put_item_fault : option Exn;
  (** [boto3.client('lambda')] and the invocation of the n-th region *)
  lambda_client_fault : option Exn;
  invoke : nat -> string -> string -> InvokeOutcome
}.

Record State := {
  ticks : nat;                           (* clock readings taken *)
  table : gmap (string * string) Item;   (* the cache table *)
  calls : list Call;                     (* external calls, oldest first *)
  stdout : list string                   (* printed lines, oldest first *)
}.

(** ** The monad of code that may raise *)

Definition M (A : Type) : Type := State -> Outcome A * State.

Definition ret {A} (a : A) : M A := fun s => (Returns a, s).

Definition raise {A} (e : Exn) : M A := fun s => (Raises e, s).

Definition bind {A B} (c : M A) (k : A -> M B) : M B :=
  fun s =>
    match c s with
    | (Returns a, s') => k a s'
    | (Raises e, s') => (Raises e, s')
    end.

(** [try: c  except Exception as e: h e] *)
Definition try_except {A} (c : M A) (h : Exn -> M A) : M A :=
  fun s =>
    match c s with
    | (Returns a, s') => (Returns a, s')
    | (Raises e, s') => h e s'
    end.

Notation "'let*' x ':=' c 'in' k" := (bind c (fun x => k))
  (at level 10, x name, c at level 100, k at level 200).

Definition lift {A} (o : Outcome A) : M A := fun s => (o, s).

(** [time.time()] and [datetime.utcnow()] *)
Definition now (env : Env) : M Z :=
  fun s => (Returns (clock env (ticks s)),
            {| ticks := S (ticks s); table := table s;
               calls := calls s; stdout := stdout s |}).

(** The state after the calls [cs] were issued. *)
Definition add_calls (s : State) (cs : list Call) : State :=
  {| ticks := ticks s; table := table s;
     calls := app (calls s) cs; stdout := stdout s |}.

Definition call (c : Call) : M unit :=
  fun s => (Returns tt, add_calls s [c]).

Definition print (line : string) : M unit :=
  fun s => (Returns tt,
            {| ticks := ticks s; table := table s;
               calls := calls s; stdout := app (stdout s) [line] |}).

Definition get_table : M (gmap (string * string) Item) :=
  fun s => (Returns (table s), s).

Definition set_table (t : gmap (string * string) Item) : M unit :=
  fun s => (Returns tt,
            {| ticks := ticks s; table := t;
               calls := calls s; stdout := stdout s |}).

(** ** Probe set *)

Definition exn (c : ExnClass) (msg : string) : Exn :=
  {| exn_class := c; exn_str := msg |}.

(** [sum(1 for x in l if p x)] *)
Definition count {A} (p : A -> bool) (l : list A) : nat :=
  length (List.filter p l).

Definition dns_servers : list string := ["8.8.8.8"; "1.1.1.1"; "208.67.222.222"].

(** One turn of the loop of [check_dns_resolution]: the [try] around
    [socket.gethostbyname], with its [except Exception]. *)
Definition resolve_one (env : Env) (domain : option string)
    (i : nat) (s : string) : M ResolverResult :=
  try_except
    (let* _ := call (CallResolve domain) in
     let* ip := lift (gethostbyname env i domain) in
     ret {| rr_dns_server := s; rr_status := "success";
            rr_ip_address := Some ip; rr_error := None |})
    (fun e =>
     ret {| rr_dns_server := s; rr_status := "failed";
            rr_ip_address := None; rr_error := Some (exn_str e) |}).

(** The [for s in dns_servers] loop, from the [i]-th server on. *)
Fixpoint resolve_all (env : Env) (domain : option string)
    (i : nat) (servers : list string) : M (list ResolverResult) :=
  match servers with
  | [] => ret []
  | s :: rest =>
      let* r := resolve_one env domain i s in
      let* rs := resolve_all env domain (S i) rest in
      ret (r :: rs)
  end.

Definition check_dns_resolution (env : Env) (domain : option string)
    : M DnsResult :=
  let* results := resolve_all env domain 0 dns_servers in
  let success := count (fun r => String.eqb (rr_status r) "success") results in
  ret {| dns_overall_status := if (0 <? success)%nat then "success" else "failed";
         dns_success_count := success;
         dns_total_servers := length dns_servers;
         dns_results := results |}.

Definition check_http_response (env : Env) (url : string) : M HttpResult :=
  try_except
    (let* start := now env in
     let* _ := call (CallHttpGet url) in
     let* resp := lift (requests_get env url) in
     let* stop := now env in
     let moved := negb (String.eqb (resp_url resp) url) in
     ret {| http_status := "success";
            http_status_code := Some (resp_status_code resp);
            http_response_time := Some (stop - start);
            http_content_length := Some (resp_content_length resp);
            http_redirected := Some moved;
            http_final_url := if moved then Some (resp_url resp) else None;
            http_error := None |})
    (fun e =>
     match exn_class e with
     | RequestsTimeout =>
         ret {| http_status := "timeout"; http_status_code := None;
                http_response_time := None; http_content_length := None;
                http_redirected := None; http_final_url := None;
                http_error := Some "Request timed out" |}
     | RequestException =>
         ret {| http_status := "error"; http_status_code := None;
                http_response_time := None; http_content_length := None;
                http_redirected := None; http_final_url := None;
                http_error := Some (exn_str e) |}
     | _ => raise e
     end).

Definition check_port_connectivity (env : Env) (domain : option string)
    (port : Z) : M PortResult :=
  try_except
    (let* start := now env in
     let* _ := call (CallConnect domain port) in
     let* errno := lift (connect_ex env domain port) in
     let* stop := now env in
     ret {| port_port := port;
            port_status := if errno =? 0 then "open" else "closed";
            port_response_time := Some (stop - start);
            port_error := None |})
    (fun e =>
     ret {| port_port := port; port_status := "error";
            port_response_time := None; port_error := Some (exn_str e) |}).

(** ** Local verdict resolver *)

Definition determine_overall_status (checks : Checks) : string :=
  let dns_ok := String.eqb (dns_overall_status (chk_dns checks)) "success" in
  let http_ok := String.eqb (http_status (chk_http checks)) "success" in
  let port_ok := String.eqb (port_status (chk_port checks)) "open" in
  if http_ok then "up"
  else if dns_ok && port_ok then "partial"
  else if dns_ok then "dns_only"
  else "down".

(** [sep.join(parts)] *)
Fixpoint join (sep : string) (parts : list string) : string :=
  match parts with
  | [] => ""
  | [p] => p
  | p :: rest => p +:+ sep +:+ join sep rest
  end.

(** [checks['http'].get('status', 'unknown')]: the key is set by every
    branch of [check_http_response], so the default is never taken. *)
Definition generate_status_summary (checks : Checks) : string :=
  let parts : list string := [] in
  let parts := app parts
    [if String.eqb (dns_overall_status (chk_dns checks)) "success"
     then "DNS OK" else "DNS fail"] in
  let http_st := http_status (chk_http checks) in
  let parts := app parts
    [if String.eqb http_st "success" then "HTTP OK" else http_st] in
  let parts := app parts
    [if String.eqb (port_status (chk_port checks)) "open"
     then "Port open" else "Port closed"] in
  join "; " parts.

(** [url] with the protocol ensured:
    [if not url.startswith(('http://', 'https://')): url = 'https://' + url] *)
Definition ensure_protocol (url : string) : string :=
  if Str.startswith "http://" url || Str.startswith "https://" url
  then url else "https://" +:+ url.

Definition from_option_exn {A} (o : option A) (e : Exn) : M A :=
  match o with
  | Some a => ret a
  | None => raise e
  end.

Definition check_website_status (env : Env) (url : string) : M StatusResult :=
  let region := default "unknown" (environ_AWS_REGION env) in
  let* start_time := now env in
  let url := ensure_protocol url in
  let* parsed := from_option_exn (Urllib.urlparse (netloc_invalid env) url)
                   (exn ValueError "urlparse") in
  let host := Urllib.hostname parsed in
  let* p := from_option_exn (Urllib.port parsed) (exn ValueError "port") in
  let port :=
    match p with
    | Some n => if n =? 0
                then (if String.eqb (Urllib.scheme parsed) "https" then 443 else 80)
                else n
    | None => if String.eqb (Urllib.scheme parsed) "https" then 443 else 80
    end in
  let* dns := check_dns_resolution env host in
  let* http := check_http_response env url in
  let* port_chk := check_port_connectivity env host port in
  let* stop_time := now env in
  let checks := {| chk_dns := dns; chk_http := http; chk_port := port_chk |} in
  let overall := determine_overall_status checks in
  let* stamp := now env in
  ret {| sr_url := url;
         sr_domain := host;
         sr_status := overall;
         sr_response_time := stop_time - start_time;
         sr_region := region;
         sr_timestamp := stamp;
         sr_detailed_checks := checks;
         sr_summary := generate_status_summary checks;
         sr_external_checks := None |}.

(** ** Cache gateway *)

(** [timedelta(minutes=5)] and [timedelta(minutes=10)], in microseconds. *)
Definition freshness_window : Z := 5 * 60 * 1000000.
Definition storage_lifetime : Z := 10 * 60 * 1000000.

Definition cache_key (url : string) : string * string := (url, "external").

Definition raise_fault (f : option Exn) : M unit :=
  match f with
  | Some e => raise e
  | None => ret tt
  end.

(** Truth value of a mapping: non-empty. *)
Definition truthy_payload (m : Payload) : bool := bool_decide (m ≠ ∅).

Definition get_cached_external_result (env : Env) (url : string)
    : M (option Payload) :=
  try_except
    (let* _ := call (CallGetItem url) in
     let* _ := raise_fault (get_item_fault env) in
     let* t := get_table in
     match t !! cache_key url with
     | Some item =>
         let* cache_time := from_option_exn (item_timestamp item)
                              (exn OtherException "timestamp") in
         let* utcnow := now env in
         if utcnow - cache_time <? freshness_window then
           let* data := from_option_exn (item_data item)
                          (exn OtherException "data") in
           ret (Some data)
         else ret None
     | None => ret None
     end)
    (fun e =>
     match exn_class e with
     | ClientError =>
         let* _ := print ("DynamoDB ClientError: " +:+ exn_str e) in ret None
     | _ => ret None
     end).

(** [int(d.timestamp())] of a naive datetime [d], given in microseconds
    since the epoch when read as UTC.  [timestamp] reads a naive datetime as
    local time, so the instant it denotes is [d] less the local offset from
    UTC; [int] keeps the whole seconds, truncated towards zero. *)
Definition epoch_seconds (env : Env) (d : Z) : Z :=
  Z.quot (d - local_utcoffset env d) 1000000.

Definition cache_external_result (env : Env) (url : string) (data : Payload)
    : M unit :=
  try_except
    (let* stamp := now env in
     let* utcnow := now env in
     let item := {| item_data := Some data;
                    item_timestamp := Some stamp;
                    item_ttl := Some (epoch_seconds env
                                       (utcnow + storage_lifetime)) |} in
     let* _ := call (CallPutItem url) in
     let* _ := raise_fault (put_item_fault env) in
     let* t := get_table in
     set_table (<[cache_key url := item]> t))
    (fun e =>
     match exn_class e with
     | ClientError => print ("DynamoDB ClientError: " +:+ exn_str e)
     | _ => print ("Cache error: " +:+ exn_str e)
     end).

(** ** External observers *)

(** [urlparse(url).netloc], which may raise. *)
Definition netloc_of (env : Env) (url : string) : M string :=
  let* p := from_option_exn (Urllib.urlparse (netloc_invalid env) url)
              (exn ValueError "urlparse") in
  ret (Urllib.netloc p).

Definition observer_call (env : Env) (o : Observer) (request_url : string)
    : M HttpResponse :=
  let* _ := call (CallObserver o request_url) in
  lift (observer_request env o request_url).

Definition check_downforeveryoneorjustme (env : Env) (url : string)
    : M (option ObserverResult) :=
  let* domain := netloc_of env url in
  try_except
    (let* r := observer_call env Downforeveryoneorjustme
                 ("https://downforeveryoneorjustme.com/check?domain=" +:+ domain) in
     let txt := Str.lower (resp_text r) in
     if Str.contains "just you" txt then
       ret (Some {| obs_status := "up"; obs_message := Some "Site appears up";
                    obs_status_code := None; obs_error := None;
                    obs_protocols := None |})
     else if Str.contains "not just you" txt then
       ret (Some {| obs_status := "down"; obs_message := Some "Site appears down";
                    obs_status_code := None; obs_error := None;
                    obs_protocols := None |})
     else
       ret (Some {| obs_status := "unknown";
                    obs_message := Some "Could not determine";
                    obs_status_code := None; obs_error := None;
                    obs_protocols := None |}))
    (fun _ => ret None).

Definition check_isitdownrightnow (env : Env) (url : string)
    : M (option ObserverResult) :=
  let* domain := netloc_of env url in
  try_except
    (let* r := observer_call env Isitdownrightnow ("http://" +:+ domain) in
     ret (Some {| obs_status := if resp_status_code r <? 400 then "up" else "down";
                  obs_message := None;
                  obs_status_code := Some (resp_status_code r);
                  obs_error := None; obs_protocols := None |}))
    (fun _ =>
     ret (Some {| obs_status := "down"; obs_message := None;
                  obs_status_code := None;
                  obs_error := Some "Connection failed";
                  obs_protocols := None |})).

(** One turn of the loop over the protocols. *)
Definition websiteplanet_one (env : Env) (domain p : string) : M ProtocolResult :=
  try_except
    (let* r := observer_call env Websiteplanet (p +:+ "://" +:+ domain) in
     ret {| pr_protocol := p;
            pr_status := if resp_status_code r <? 400 then "up" else "down";
            pr_status_code := Some (resp_status_code r);
            pr_error := None |})
    (fun _ =>
     ret {| pr_protocol := p; pr_status := "down"; pr_status_code := None;
            pr_error := Some "Connection failed" |}).

Fixpoint websiteplanet_all (env : Env) (domain : string) (ps : list string)
    : M (list ProtocolResult) :=
  match ps with
  | [] => ret []
  | p :: rest =>
      let* r := websiteplanet_one env domain p in
      let* rs := websiteplanet_all env domain rest in
      ret (r :: rs)
  end.

Definition check_websiteplanet (env : Env) (url : string)
    : M (option ObserverResult) :=
  let* domain := netloc_of env url in
  let protocols := ["https"; "http"] in
  let* results := websiteplanet_all env domain protocols in
  let up := List.filter (fun r => String.eqb (pr_status r) "up") results in
  ret (Some {| obs_status := match up with [] => "down" | _ => "up" end;
               obs_message := None; obs_status_code := None;
               obs_error := None; obs_protocols := Some results |}).

(** ** External corroboration aggregator *)

(** The observers dispatched, in the order they are submitted to the pool. *)
Definition dispatched : list Observer :=
  [Downforeveryoneorjustme; Isitdownrightnow; Websiteplanet].

(** A submitted call run to its end: the future holds what the call
    returned or raised. *)
Definition run_future {A} (c : M A) : M (Outcome A) :=
  fun s => let '(o, s') := c s in (Returns o, s').

Record Futures := {
  fut_downforeveryoneorjustme : Outcome (option ObserverResult);
  fut_isitdownrightnow : Outcome (option ObserverResult);
  fut_websiteplanet : Outcome (option ObserverResult)
}.

Definition future_of (fs : Futures) (o : Observer)
    : Outcome (option ObserverResult) :=
  match o with
  | Downforeveryoneorjustme => fut_downforeveryoneorjustme fs
  | Isitdownrightnow => fut_isitdownrightnow fs
  | Websiteplanet => fut_websiteplanet fs
  end.

(** The three [ex.submit] calls. The pool runs every submitted call to its
    end before the [with] block is left, deadline or not. *)
Definition submit_all (env : Env) (url : string) : M Futures :=
  let* a := run_future (check_downforeveryoneorjustme env url) in
  let* b := run_future (check_isitdownrightnow env url) in
  let* c := run_future (check_websiteplanet env url) in
  ret {| fut_downforeveryoneorjustme := a;
         fut_isitdownrightnow := b;
         fut_websiteplanet := c |}.

(** [{'status': 'error', 'error': str(e)}] *)
Definition error_entry (e : Exn) : ObserverResult :=
  {| obs_status := "error"; obs_message := None; obs_status_code := None;
     obs_error := Some (exn_str e); obs_protocols := None |}.

(** The body of the loop over the completed futures. *)
Definition record_future (fs : Futures) (checks : Payload) (o : Observer)
    : Payload :=
  let svc := observer_name o in
  match future_of fs o with
  | Returns (Some r) => <[svc := r]> checks
  | Returns None => checks
  | Raises e => <[svc := error_entry e]> checks
  end.

(** Whether [as_completed] yielded every future before its deadline. *)
Definition all_completed (yielded : list Observer) : bool :=
  List.forallb (fun o => List.existsb (observer_eqb o) yielded) dispatched.

(** [for f in as_completed(futures, timeout=5): ...]: the yielded futures
    are recorded; the iterator then raises if a future is still pending. *)
Definition collect (env : Env) (fs : Futures) : M Payload :=
  let checks := fold_left (record_future fs) (as_completed env) ∅ in
  if all_completed (as_completed env) then ret checks
  else raise (exn FuturesTimeout "futures unfinished").

(** The aggregation after a cache miss: fan out, collect, write back. *)
Definition fan_out (env : Env) (url : string) : M (option Payload) :=
  let* fs := submit_all env url in
  let* checks := collect env fs in
  let* _ := (if truthy_payload checks
             then cache_external_result env url checks else ret tt) in
  ret (Some checks).

(** [if cached:] for what the cache read returned. *)
Definition truthy_cached (cached : option Payload) : bool :=
  match cached with
  | Some c => truthy_payload c
  | None => false
  end.

Definition get_external_status_checks (env : Env) (url : string)
    : M (option Payload) :=
  try_except
    (let* cached := get_cached_external_result env url in
     if truthy_cached cached then ret cached
     else fan_out env url)
    (fun e =>
     let* _ := print ("External checks error: " +:+ exn_str e) in
     ret None).

(** ** Request validation and the single-region handler *)

Definition is_valid_url (env : Env) (url : string) : bool :=
  match Urllib.urlparse (netloc_invalid env) (ensure_protocol url) with
  | Some p =>
      (String.eqb (Urllib.scheme p) "http" || String.eqb (Urllib.scheme p) "https")
      && negb (String.eqb (Urllib.netloc p) "")
  | None => false
  end.

Definition cors_headers : list (string * string) :=
  [("Content-Type", "application/json");
   ("Access-Control-Allow-Origin", "*");
   ("Access-Control-Allow-Methods", "GET,POST,OPTIONS");
   ("Access-Control-Allow-Headers", "Content-Type,Authorization");
   ("Access-Control-Max-Age", "86400")].

(** The response dictionary; [body] stands for [json.dumps(body)], taken
    to succeed. *)
Definition cors_response (status_code : Z) (b : Body) : Response :=
  {| statusCode := status_code; headers := cors_headers; body := b |}.

(** [json.loads(event.get('body', '{}')) if event.get('body') else {}]
    followed by [body.get('url')]. *)
Definition body_url (event : Event) : M (option string) :=
  match ev_body event with
  | None => ret None
  | Some JsonInvalid => raise (exn ValueError "JSONDecodeError")
  | Some JsonOther => raise (exn AttributeError "get")
  | Some (JsonObject u) => ret u
  end.

(** [a or b] on optional strings; the result is falsy when it is [None]
    or empty. *)
Definition or_url (a b : option string) : option string :=
  match a with
  | Some s => if Str.truthy s then a else b
  | None => b
  end.

Definition truthy_url (u : option string) : bool :=
  match u with
  | Some s => Str.truthy s
  | None => false
  end.

Definition with_external (r : StatusResult) (ext : Payload) : StatusResult :=
  {| sr_url := sr_url r; sr_domain := sr_domain r; sr_status := sr_status r;
     sr_response_time := sr_response_time r; sr_region := sr_region r;
     sr_timestamp := sr_timestamp r;
     sr_detailed_checks := sr_detailed_checks r; sr_summary := sr_summary r;
     sr_external_checks := Some ext |}.

Definition lambda_handler (env : Env) (event : Event) : M Response :=
  try_except
    (if bool_decide (ev_httpMethod event = Some "OPTIONS")
     then ret (cors_response 200 BodyEmpty)
     else
       let* bu := body_url event in
       match or_url bu (ev_url event) with
       | Some url =>
           if negb (Str.truthy url)
           then ret (cors_response 400 (BodyError "URL is required"))
           else if negb (is_valid_url env url)
           then ret (cors_response 400 (BodyError "Invalid URL format"))
           else
             let* result := check_website_status env url in
             let* ext := get_external_status_checks env url in
             let result := if truthy_cached ext
                           then with_external result (default ∅ ext)
                           else result in
             ret (cors_response 200 (BodyStatus result))
       | None => ret (cors_response 400 (BodyError "URL is required"))
       end)
    (fun e =>
     let* _ := print ("Error: " +:+ exn_str e) in
     ret (cors_response 500 (BodyError "Internal server error"))).

(** ** Multi-region orchestrator *)

(** [x.get('status')] on an element of the merged list. *)
Definition region_status (x : RegionValue) : Outcome (option string) :=
  match x with
  | LocalRegion r => Returns (Some (sr_status r))
  | PeerObject st => Returns st
  | PeerOther => Raises (exn AttributeError "get")
  end.

(** [status in ('up', 'partial')] *)
Definition reachable (st : option string) : bool :=
  match st with
  | Some s => String.eqb s "up" || String.eqb s "partial"
  | None => false
  end.

(** [sum(1 for x in results if x.get('status') in ('up', 'partial'))] *)
Fixpoint count_up (results : list RegionValue) : Outcome nat :=
  match results with
  | [] => Returns 0%nat
  | x :: rest =>
      match region_status x with
      | Raises e => Raises e
      | Returns st =>
          match count_up rest with
          | Raises e => Raises e
          | Returns n => Returns (if reachable st then S n else n)
          end
      end
  end.

Definition analyze_multi_region_results (results : list RegionValue)
    : Outcome string :=
  match results with
  | [] => Returns "No results to analyze"
  | _ =>
      let total := length results in
      match count_up results with
      | Raises e => Raises e
      | Returns up =>
          if (up =? total)%nat then
            Returns "Website accessible from all tested regions"
          else if (up =? 0)%nat then
            Returns "Website appears down globally"
          else
            Returns ("Mixed: " +:+ pretty up +:+ "/" +:+ pretty total
                     +:+ " regions can reach it")
      end
  end.

(** One turn of the loop over [other_regions]: the peers collected so far
    are extended when the invocation gives status code 200 and a body that
    decodes. *)
Definition invoke_region (env : Env) (url : string) (i : nat) (r : string)
    (other_results : list RegionValue) : M (list RegionValue) :=
  if Str.truthy (Str.strip r) then
    try_except
      (let fname := "website-status-checker-" +:+ Str.strip r in
       let* _ := call (CallInvoke fname) in
       match invoke env i fname url with
       | InvokeRaises e => raise e
       | InvokePayload code b =>
           if bool_decide (code = Some 200) then
             match b with
             | PeerBodyRaises => raise (exn OtherException "body")
             | PeerBodyValue v => ret (app other_results [v])
             end
           else ret other_results
       end)
      (fun e =>
       let* _ := print ("Invoke " +:+ r +:+ " error: " +:+ exn_str e) in
       ret other_results)
  else ret other_results.

Fixpoint invoke_regions (env : Env) (url : string) (i : nat)
    (regions : list string) (other_results : list RegionValue)
    : M (list RegionValue) :=
  match regions with
  | [] => ret other_results
  | r :: rest =>
      let* acc := invoke_region env url i r other_results in
      invoke_regions env url (S i) rest acc
  end.

(** [os.environ.get('OTHER_REGIONS', '').split(',')] *)
Definition other_regions (env : Env) : list string :=
  Str.split "," (default "" (environ_OTHER_REGIONS env)).

(** [if other_regions and other_regions[0]:] *)
Definition peers_configured (regions : list string) : bool :=
  match regions with
  | r :: _ => Str.truthy r
  | [] => false
  end.

(** The fan-out to the peer regions: [other_results]. *)
Definition collect_peers (env : Env) (url : string) : M (list RegionValue) :=
  let regions := other_regions env in
  if peers_configured regions then
    let* _ := raise_fault (lambda_client_fault env) in
    invoke_regions env url 0 regions []
  else ret [].

Definition multi_region_check (env : Env) (event : Event) : M Response :=
  try_except
    (let* bu := body_url event in
     if negb (truthy_url bu)
     then ret (cors_response 400 (BodyError "URL is required"))
     else
       let url := default "" bu in
       let* local := check_website_status env url in
       let* other_results := collect_peers env url in
       let all_res := LocalRegion local :: other_results in
       let* up := lift (count_up all_res) in
       let total := length all_res in
       let overall :=
         if (up =? total)%nat then "up"
         else if (0 <? up)%nat then "mixed"
         else "down" in
       let* stamp := now env in
       let* analysis := lift (analyze_multi_region_results all_res) in
       ret (cors_response 200 (BodyMultiRegion
              {| mr_url := url;
                 mr_overall_status := overall;
                 mr_regions_up := up;
                 mr_total_regions := total;
                 mr_results := all_res;
                 mr_timestamp := stamp;
                 mr_analysis := analysis |})))
    (fun e =>
     let* _ := print ("Multi-region error: " +:+ exn_str e) in
     ret (cors_response 500 (BodyError "Internal server error"))).

(** ** Sample environments and requests *)

Definition initial_state : State :=
  {| ticks := 0; table := ∅; calls := []; stdout := [] |}.

Definition unreachable : Exn := exn RequestException "connection refused".

(** The n-th clock reading is n seconds after 2023-11-14T22:13:20Z. *)
Definition sample_clock (n : nat) : Z := (1700000000 + Z.of_nat n) * 1000000.

(** No network: every resolver, request, connection and observer request
    raises; the table is reachable; every future is yielded in time. *)
Definition env_offline : Env :=
  {| environ_AWS_REGION := Some "eu-west-1";
     environ_OTHER_REGIONS := None;
     clock := sample_clock;
     local_utcoffset := fun _ => 0;
     netloc_invalid := fun _ => false;
     gethostbyname := fun _ _ => Raises (exn OtherException "name not known");
     requests_get := fun _ => Raises unreachable;
     connect_ex := fun _ _ => Raises (exn OtherException "name not known");
     observer_request := fun _ _ => Raises unreachable;
     as_completed := [Isitdownrightnow; Websiteplanet; Downforeveryoneorjustme];
     get_item_fault := None;
     put_item_fault := None;
     lambda_client_fault := None;
     invoke := fun _ _ _ => InvokeRaises (exn ClientError "no such function") |}.

Definition ok_response (url : string) : HttpResponse :=
  {| resp_status_code := 200; resp_content_length := 1256;
     resp_url := url; resp_text := "It's just you. The site is up." |}.

(** The site answers; the two peers of the list answer too, the first with
    verdict [up], the second with an invocation error. *)
Definition env_online : Env :=
  {| environ_AWS_REGION := Some "eu-west-1";
     environ_OTHER_REGIONS := Some "us-east-1, ap-south-1";
     clock := sample_clock;
     local_utcoffset := fun _ => 0;
     netloc_invalid := fun _ => false;
     gethostbyname := fun _ _ => Returns "93.184.216.34";
     requests_get := fun u => Returns (ok_response u);
     connect_ex := fun _ _ => Returns 0;
     observer_request := fun _ u => Returns (ok_response u);
     as_completed := [Websiteplanet; Downforeveryoneorjustme; Isitdownrightnow];
     get_item_fault := None;
     put_item_fault := None;
     lambda_client_fault := None;
     invoke := fun i _ _ =>
       match i with
       | O => InvokePayload (Some 200) (PeerBodyValue (PeerObject (Some "up")))
       | _ => InvokeRaises (exn ClientError "throttled")
       end |}.

(** The site resolves and accepts connections while its HTTP requests
    fail; of the three peers of the list the first answers with verdict
    [up], the invocation of the second fails and the third answers with
    verdict [down]. *)
Definition env_mixed_regions : Env :=
  {| environ_AWS_REGION := Some "eu-west-1";
     environ_OTHER_REGIONS := Some "us-east-1,eu-north-1,ap-south-1";
     clock := sample_clock;
     local_utcoffset := fun _ => 0;
     netloc_invalid := fun _ => false;
     gethostbyname := fun _ _ => Returns "93.184.216.34";
     requests_get := fun _ => Raises unreachable;
     connect_ex := fun _ _ => Returns 0;
     observer_request := fun _ u => Returns (ok_response u);
     as_completed := [Websiteplanet; Downforeveryoneorjustme; Isitdownrightnow];
     get_item_fault := None;
     put_item_fault := None;
     lambda_client_fault := None;
     invoke := fun i _ _ =>
       match i with
       | 0%nat => InvokePayload (Some 200) (PeerBodyValue (PeerObject (Some "up")))
       | 1%nat => InvokeRaises (exn ClientError "throttled")
       | _ => InvokePayload (Some 200) (PeerBodyValue (PeerObject (Some "down")))
       end |}.

(** [env] with other observer answers and another completion order. *)
Definition with_observers (env : Env)
    (answers : Observer -> string -> Outcome HttpResponse)
    (yielded : list Observer) : Env :=
  {| environ_AWS_REGION := environ_AWS_REGION env;
     environ_OTHER_REGIONS := environ_OTHER_REGIONS env;
     clock := clock env;
     local_utcoffset := local_utcoffset env;
     netloc_invalid := netloc_invalid env;
     gethostbyname := gethostbyname env;
     requests_get := requests_get env;
     connect_ex := connect_ex env;
     observer_request := answers;
     as_completed := yielded;
     get_item_fault := get_item_fault env;
     put_item_fault := put_item_fault env;
     lambda_client_fault := lambda_client_fault env;
     invoke := invoke env |}.

(** A POST request whose body is [{"url": url}]. *)
Definition post_url (url : string) : Event :=
  {| ev_httpMethod := Some "POST";
     ev_body := Some (JsonObject (Some url));
     ev_url := None |}.


(** A passing check of all three probes, and variations of it. *)
Definition sample_dns (status : string) (n : nat) : DnsResult :=
  {| dns_overall_status := status; dns_success_count := n;
     dns_total_servers := 3; dns_results := [] |}.

Definition sample_http (status : string) : HttpResult :=
  {| http_status := status; http_status_code := None;
     http_response_time := None; http_content_length := None;
     http_redirected := None; http_final_url := None; http_error := None |}.

Definition sample_port (status : string) : PortResult :=
  {| port_port := 443; port_status := status;
     port_response_time := None; port_error := None |}.

Definition sample_checks (dns http port : string) : Checks :=
  {| chk_dns := sample_dns dns 0; chk_http := sample_http http;
     chk_port := sample_port port |}.

(** The three segments of the summary, stated on the statuses. *)
Definition dns_segment (checks : Checks) : string :=
  if decide (dns_overall_status (chk_dns checks) = "success")
  then "DNS OK" else "DNS fail".

Definition http_segment (checks : Checks) : string :=
  if decide (http_status (chk_http checks) = "success")
  then "HTTP OK" else http_status (chk_http checks).

Definition port_segment (checks : Checks) : string :=
  if decide (port_status (chk_port checks) = "open")
  then "Port open" else "Port closed".

(** ** Notions used to state the properties *)

(** The handler answers 400 with an error body and leaves the state as it
    found it: no call was issued, no clock read, nothing written. *)
Definition rejected_before_network (env : Env) (event : Event) (s : State)
    : Prop :=
  exists msg, lambda_handler env event s
              = (Returns (cors_response 400 (BodyError msg)), s).

(** The scheme the parser reads off a URL as it is written, empty when the
    URL carries none. *)
Definition written_scheme (url : string) : string :=
  fst (Urllib.split_scheme
         (Str.filter (fun c => negb (Urllib.unsafe_byte c))
            (Str.lstrip_by Urllib.c0_or_space url))).

(** The URL with a missing scheme defaulted to https. *)
Definition default_scheme (url : string) : string :=
  if Str.truthy (written_scheme url) then url else "https://" +:+ url.

(** The URL is written without a scheme, or with one of the two protocols
    in front. *)
Definition plain_or_web (url : string) : Prop :=
  written_scheme url = "" \/
  Str.startswith "http://" url = true \/
  Str.startswith "https://" url = true.

(** A CORS preflight whose body carries a URL with no netloc. *)
Definition preflight_invalid_url : Event :=
  {| ev_httpMethod := Some "OPTIONS";
     ev_body := Some (JsonObject (Some "https://"));
     ev_url := None |}.

(** The URL the single-region handler goes on to validate, for a request
    whose body is absent or decodes to an object:
    [body.get('url') or event.get('url')]. *)
Definition requested_url (event : Event) : option (option string) :=
  match ev_body event with
  | None => Some (ev_url event)
  | Some (JsonObject u) => Some (or_url u (ev_url event))
  | Some _ => None
  end.

(** The entry the aggregator's loop records for a completed future: the
    result returned, an error entry for a raised exception, none for a
    returned [None]. *)
Definition entry_of (f : Outcome (option ObserverResult))
    : option ObserverResult :=
  match f with
  | Returns r => r
  | Raises e => Some (error_entry e)
  end.

(** The aggregation returns a mapping with an entry for every dispatched
    observer. *)
Definition every_observer_recorded (env : Env) (url : string) (s : State)
    : Prop :=
  exists m s',
    get_external_status_checks env url s = (Returns (Some m), s') /\
    forall o, In o dispatched -> is_Some (m !! observer_name o).

(** The aggregation returns [data] and issues no call but the cache read. *)
Definition served_from_cache (env : Env) (url : string) (s : State)
    (data : Payload) : Prop :=
  exists s',
    get_external_status_checks env url s = (Returns (Some data), s') /\
    calls s' = app (calls s) [CallGetItem url].

(** An empty or absent result. *)
Definition empty_or_absent (r : option Payload) : Prop :=
  r = None \/ r = Some ∅.

(** What the aggregation returns when every observer request fails and
    every future completes: 'down' from the two observers that report a
    failed connection as a verdict, nothing from the third. *)
Definition connection_failed (p : string) : ProtocolResult :=
  {| pr_protocol := p; pr_status := "down"; pr_status_code := None;
     pr_error := Some "Connection failed" |}.

Definition unreachable_payload : Payload :=
  <["isitdownrightnow" :=
      {| obs_status := "down"; obs_message := None; obs_status_code := None;
         obs_error := Some "Connection failed"; obs_protocols := None |}]>
  (<["websiteplanet" :=
      {| obs_status := "down"; obs_message := None; obs_status_code := None;
         obs_error := None;
         obs_protocols := Some [connection_failed "https";
                                connection_failed "http"] |}]> ∅).

(** The requests the three observers send for a target whose netloc is
    [domain], in the order of submission. *)
Definition observer_calls (domain : string) : list Call :=
  [CallObserver Downforeveryoneorjustme
     ("https://downforeveryoneorjustme.com/check?domain=" +:+ domain);
   CallObserver Isitdownrightnow ("http://" +:+ domain);
   CallObserver Websiteplanet ("https://" +:+ domain);
   CallObserver Websiteplanet ("http://" +:+ domain)].

(** The peers whose invocation gave status code 200 and a body that
    decodes, in the order of the configured list from index [i] on. *)
Fixpoint responding (env : Env) (url : string) (i : nat)
    (regions : list string) : list RegionValue :=
  match regions with
  | [] => []
  | r :: rest =>
      let here :=
        if Str.truthy (Str.strip r) then
          match invoke env i ("website-status-checker-" +:+ Str.strip r) url with
          | InvokePayload code (PeerBodyValue v) =>
              if bool_decide (code = Some 200) then [v] else []
          | _ => []
          end
        else [] in
      app here (responding env url (S i) rest)
  end.

Definition responding_peers (env : Env) (url : string) : list RegionValue :=
  if peers_configured (other_regions env)
  then responding env url 0 (other_regions env) else [].

(** ['status'] of a region's entry, [None] where there is none to read. *)
Definition status_of (x : RegionValue) : option string :=
  match x with
  | LocalRegion r => Some (sr_status r)
  | PeerObject st => st
  | PeerOther => None
  end.

Definition is_object (x : RegionValue) : Prop :=
  match x with
  | PeerOther => False
  | _ => True
  end.

(** A state whose table holds one row for [url], written at [stamp] by a
    process whose local time is UTC. *)
Definition cached_state (url : string) (data : Payload) (stamp : Z) : State :=
  {| ticks := 0;
     table := {[ cache_key url :=
                   {| item_data := Some data;
                      item_timestamp := Some stamp;
                      item_ttl :=
                        Some (Z.quot (stamp + storage_lifetime) 1000000) |} ]};
     calls := [];
     stdout := [] |}.

Definition sample_payload : Payload :=
  {[ "isitdownrightnow" :=
       {| obs_status := "up"; obs_message := None;
          obs_status_code := Some 200; obs_error := None;
          obs_protocols := None |} ]}.

(** The site answers the observers that ask it directly; the request to
    downforeveryoneorjustme.com fails. *)
Definition env_one_observer_down : Env :=
  with_observers env_online
    (fun o u =>
       match o with
       | Downforeveryoneorjustme => Raises unreachable
       | _ => Returns (ok_response u)
       end)
    dispatched.

(** Every entry of the mapping [m] is the entry of its observer's future. *)
Definition consistent (fs : Futures) (m : Payload) : Prop :=
  forall k r, m !! k = Some r ->
    exists o, k = observer_name o /\ entry_of (future_of fs o) = Some r.

Definition sample_url : string := "https://example.com".

(** A row as the aggregation writes it: the mapping it collected, which
    has an entry, with a write timestamp and an expiry. *)
Definition written_row (item : Item) : Prop :=
  exists (data : Payload) (ts ttl : Z),
    item = {| item_data := Some data;
              item_timestamp := Some ts;
              item_ttl := Some ttl |} /\
    data <> ∅.

(** Every row of the table is one the aggregation wrote. *)
Definition written_rows (t : gmap (string * string) Item) : Prop :=
  forall k item, t !! k = Some item -> written_row item.

(** ** Further sample environments *)

(** [env] with another outcome of the TCP connection. *)
Definition with_connect_ex (env : Env)
    (answer : option string -> Z -> Outcome Z) : Env :=
  {| environ_AWS_REGION := environ_AWS_REGION env;
     environ_OTHER_REGIONS := environ_OTHER_REGIONS env;
     clock := clock env;
     local_utcoffset := local_utcoffset env;
     netloc_invalid := netloc_invalid env;
     gethostbyname := gethostbyname env;
     requests_get := requests_get env;
     connect_ex := answer;
     observer_request := observer_request env;
     as_completed := as_completed env;
     get_item_fault := get_item_fault env;
     put_item_fault := put_item_fault env;
     lambda_client_fault := lambda_client_fault env;
     invoke := invoke env |}.

(** [env] with faults injected into the table's read and write. *)
Definition with_table_faults (env : Env) (rd wr : option Exn) : Env :=
  {| environ_AWS_REGION := environ_AWS_REGION env;
     environ_OTHER_REGIONS := environ_OTHER_REGIONS env;
     clock := clock env;
     local_utcoffset := local_utcoffset env;
     netloc_invalid := netloc_invalid env;
     gethostbyname := gethostbyname env;
     requests_get := requests_get env;
     connect_ex := connect_ex env;
     observer_request := observer_request env;
     as_completed := as_completed env;
     get_item_fault := rd;
     put_item_fault := wr;
     lambda_client_fault := lambda_client_fault env;
     invoke := invoke env |}.

(** [env_online] with a table whose reads fail. *)
Definition env_read_fault : Env :=
  with_table_faults env_online
    (Some (exn ClientError "ProvisionedThroughputExceededException")) None.

(** [env] with another [OTHER_REGIONS] and other peers. *)
Definition with_peers (env : Env) (regions : option string)
    (answer : nat -> string -> string -> InvokeOutcome) : Env :=
  {| environ_AWS_REGION := environ_AWS_REGION env;
     environ_OTHER_REGIONS := regions;
     clock := clock env;
     local_utcoffset := local_utcoffset env;
     netloc_invalid := netloc_invalid env;
     gethostbyname := gethostbyname env;
     requests_get := requests_get env;
     connect_ex := connect_ex env;
     observer_request := observer_request env;
     as_completed := as_completed env;
     get_item_fault := get_item_fault env;
     put_item_fault := put_item_fault env;
     lambda_client_fault := lambda_client_fault env;
     invoke := answer |}.

(** The n-th resolver of the list answers exactly when [up n] holds. *)
Definition with_resolvers (env : Env) (up : nat -> bool) : Env :=
  {| environ_AWS_REGION := environ_AWS_REGION env;
     environ_OTHER_REGIONS := environ_OTHER_REGIONS env;
     clock := clock env;
     local_utcoffset := local_utcoffset env;
     netloc_invalid := netloc_invalid env;
     gethostbyname := fun i _ =>
       if up i then Returns "93.184.216.34"
       else Raises (exn OtherException "timed out");
     requests_get := requests_get env;
     connect_ex := connect_ex env;
     observer_request := observer_request env;
     as_completed := as_completed env;
     get_item_fault := get_item_fault env;
     put_item_fault := put_item_fault env;
     lambda_client_fault := lambda_client_fault env;
     invoke := invoke env |}.

(** [env] in a process whose local time is [offset] microseconds ahead of
    UTC. *)
Definition with_local_time (env : Env) (offset : Z) : Env :=
  {| environ_AWS_REGION := environ_AWS_REGION env;
     environ_OTHER_REGIONS := environ_OTHER_REGIONS env;
     clock := clock env;
     local_utcoffset := fun _ => offset;
     netloc_invalid := netloc_invalid env;
     gethostbyname := gethostbyname env;
     requests_get := requests_get env;
     connect_ex := connect_ex env;
     observer_request := observer_request env;
     as_completed := as_completed env;
     get_item_fault := get_item_fault env;
     put_item_fault := put_item_fault env;
     lambda_client_fault := lambda_client_fault env;
     invoke := invoke env |}.

(** [env_online] with the local time of Tokyo, nine hours ahead of UTC. *)
Definition env_tokyo : Env :=
  with_local_time env_online (9 * 3600 * 1000000).

(** Whether the n-th lookup of [domain] is answered. *)
Definition resolver_answers (env : Env) (domain : option string) (i : nat)
    : bool :=
  match gethostbyname env i domain with
  | Returns _ => true
  | Raises _ => false
  end.

(** The state after one more reading of the clock. *)
Definition tick (s : State) : State :=
  {| ticks := S (ticks s); table := table s;
     calls := calls s; stdout := stdout s |}.

(** [parsed.port or (443 if parsed.scheme == 'https' else 80)] for a port
    that was read without error. *)
Definition port_or_default (p : Urllib.ParseResult) (po : option Z) : Z :=
  match po with
  | Some n => if n =? 0
              then (if String.eqb (Urllib.scheme p) "https" then 443 else 80)
              else n
  | None => if String.eqb (Urllib.scheme p) "https" then 443 else 80
  end.

(** Whether a request of an observer is answered with a status code below
    400. *)
Definition answered_ok (o : Outcome HttpResponse) : bool :=
  match o with
  | Returns resp => resp_status_code resp <? 400
  | Raises _ => false
  end.

(** The site's outage page as downforeveryoneorjustme.com words it. *)
Definition outage_page : HttpResponse :=
  {| resp_status_code := 200; resp_content_length := 64;
     resp_url := "https://downforeveryoneorjustme.com/check?domain=example.com";
     resp_text := "It's NOT just you! example.com looks down from here." |}.

(** The online environment in which one future misses the deadline. *)
Definition env_slow : Env :=
  with_observers env_online (observer_request env_online)
    [Isitdownrightnow; Downforeveryoneorjustme].

(** The online environment with a table that rejects writes. *)
Definition env_readonly : Env :=
  with_table_faults env_online None (Some (exn ClientError "AccessDenied")).

(** The state after [line] was printed. *)
Definition add_log (s : State) (line : string) : State :=
  {| ticks := ticks s; table := table s;
     calls := calls s; stdout := app (stdout s) [line] |}.

(** The response to an error caught at the boundary of a handler. *)
Definition internal_error : Response :=
  cors_response 500 (BodyError "Internal server error").

(** A request whose body is not JSON. *)
Definition garbled_request : Event :=
  {| ev_httpMethod := Some "POST"; ev_body := Some JsonInvalid;
     ev_url := Some "https://example.com" |}.

(** A CORS preflight carrying a body that is not JSON. *)
Definition preflight_request : Event :=
  {| ev_httpMethod := Some "OPTIONS"; ev_body := Some JsonInvalid;
     ev_url := None |}.

(** A request with a URL in the body and another in the event. *)
Definition two_url_request : Event :=
  {| ev_httpMethod := Some "POST";
     ev_body := Some (JsonObject (Some "https://"));
     ev_url := Some "https://example.com" |}.

(** The peers' function names invoked for a list of configured regions:
    one per region whose name is not blank. *)
Definition invocations (regions : list string) : list Call :=
  List.map (fun r => CallInvoke ("website-status-checker-" +:+ Str.strip r))
    (List.filter (fun r => Str.truthy (Str.strip r)) regions).

(** Three peers: the first fails, the second answers 'down', the third
    answers 503. *)
Definition env_three_peers : Env :=
  with_peers env_online (Some "us-east-1, ,ap-south-1,eu-north-1")
    (fun i _ _ =>
       match i with
       | 0%nat => InvokeRaises (exn ClientError "throttled")
       | 2%nat => InvokePayload (Some 200)
                    (PeerBodyValue (PeerObject (Some "down")))
       | _ => InvokePayload (Some 503) PeerBodyRaises
       end).

(** A peer whose body decodes to a JSON list. *)
Definition env_odd_peer : Env :=
  with_peers env_online (Some "us-east-1")
    (fun _ _ _ => InvokePayload (Some 200) (PeerBodyValue PeerOther)).

(** The region list begins with a comma. *)
Definition env_leading_comma : Env :=
  with_peers env_online (Some ",us-east-1") (invoke env_online).

(** * Properties *)

(** ** The monad *)

Ltac run :=
  unfold bind, try_except, ret, raise, lift, call, print, now, get_table,
    set_table, raise_fault, from_option_exn, run_future in *; simpl in *.

Lemma string_eqb_true (a b : string) : String.eqb a b = true <-> a = b.
Proof. apply String.eqb_eq. Qed.

Lemma string_eqb_false (a b : string) : String.eqb a b = false <-> a <> b.
Proof. apply String.eqb_neq. Qed.

(** ** Local verdict resolver *)

(** C1. [determine_overall_status] gives 'up' when the HTTP status is
    'success'; otherwise 'partial' when DNS succeeded and the port is open;
    otherwise 'dns_only' when DNS succeeded; otherwise 'down': the four
    branches in this order of precedence, for all probe results. *)
Theorem determine_overall_status_precedence (checks : Checks) :
  let d := dns_overall_status (chk_dns checks) in
  let h := http_status (chk_http checks) in
  let p := port_status (chk_port checks) in
  (h = "success" -> determine_overall_status checks = "up") /\
  (h <> "success" -> d = "success" -> p = "open" ->
     determine_overall_status checks = "partial") /\
  (h <> "success" -> d = "success" -> p <> "open" ->
     determine_overall_status checks = "dns_only") /\
  (h <> "success" -> d <> "success" ->
     determine_overall_status checks = "down").
Proof.
  intros d h p. unfold determine_overall_status. fold d h p.
  repeat split.
  - intros Hh. apply string_eqb_true in Hh. now rewrite Hh.
  - intros Hh Hd Hp. apply string_eqb_false in Hh.
    apply string_eqb_true in Hd, Hp. now rewrite Hh, Hd, Hp.
  - intros Hh Hd Hp. apply string_eqb_false in Hh, Hp.
    apply string_eqb_true in Hd. now rewrite Hh, Hd, Hp.
  - intros Hh Hd. apply string_eqb_false in Hh, Hd. now rewrite Hh, Hd.
Qed.

Lemma determine_overall_status_precedence_witness :
  determine_overall_status (sample_checks "failed" "success" "closed") = "up" /\
  determine_overall_status (sample_checks "success" "timeout" "open") = "partial" /\
  determine_overall_status (sample_checks "success" "error" "error") = "dns_only" /\
  determine_overall_status (sample_checks "failed" "error" "open") = "down".
Proof.
  split; [|split; [|split]].
  - apply (proj1 (determine_overall_status_precedence
                    (sample_checks "failed" "success" "closed"))).
    reflexivity.
  - apply (proj1 (proj2 (determine_overall_status_precedence
                           (sample_checks "success" "timeout" "open"))));
      simpl; congruence.
  - apply (proj1 (proj2 (proj2 (determine_overall_status_precedence
                                  (sample_checks "success" "error" "error")))));
      simpl; congruence.
  - apply (proj2 (proj2 (proj2 (determine_overall_status_precedence
                                  (sample_checks "failed" "error" "open")))));
      simpl; congruence.
Defined.


(** ** Summary string *)

Lemma generate_status_summary_segments (checks : Checks) :
  generate_status_summary checks =
  dns_segment checks +:+ "; " +:+ http_segment checks +:+ "; "
    +:+ port_segment checks.
Proof.
  unfold generate_status_summary, dns_segment, http_segment, port_segment.
  simpl.
  destruct (decide (dns_overall_status (chk_dns checks) = "success")) as [e|n];
    [apply string_eqb_true in e | apply string_eqb_false in n];
  destruct (decide (http_status (chk_http checks) = "success")) as [e'|n'];
    [apply string_eqb_true in e' | apply string_eqb_false in n'
    |apply string_eqb_true in e' | apply string_eqb_false in n'];
  destruct (decide (port_status (chk_port checks) = "open")) as [e''|n''];
    try apply string_eqb_true in e''; try apply string_eqb_false in n'';
    repeat match goal with H : String.eqb _ _ = _ |- _ => rewrite H; clear H end;
    reflexivity.
Qed.

(** C10. [generate_status_summary] renders three segments joined by '; '
    in the order DNS, HTTP, port; the port segment is 'Port open' exactly
    when the port status is 'open' and 'Port closed' for every other
    status, 'error' included; the DNS segment is 'DNS fail' for every
    status but 'success'. Two checks with the same HTTP status, both
    without DNS success and both without an open port, have the same
    summary. *)
Theorem generate_status_summary_shape (checks : Checks) :
  generate_status_summary checks =
    join "; " [dns_segment checks; http_segment checks; port_segment checks] /\
  (port_segment checks = "Port open" <-> port_status (chk_port checks) = "open") /\
  (port_status (chk_port checks) <> "open" -> port_segment checks = "Port closed") /\
  (port_status (chk_port checks) = "error" -> port_segment checks = "Port closed") /\
  (dns_overall_status (chk_dns checks) <> "success" ->
     dns_segment checks = "DNS fail") /\
  (forall other : Checks,
     http_status (chk_http other) = http_status (chk_http checks) ->
     dns_overall_status (chk_dns checks) <> "success" ->
     dns_overall_status (chk_dns other) <> "success" ->
     port_status (chk_port checks) <> "open" ->
     port_status (chk_port other) <> "open" ->
     generate_status_summary other = generate_status_summary checks).
Proof.
  split; [apply generate_status_summary_segments|].
  unfold port_segment, dns_segment.
  split; [|split; [|split; [|split]]].
  - destruct (decide (port_status (chk_port checks) = "open")); split;
      intros; congruence.
  - intros H. destruct (decide _); congruence.
  - intros H. destruct (decide _); congruence.
  - intros H. destruct (decide _); congruence.
  - intros other Hh Hd Hd' Hp Hp'.
    rewrite !generate_status_summary_segments.
    unfold dns_segment, http_segment, port_segment. rewrite Hh.
    repeat destruct (decide _); congruence.
Qed.

Lemma generate_status_summary_shape_witness :
  generate_status_summary (sample_checks "failed" "timeout" "error")
  = generate_status_summary (sample_checks "error" "timeout" "closed") /\
  generate_status_summary (sample_checks "failed" "timeout" "error")
  = "DNS fail; timeout; Port closed".
Proof.
  split.
  - apply (proj2 (proj2 (proj2 (proj2 (proj2
             (generate_status_summary_shape
                (sample_checks "error" "timeout" "closed"))))))
             (sample_checks "failed" "timeout" "error"));
      simpl; congruence.
  - reflexivity.
Defined.

(** ** DNS probe *)

Lemma count_le_length {A} (p : A -> bool) (l : list A) :
  (count p l <= length l)%nat.
Proof. unfold count. apply List.filter_length_le. Qed.

Lemma resolve_one_returns env domain i srv s :
  exists r s', resolve_one env domain i srv s = (Returns r, s') /\
    (rr_status r = "success" <->
     exists ip, gethostbyname env i domain = Returns ip).
Proof.
  unfold resolve_one. run.
  destruct (gethostbyname env i domain) as [ip|e]; simpl;
    eexists; eexists; (split; [reflexivity|]); simpl; split;
    try (intros; eauto; congruence).
  - intros [ip Hip]. congruence.
Qed.

Lemma resolve_all_returns env domain servers :
  forall i s,
  exists rs s', resolve_all env domain i servers s = (Returns rs, s') /\
    length rs = length servers /\
    ((forall j, exists e, gethostbyname env j domain = Raises e) ->
     count (fun r => String.eqb (rr_status r) "success") rs = 0%nat).
Proof.
  induction servers as [|srv rest IH]; intros i s; simpl.
  - exists [], s. repeat split; reflexivity.
  - unfold bind at 1.
    destruct (resolve_one_returns env domain i srv s) as (r & s1 & -> & Hr).
    unfold bind at 1.
    destruct (IH (S i) s1) as (rs & s2 & -> & Hlen & Hall).
    exists (r :: rs), s2. split; [reflexivity|]. split; [simpl; lia|].
    intros Hfail. unfold count in *. simpl.
    destruct (String.eqb (rr_status r) "success") eqn:E.
    + apply string_eqb_true in E. apply Hr in E as [ip Hip].
      destruct (Hfail i) as [e He]. congruence.
    + now apply Hall.
Qed.

(** C6. [check_dns_resolution] always returns a result and never raises,
    also when every resolver attempt fails; in the result success_count is
    at most total_servers, and overall_status is 'success' if and only if
    success_count is greater than zero. *)
Theorem check_dns_resolution_total env domain s :
  exists r s',
    check_dns_resolution env domain s = (Returns r, s') /\
    (dns_success_count r <= dns_total_servers r)%nat /\
    (dns_overall_status r = "success" <-> (0 < dns_success_count r)%nat) /\
    ((forall i, exists e, gethostbyname env i domain = Raises e) ->
     dns_success_count r = 0%nat /\ dns_overall_status r = "failed").
Proof.
  unfold check_dns_resolution, bind.
  destruct (resolve_all_returns env domain dns_servers 0%nat s)
    as (rs & s' & -> & Hlen & Hall).
  eexists; eexists; split; [reflexivity|]. simpl.
  split; [|split].
  - change 3%nat with (length dns_servers). rewrite <- Hlen.
    apply count_le_length.
  - destruct (0 <? count _ rs)%nat eqn:E.
    + apply Nat.ltb_lt in E. split; auto.
    + apply Nat.ltb_ge in E. split; [congruence|lia].
  - intros Hfail. rewrite (Hall Hfail). split; reflexivity.
Qed.

Lemma check_dns_resolution_total_witness :
  exists r s',
    check_dns_resolution env_offline (Some "example.com") initial_state
      = (Returns r, s') /\
    dns_success_count r = 0%nat /\ dns_overall_status r = "failed".
Proof.
  destruct (check_dns_resolution_total env_offline (Some "example.com")
              initial_state) as (r & s' & Hrun & _ & _ & Hfail).
  exists r, s'. split; [exact Hrun|].
  apply Hfail. intros i. eexists. reflexivity.
Defined.

(** ** HTTP probe *)

(** Any response counts as success, whatever its status code. *)
Lemma check_http_response_success env url s resp :
  requests_get env url = Returns resp ->
  exists r s',
    check_http_response env url s = (Returns r, s') /\
    http_status r = "success" /\
    http_status_code r = Some (resp_status_code resp).
Proof.
  intros Hresp. unfold check_http_response. run. rewrite Hresp. simpl.
  eexists. eexists. repeat split.
Qed.

(** ** Cache gateway *)

(** What makes a read a hit: the read reaches the table, the row exists
    with a timestamp and a payload, and its age is below the window. *)
Lemma get_cached_external_result_cases env url s :
  exists r s',
    get_cached_external_result env url s = (Returns r, s') /\
    table s' = table s /\
    r = match get_item_fault env, table s !! cache_key url with
        | None, Some item =>
            match item_timestamp item with
            | Some ts =>
                if clock env (ticks s) - ts <? freshness_window
                then item_data item else None
            | None => None
            end
        | _, _ => None
        end.
Proof.
  unfold get_cached_external_result. run.
  destruct (get_item_fault env) as [e|]; simpl.
  { destruct (exn_class e); eexists; eexists; repeat split. }
  destruct (table s !! cache_key url) as [item|]; simpl;
    [|eexists; eexists; repeat split].
  destruct (item_timestamp item) as [ts|]; simpl;
    [|eexists; eexists; repeat split].
  destruct (clock env (ticks s) - ts <? freshness_window); simpl;
    [|eexists; eexists; repeat split].
  destruct (item_data item); simpl; eexists; eexists; repeat split.
Qed.

(** C7. The cache read returns the cached payload only if the current time
    minus the entry's write timestamp is below the 5-minute freshness
    window; in every other case (no entry, an entry as old as the window
    or older, any storage error) it returns no payload; it never raises. *)
Theorem get_cached_external_result_fresh_only env url s :
  exists r s',
    get_cached_external_result env url s = (Returns r, s') /\
    (forall data, r = Some data <->
       get_item_fault env = None /\
       exists item ts,
         table s !! cache_key url = Some item /\
         item_timestamp item = Some ts /\
         item_data item = Some data /\
         clock env (ticks s) - ts < freshness_window) /\
    (get_item_fault env <> None -> r = None) /\
    (table s !! cache_key url = None -> r = None) /\
    (forall item ts,
       table s !! cache_key url = Some item ->
       item_timestamp item = Some ts ->
       freshness_window <= clock env (ticks s) - ts -> r = None) /\
    freshness_window = 5 * 60 * 1000000.
Proof.
  destruct (get_cached_external_result_cases env url s) as (r & s' & Hrun & _ & Hr).
  exists r, s'. split; [exact Hrun|].
  split; [|split; [|split; [|split]]].
  - intros data. rewrite Hr. split.
    + destruct (get_item_fault env); [congruence|].
      destruct (table s !! cache_key url) as [item|]; [|congruence].
      destruct (item_timestamp item) as [ts|] eqn:Ets; [|congruence].
      destruct (clock env (ticks s) - ts <? freshness_window) eqn:E;
        [|congruence].
      intros Hd. split; [reflexivity|]. exists item, ts.
      apply Z.ltb_lt in E. auto.
    + intros (-> & item & ts & -> & -> & Hd & Hlt).
      apply Z.ltb_lt in Hlt. now rewrite Hlt.
  - intros Hf. rewrite Hr. destruct (get_item_fault env); congruence.
  - intros Hn. rewrite Hr, Hn. destruct (get_item_fault env); reflexivity.
  - intros item ts Hi Ht Hold. rewrite Hr, Hi, Ht.
    apply Z.ltb_ge in Hold. rewrite Hold.
    destruct (get_item_fault env); reflexivity.
  - reflexivity.
Qed.

Lemma get_cached_external_result_fresh_only_witness :
  exists s',
    get_cached_external_result env_online sample_url
      (cached_state sample_url sample_payload (sample_clock 0 - 1000000))
    = (Returns (Some sample_payload), s').
Proof.
  destruct (get_cached_external_result_fresh_only env_online sample_url
              (cached_state sample_url sample_payload (sample_clock 0 - 1000000)))
    as (r & s' & Hrun & Hiff & _).
  exists s'. rewrite Hrun. f_equal. f_equal. apply Hiff.
  split; [reflexivity|]. eexists. eexists.
  split; [vm_compute; reflexivity|]. repeat split; reflexivity.
Defined.

(** ** Cache write *)

Lemma epoch_seconds_offset env (t k : Z) :
  local_utcoffset env (t + storage_lifetime) = k * 1000000 ->
  0 <= t -> 0 <= t + storage_lifetime - k * 1000000 ->
  epoch_seconds env (t + storage_lifetime) = Z.quot t 1000000 + 600 - k.
Proof.
  intros Hk Ht Hpos. unfold epoch_seconds. rewrite Hk.
  unfold storage_lifetime in *.
  replace (t + 10 * 60 * 1000000 - k * 1000000)
    with (t + (600 - k) * 1000000) by lia.
  rewrite Z.quot_add; [lia | lia | ].
  apply Z.mul_nonneg_nonneg; lia.
Qed.

Lemma epoch_seconds_lifetime env (t : Z) :
  local_utcoffset env (t + storage_lifetime) = 0 ->
  0 <= t ->
  epoch_seconds env (t + storage_lifetime) = Z.quot t 1000000 + 600.
Proof.
  intros Hk Ht.
  rewrite (epoch_seconds_offset env t 0);
    [ring | rewrite Hk; reflexivity | exact Ht | unfold storage_lifetime; lia].
Qed.

(** The cache write never raises.  Without a storage fault the row holds
    the payload, the first clock reading as write timestamp and, as expiry,
    the whole seconds of the second clock reading plus the 10-minute storage
    lifetime, read as local time; with a fault the table is left as it was.
    Where local time is UTC the expiry is the current time plus ten minutes;
    where local time is [k] seconds ahead of UTC it is [k] seconds less.
    The lifetime is longer than the 5-minute freshness window. *)
Lemma cache_external_result_best_effort env url data s :
  exists s',
    cache_external_result env url data s = (Returns tt, s') /\
    (put_item_fault env = None ->
     table s' =
       <[cache_key url :=
           {| item_data := Some data;
              item_timestamp := Some (clock env (ticks s));
              item_ttl := Some (epoch_seconds env
                                  (clock env (S (ticks s)) + storage_lifetime)) |}]>
         (table s)) /\
    (put_item_fault env <> None -> table s' = table s) /\
    (forall k,
       local_utcoffset env (clock env (S (ticks s)) + storage_lifetime)
       = k * 1000000 ->
       0 <= clock env (S (ticks s)) ->
       0 <= clock env (S (ticks s)) + storage_lifetime - k * 1000000 ->
       epoch_seconds env (clock env (S (ticks s)) + storage_lifetime)
       = Z.quot (clock env (S (ticks s))) 1000000 + 10 * 60 - k) /\
    storage_lifetime = 10 * 60 * 1000000 /\
    freshness_window < storage_lifetime.
Proof.
  unfold cache_external_result. run.
  destruct (put_item_fault env) as [e|]; simpl.
  - destruct (exn_class e); eexists; (split; [reflexivity|]); simpl;
      (split; [congruence|]); (split; [reflexivity|]);
      (split; [intros k; apply epoch_seconds_offset|]); split; reflexivity.
  - eexists; (split; [reflexivity|]); simpl.
    split; [reflexivity|]. split; [congruence|].
    split; [intros k; apply epoch_seconds_offset|]. split; reflexivity.
Qed.

Lemma cache_external_result_returns env url data s :
  exists s',
    cache_external_result env url data s = (Returns tt, s') /\
    calls s' = app (calls s) [CallPutItem url] /\
    ticks s' = S (S (ticks s)) /\
    (put_item_fault env = None ->
     table s' !! cache_key url =
       Some {| item_data := Some data;
               item_timestamp := Some (clock env (ticks s));
               item_ttl := Some (epoch_seconds env
                                   (clock env (S (ticks s)) + storage_lifetime)) |}).
Proof.
  unfold cache_external_result. run.
  destruct (put_item_fault env) as [e|]; simpl.
  - destruct (exn_class e); eexists; repeat split; discriminate.
  - eexists; repeat split. intros _. simpl. apply lookup_insert_eq.
Qed.

Lemma cache_external_result_utc :
  exists s',
    cache_external_result env_online sample_url sample_payload initial_state
    = (Returns tt, s') /\
    table s' !! cache_key sample_url =
      Some {| item_data := Some sample_payload;
              item_timestamp := Some 1700000000000000;
              item_ttl := Some 1700000601 |}.
Proof.
  destruct (cache_external_result_best_effort env_online sample_url
              sample_payload initial_state) as (s' & Hrun & Hok & _).
  exists s'. split; [exact Hrun|].
  rewrite (Hok eq_refl). rewrite lookup_insert_eq. reflexivity.
Qed.

(** C8. The expiry of the row is not the current time plus the storage
    lifetime where local time is not UTC.  In a process whose local time is
    nine hours ahead of UTC, a write whose clock readings are 1700000000 and
    1700000001 seconds after the epoch returns, and stores the payload with
    the first reading as write timestamp and 1699968201 as expiry: nine
    hours before the write, where the second reading plus the 10-minute
    lifetime is 1700000601 seconds after the epoch. *)
Theorem cache_external_result_ttl_in_local_time :
  exists s',
    cache_external_result env_tokyo sample_url sample_payload initial_state
    = (Returns tt, s') /\
    clock env_tokyo 0 = 1700000000 * 1000000 /\
    clock env_tokyo 1 = 1700000001 * 1000000 /\
    table s' !! cache_key sample_url =
      Some {| item_data := Some sample_payload;
              item_timestamp := Some (1700000000 * 1000000);
              item_ttl := Some 1699968201 |} /\
    Z.quot (clock env_tokyo 1 + storage_lifetime) 1000000 = 1700000601 /\
    1699968201 = 1700000601 - 9 * 3600.
Proof.
  eexists. split; [vm_compute; reflexivity|].
  repeat split; vm_compute; reflexivity.
Qed.

(** ** External observers *)

Lemma add_calls_nil s : add_calls s [] = s.
Proof. destruct s. unfold add_calls. simpl. now rewrite app_nil_r. Qed.

Lemma add_calls_app s a b : add_calls (add_calls s a) b = add_calls s (app a b).
Proof. unfold add_calls. simpl. now rewrite app_assoc. Qed.

Section Observers.

Variables (env : Env) (url : string).

Lemma netloc_of_run s :
  netloc_of env url s =
  match Urllib.urlparse (netloc_invalid env) url with
  | Some p => (Returns (Urllib.netloc p), s)
  | None => (Raises (exn ValueError "urlparse"), s)
  end.
Proof.
  unfold netloc_of. run.
  now destruct (Urllib.urlparse (netloc_invalid env) url).
Qed.

Lemma check_downforeveryoneorjustme_unparsed s :
  Urllib.urlparse (netloc_invalid env) url = None ->
  check_downforeveryoneorjustme env url s
  = (Raises (exn ValueError "urlparse"), s).
Proof.
  intros Hp. unfold check_downforeveryoneorjustme, bind.
  now rewrite netloc_of_run, Hp.
Qed.

Lemma check_isitdownrightnow_unparsed s :
  Urllib.urlparse (netloc_invalid env) url = None ->
  check_isitdownrightnow env url s = (Raises (exn ValueError "urlparse"), s).
Proof.
  intros Hp. unfold check_isitdownrightnow, bind.
  now rewrite netloc_of_run, Hp.
Qed.

Lemma check_websiteplanet_unparsed s :
  Urllib.urlparse (netloc_invalid env) url = None ->
  check_websiteplanet env url s = (Raises (exn ValueError "urlparse"), s).
Proof.
  intros Hp. unfold check_websiteplanet, bind.
  now rewrite netloc_of_run, Hp.
Qed.

Lemma check_downforeveryoneorjustme_parsed s p :
  Urllib.urlparse (netloc_invalid env) url = Some p ->
  let request :=
    "https://downforeveryoneorjustme.com/check?domain=" +:+ Urllib.netloc p in
  exists r,
    check_downforeveryoneorjustme env url s
    = (Returns r, add_calls s [CallObserver Downforeveryoneorjustme request]) /\
    (r = None <->
     exists e, observer_request env Downforeveryoneorjustme request = Raises e).
Proof.
  intros Hp request. unfold check_downforeveryoneorjustme, bind at 1.
  rewrite netloc_of_run, Hp. unfold observer_call. run. fold request.
  destruct (observer_request env Downforeveryoneorjustme request) as [resp|e];
    simpl.
  - destruct (Str.contains "just you" (Str.lower (resp_text resp)));
      [|destruct (Str.contains "not just you" (Str.lower (resp_text resp)))];
      eexists; (split; [reflexivity|]); split;
      try congruence; intros [e He]; congruence.
  - exists None. split; [reflexivity|]. split; eauto.
Qed.

Lemma check_isitdownrightnow_parsed s p :
  Urllib.urlparse (netloc_invalid env) url = Some p ->
  let request := "http://" +:+ Urllib.netloc p in
  exists r,
    check_isitdownrightnow env url s
    = (Returns (Some r), add_calls s [CallObserver Isitdownrightnow request]) /\
    ((exists e, observer_request env Isitdownrightnow request = Raises e) ->
     Some r = unreachable_payload !! "isitdownrightnow").
Proof.
  intros Hp request. unfold check_isitdownrightnow, bind at 1.
  rewrite netloc_of_run, Hp. unfold observer_call. run. fold request.
  destruct (observer_request env Isitdownrightnow request) as [resp|e]; simpl;
    eexists; (split; [reflexivity|]).
  - intros [e He]. congruence.
  - intros _. reflexivity.
Qed.

Lemma websiteplanet_one_run s domain p :
  exists r,
    websiteplanet_one env domain p s
    = (Returns r, add_calls s [CallObserver Websiteplanet (p +:+ "://" +:+ domain)]) /\
    ((exists e, observer_request env Websiteplanet (p +:+ "://" +:+ domain)
                = Raises e) ->
     r = connection_failed p).
Proof.
  unfold websiteplanet_one, observer_call. run.
  destruct (observer_request env Websiteplanet (p +:+ "://" +:+ domain))
    as [resp|e]; simpl; eexists; (split; [reflexivity|]).
  - intros [e He]. congruence.
  - intros _. reflexivity.
Qed.

Lemma check_websiteplanet_parsed s p :
  Urllib.urlparse (netloc_invalid env) url = Some p ->
  let d := Urllib.netloc p in
  exists r,
    check_websiteplanet env url s
    = (Returns (Some r),
       add_calls s [CallObserver Websiteplanet ("https://" +:+ d);
                    CallObserver Websiteplanet ("http://" +:+ d)]) /\
    ((forall u, exists e, observer_request env Websiteplanet u = Raises e) ->
     Some r = unreachable_payload !! "websiteplanet").
Proof.
  intros Hp d. unfold check_websiteplanet, bind at 1.
  rewrite netloc_of_run, Hp. fold d. simpl. unfold bind.
  destruct (websiteplanet_one_run s d "https") as (r1 & -> & H1).
  destruct (websiteplanet_one_run
              (add_calls s [CallObserver Websiteplanet ("https" +:+ "://" +:+ d)])
              d "http") as (r2 & -> & H2).
  run. rewrite add_calls_app. simpl.
  eexists; split; [reflexivity|].
  intros Hfail. rewrite (H1 (Hfail _)), (H2 (Hfail _)). reflexivity.
Qed.

End Observers.

(** ** External corroboration aggregator *)

Lemma submit_all_parsed env url s p :
  Urllib.urlparse (netloc_invalid env) url = Some p ->
  let d := Urllib.netloc p in
  exists a b c,
    submit_all env url s
    = (Returns {| fut_downforeveryoneorjustme := Returns a;
                  fut_isitdownrightnow := Returns (Some b);
                  fut_websiteplanet := Returns (Some c) |},
       add_calls s (observer_calls d)) /\
    (a = None <->
     exists e, observer_request env Downforeveryoneorjustme
                 ("https://downforeveryoneorjustme.com/check?domain=" +:+ d)
               = Raises e) /\
    ((exists e, observer_request env Isitdownrightnow ("http://" +:+ d) = Raises e) ->
     Some b = unreachable_payload !! "isitdownrightnow") /\
    ((forall u, exists e, observer_request env Websiteplanet u = Raises e) ->
     Some c = unreachable_payload !! "websiteplanet").
Proof.
  intros Hp d. unfold submit_all, run_future, bind.
  destruct (check_downforeveryoneorjustme_parsed env url s p Hp) as (a & -> & Ha).
  destruct (check_isitdownrightnow_parsed env url
              (add_calls s [CallObserver Downforeveryoneorjustme
                 ("https://downforeveryoneorjustme.com/check?domain="
                  +:+ Urllib.netloc p)]) p Hp) as (b & -> & Hb).
  rewrite add_calls_app.
  match goal with
  | |- context [check_websiteplanet env url ?st] =>
      destruct (check_websiteplanet_parsed env url st p Hp) as (c & -> & Hc)
  end.
  rewrite add_calls_app. exists a, b, c.
  split; [reflexivity|]. auto.
Qed.

Lemma submit_all_unparsed env url s :
  Urllib.urlparse (netloc_invalid env) url = None ->
  let e := exn ValueError "urlparse" in
  submit_all env url s
  = (Returns {| fut_downforeveryoneorjustme := Raises e;
                fut_isitdownrightnow := Raises e;
                fut_websiteplanet := Raises e |}, s).
Proof.
  intros Hp e. unfold submit_all, run_future, bind.
  rewrite (check_downforeveryoneorjustme_unparsed env url s Hp).
  rewrite (check_isitdownrightnow_unparsed env url s Hp).
  rewrite (check_websiteplanet_unparsed env url s Hp).
  reflexivity.
Qed.

Lemma submit_all_returns env url s :
  exists fs cs,
    submit_all env url s = (Returns fs, add_calls s cs) /\
    fut_isitdownrightnow fs <> Returns None /\
    fut_websiteplanet fs <> Returns None.
Proof.
  destruct (Urllib.urlparse (netloc_invalid env) url) as [p|] eqn:Hp.
  - destruct (submit_all_parsed env url s p Hp) as (a & b & c & -> & _).
    eexists; eexists; split; [reflexivity|]. simpl. split; congruence.
  - rewrite (submit_all_unparsed env url s Hp).
    eexists; exists []; rewrite add_calls_nil; split; [reflexivity|].
    simpl. split; congruence.
Qed.

Lemma observer_name_inj o o' : observer_name o = observer_name o' -> o = o'.
Proof. destruct o, o'; simpl; congruence. Qed.

Lemma observer_eqb_eq o o' : observer_eqb o o' = true <-> o = o'.
Proof. destruct o, o'; simpl; split; congruence. Qed.

Section Collect.

Variable fs : Futures.

Lemma record_future_consistent m o :
  consistent fs m -> consistent fs (record_future fs m o).
Proof.
  intros Hm k r. unfold record_future.
  destruct (future_of fs o) as [[r0|]|e] eqn:Ef; try apply Hm;
    (destruct (decide (observer_name o = k)) as [<-|Hne];
     [rewrite lookup_insert_eq; intros [= <-]; exists o; rewrite Ef; eauto
     |rewrite lookup_insert_ne by exact Hne; apply Hm]).
Qed.

Lemma record_future_keeps m o o' r :
  consistent fs m ->
  m !! observer_name o' = Some r ->
  record_future fs m o !! observer_name o' = Some r.
Proof.
  intros Hm Hl. unfold record_future.
  destruct (future_of fs o) as [[r0|]|e] eqn:Ef; try exact Hl;
    (destruct (decide (observer_name o = observer_name o')) as [Heq|Hne];
     [apply observer_name_inj in Heq; subst o';
      rewrite lookup_insert_eq;
      destruct (Hm _ _ Hl) as (o2 & Hk & He);
      apply observer_name_inj in Hk; subst o2; rewrite Ef in He;
      simpl in He; congruence
     |rewrite lookup_insert_ne by exact Hne; exact Hl]).
Qed.

Lemma record_future_here m o :
  record_future fs m o !! observer_name o = entry_of (future_of fs o)
  \/ (entry_of (future_of fs o) = None /\ record_future fs m o = m).
Proof.
  unfold record_future.
  destruct (future_of fs o) as [[r0|]|e]; simpl;
    try (left; apply lookup_insert_eq). right; auto.
Qed.

Lemma fold_record_consistent l :
  forall m, consistent fs m -> consistent fs (fold_left (record_future fs) l m).
Proof.
  induction l as [|o l IH]; intros m Hm; simpl; [exact Hm|].
  apply IH, record_future_consistent, Hm.
Qed.

Lemma fold_record_keeps l :
  forall m o r, consistent fs m -> m !! observer_name o = Some r ->
    fold_left (record_future fs) l m !! observer_name o = Some r.
Proof.
  induction l as [|o' l IH]; intros m o r Hm Hl; simpl; [exact Hl|].
  apply IH; [apply record_future_consistent, Hm|].
  now apply record_future_keeps.
Qed.

(** An observer whose future was yielded has the entry of its future. *)
Lemma fold_record_yielded l :
  forall m o, consistent fs m ->
    List.existsb (observer_eqb o) l = true ->
    fold_left (record_future fs) l m !! observer_name o
    = entry_of (future_of fs o).
Proof.
  induction l as [|o' l IH]; intros m o Hm Hin; simpl in *; [discriminate|].
  pose proof (record_future_consistent m o' Hm) as Hm'.
  destruct (observer_eqb o o') eqn:E.
  - apply observer_eqb_eq in E. subst o'.
    destruct (entry_of (future_of fs o)) as [r|] eqn:Er.
    + apply fold_record_keeps; [exact Hm'|].
      destruct (record_future_here m o) as [H|[H _]]; congruence.
    + destruct (fold_left (record_future fs) l (record_future fs m o)
                  !! observer_name o) as [r|] eqn:El; [|reflexivity].
      destruct (fold_record_consistent l _ Hm' _ _ El) as (o2 & Hk & He).
      apply observer_name_inj in Hk. subst o2. congruence.
  - simpl in Hin. now apply IH.
Qed.

Lemma consistent_empty : consistent fs ∅.
Proof. intros k r. rewrite lookup_empty. discriminate. Qed.

Lemma all_completed_yielded l o :
  all_completed l = true -> List.existsb (observer_eqb o) l = true.
Proof.
  unfold all_completed, dispatched. simpl.
  rewrite !andb_true_iff. intros (Ha & Hb & Hc & _).
  destruct o; assumption.
Qed.

(** The mapping collected when every future was yielded in time. *)
Lemma fold_record_complete l :
  all_completed l = true ->
  let m := fold_left (record_future fs) l ∅ in
  (forall o, m !! observer_name o = entry_of (future_of fs o)) /\
  (forall k, is_Some (m !! k) -> exists o, k = observer_name o).
Proof.
  intros Hall m. split.
  - intros o. apply fold_record_yielded; [apply consistent_empty|].
    now apply all_completed_yielded.
  - intros k [r Hr].
    destruct (fold_record_consistent l ∅ consistent_empty k r Hr) as (o & Hk & _).
    eauto.
Qed.

End Collect.

Lemma get_cached_external_result_calls env url s :
  exists r s',
    get_cached_external_result env url s = (Returns r, s') /\
    calls s' = app (calls s) [CallGetItem url].
Proof.
  unfold get_cached_external_result. run.
  destruct (get_item_fault env) as [e|]; simpl.
  { destruct (exn_class e); eexists; eexists; split; reflexivity. }
  destruct (table s !! cache_key url) as [item|]; simpl;
    [|eexists; eexists; split; reflexivity].
  destruct (item_timestamp item) as [ts|]; simpl;
    [|eexists; eexists; split; reflexivity].
  destruct (clock env (ticks s) - ts <? freshness_window); simpl;
    [|eexists; eexists; split; reflexivity].
  destruct (item_data item); simpl; eexists; eexists; split; reflexivity.
Qed.

(** The mapping the loop over the completed futures leaves. *)
Lemma collect_run env fs s :
  collect env fs s =
  if all_completed (as_completed env)
  then (Returns (fold_left (record_future fs) (as_completed env) ∅), s)
  else (Raises (exn FuturesTimeout "futures unfinished"), s).
Proof. unfold collect. now destruct (all_completed (as_completed env)). Qed.

(** The aggregation after a miss: it returns the collected mapping when
    every future was yielded in time and [None] otherwise, and it never
    raises. *)
Lemma fan_out_guarded env url s fs s1 :
  submit_all env url s = (Returns fs, s1) ->
  exists s2,
    try_except (fan_out env url)
      (fun e => let* _ := print ("External checks error: " +:+ exn_str e) in
                ret None) s
    = (Returns (if all_completed (as_completed env)
                then Some (fold_left (record_future fs) (as_completed env) ∅)
                else None), s2) /\
    exists cs, calls s2 = app (calls s1) cs.
Proof.
  intros Hsub. unfold try_except, fan_out, bind. rewrite Hsub, collect_run.
  destruct (all_completed (as_completed env)).
  - destruct (truthy_payload (fold_left (record_future fs) (as_completed env) ∅)).
    + destruct (cache_external_result_returns env url
                  (fold_left (record_future fs) (as_completed env) ∅) s1)
        as (s2 & -> & Hc & _).
      exists s2. split; [reflexivity|]. eauto.
    + exists s1. split; [reflexivity|]. exists []. now rewrite app_nil_r.
  - unfold print, ret. eexists. split; [reflexivity|].
    exists []. simpl. now rewrite app_nil_r.
Qed.

Lemma get_external_status_checks_hit env url s cached s0 :
  get_cached_external_result env url s = (Returns cached, s0) ->
  truthy_cached cached = true ->
  get_external_status_checks env url s = (Returns cached, s0).
Proof.
  intros Hc Ht. unfold get_external_status_checks, try_except, bind.
  now rewrite Hc, Ht.
Qed.

Lemma get_external_status_checks_miss env url s cached s0 fs s1 :
  get_cached_external_result env url s = (Returns cached, s0) ->
  truthy_cached cached = false ->
  submit_all env url s0 = (Returns fs, s1) ->
  exists s2,
    get_external_status_checks env url s
    = (Returns (if all_completed (as_completed env)
                then Some (fold_left (record_future fs) (as_completed env) ∅)
                else None), s2) /\
    exists cs, calls s2 = app (calls s1) cs.
Proof.
  intros Hc Ht Hsub.
  destruct (fan_out_guarded env url s0 fs s1 Hsub) as (s2 & Hrun & Hcs).
  exists s2. split; [|exact Hcs]. rewrite <- Hrun.
  unfold get_external_status_checks, try_except, bind.
  now rewrite Hc, Ht.
Qed.

(** C3 (as the code has it). In a run of the aggregation that misses the
    cache and in which every dispatched observer's future is yielded
    within the budget, the returned mapping has an entry for an observer
    exactly when its call returned a result or raised: the result as
    returned, or an error-marked entry for the exception. An observer
    whose call returns None has no entry; of the three, only
    downforeveryoneorjustme does so, and it does when its request fails.
    The mapping has no other keys. *)
Theorem aggregation_records_completed_observers env url s cached s0 fs s1 :
  get_cached_external_result env url s = (Returns cached, s0) ->
  truthy_cached cached = false ->
  submit_all env url s0 = (Returns fs, s1) ->
  all_completed (as_completed env) = true ->
  exists (m : Payload) (s2 : State),
    get_external_status_checks env url s = (Returns (Some m), s2) /\
    (forall o, m !! observer_name o = entry_of (future_of fs o)) /\
    (forall o e, future_of fs o = Raises e ->
       m !! observer_name o = Some (error_entry e)) /\
    (forall k, is_Some (m !! k) -> exists o, k = observer_name o) /\
    is_Some (m !! "isitdownrightnow") /\
    is_Some (m !! "websiteplanet") /\
    (m !! "downforeveryoneorjustme" = None <->
     fut_downforeveryoneorjustme fs = Returns None) /\
    (forall p,
       Urllib.urlparse (netloc_invalid env) url = Some p ->
       (m !! "downforeveryoneorjustme" = None <->
        exists e,
          observer_request env Downforeveryoneorjustme
            ("https://downforeveryoneorjustme.com/check?domain="
             +:+ Urllib.netloc p) = Raises e)).
Proof.
  intros Hc Ht Hsub Hall.
  destruct (get_external_status_checks_miss env url s cached s0 fs s1 Hc Ht Hsub)
    as (s2 & Hrun & _).
  rewrite Hall in Hrun.
  destruct (fold_record_complete fs (as_completed env) Hall) as [Hlook Hkeys].
  set (m := fold_left (record_future fs) (as_completed env) ∅) in *.
  exists m, s2. split; [exact Hrun|]. split; [exact Hlook|].
  destruct (submit_all_returns env url s0) as (fs' & cs & Hsub' & Hi & Hw).
  rewrite Hsub in Hsub'. injection Hsub' as <- _.
  split; [|split; [exact Hkeys|split; [|split; [|split]]]].
  - intros o e He. rewrite Hlook, He. reflexivity.
  - change "isitdownrightnow" with (observer_name Isitdownrightnow).
    rewrite Hlook. simpl.
    destruct (fut_isitdownrightnow fs) as [[r|]|e]; simpl; eauto. congruence.
  - change "websiteplanet" with (observer_name Websiteplanet).
    rewrite Hlook. simpl.
    destruct (fut_websiteplanet fs) as [[r|]|e]; simpl; eauto. congruence.
  - change "downforeveryoneorjustme" with (observer_name Downforeveryoneorjustme).
    rewrite Hlook. simpl.
    destruct (fut_downforeveryoneorjustme fs) as [[r|]|e]; simpl;
      split; congruence.
  - intros p Hp.
    change "downforeveryoneorjustme" with (observer_name Downforeveryoneorjustme).
    rewrite Hlook. simpl.
    destruct (submit_all_parsed env url s0 p Hp) as (a & b & c & Hsub2 & Ha & _).
    rewrite Hsub in Hsub2. injection Hsub2 as -> _. simpl. exact Ha.
Qed.

Lemma aggregation_records_completed_observers_witness :
  exists (m : Payload) (s2 : State),
    get_external_status_checks env_one_observer_down sample_url initial_state
    = (Returns (Some m), s2) /\
    m !! "downforeveryoneorjustme" = None /\
    is_Some (m !! "isitdownrightnow").
Proof.
  edestruct (aggregation_records_completed_observers
               env_one_observer_down sample_url initial_state)
    as (m & s2 & Hrun & _ & _ & _ & Hi & _ & Hd & _);
    [vm_compute; reflexivity | reflexivity | vm_compute; reflexivity
    | reflexivity |].
  exists m, s2. split; [exact Hrun|]. split; [|exact Hi].
  apply Hd. reflexivity.
Defined.

(** C3, as stated, fails: the request of downforeveryoneorjustme fails,
    the other two observers succeed, every future completes in time, and
    the returned mapping has no entry for the failed observer. *)
Lemma aggregation_drops_failed_observer :
  (exists e,
     observer_request env_one_observer_down Downforeveryoneorjustme
       "https://downforeveryoneorjustme.com/check?domain=example.com"
     = Raises e) /\
  (exists r,
     observer_request env_one_observer_down Isitdownrightnow
       "http://example.com" = Returns r) /\
  all_completed (as_completed env_one_observer_down) = true /\
  ~ every_observer_recorded env_one_observer_down sample_url initial_state.
Proof.
  split; [eexists; reflexivity|]. split; [eexists; reflexivity|].
  split; [reflexivity|].
  intros (m & s' & Hrun & Hall).
  vm_compute in Hrun. injection Hrun as Hm _.
  destruct (Hall Downforeveryoneorjustme) as [r Hr]; [simpl; auto|].
  subst m. vm_compute in Hr. discriminate.
Qed.

(** ** Cache freshness and the aggregation *)

(** A fresh entry with a non-empty payload is served from the cache. *)
Lemma fresh_entry_served env url s item ts data :
  get_item_fault env = None ->
  table s !! cache_key url = Some item ->
  item_timestamp item = Some ts ->
  item_data item = Some data ->
  clock env (ticks s) - ts < freshness_window ->
  data <> ∅ ->
  exists s',
    get_external_status_checks env url s = (Returns (Some data), s') /\
    calls s' = app (calls s) [CallGetItem url] /\
    table s' = table s.
Proof.
  intros Hf Hi Ht Hd Hfresh Hne.
  destruct (get_cached_external_result_cases env url s)
    as (r & s0 & Hrun & Htab & Hr).
  destruct (get_cached_external_result_calls env url s)
    as (r' & s0' & Hrun' & Hcalls).
  rewrite Hrun in Hrun'. injection Hrun' as <- <-.
  rewrite Hf, Hi, Ht in Hr.
  apply Z.ltb_lt in Hfresh. rewrite Hfresh, Hd in Hr.
  subst r. exists s0. split; [|split; assumption].
  apply get_external_status_checks_hit; [exact Hrun|].
  simpl. unfold truthy_payload. now apply bool_decide_eq_true.
Qed.

(** ** The aggregator never raises *)

Lemma get_external_status_checks_returns env url s :
  exists r s', get_external_status_checks env url s = (Returns r, s').
Proof.
  destruct (get_cached_external_result_calls env url s)
    as (cached & s0 & Hc & _).
  destruct (truthy_cached cached) eqn:Ht.
  - rewrite (get_external_status_checks_hit env url s cached s0 Hc Ht). eauto.
  - destruct (submit_all_returns env url s0) as (fs & cs & Hsub & _).
    destruct (get_external_status_checks_miss env url s cached s0 fs _
                Hc Ht Hsub) as (s2 & -> & _).
    eauto.
Qed.

Lemma unreachable_payload_other k :
  (forall o, k <> observer_name o) -> unreachable_payload !! k = None.
Proof.
  intros Hk. unfold unreachable_payload.
  rewrite lookup_insert_ne by (intros E; apply (Hk Isitdownrightnow); now subst).
  rewrite lookup_insert_ne by (intros E; apply (Hk Websiteplanet); now subst).
  apply lookup_empty.
Qed.

Lemma observer_name_dec k :
  (exists o, k = observer_name o) \/ (forall o, k <> observer_name o).
Proof.
  destruct (decide (k = observer_name Downforeveryoneorjustme)); [eauto|].
  destruct (decide (k = observer_name Isitdownrightnow)); [eauto|].
  destruct (decide (k = observer_name Websiteplanet)); [eauto|].
  right. intros []; assumption.
Qed.

(** The mapping collected when every request fails. *)
Lemma fold_record_unreachable fs l :
  all_completed l = true ->
  fut_downforeveryoneorjustme fs = Returns None ->
  entry_of (fut_isitdownrightnow fs) = unreachable_payload !! "isitdownrightnow" ->
  entry_of (fut_websiteplanet fs) = unreachable_payload !! "websiteplanet" ->
  fold_left (record_future fs) l ∅ = unreachable_payload.
Proof.
  intros Hall Hd Hi Hw.
  destruct (fold_record_complete fs l Hall) as [Hlook Hkeys].
  apply map_eq. intros k.
  destruct (observer_name_dec k) as [[o ->]|Hno].
  - rewrite Hlook. destruct o; simpl.
    + rewrite Hd. reflexivity.
    + exact Hi.
    + exact Hw.
  - rewrite unreachable_payload_other by exact Hno.
    destruct (fold_left (record_future fs) l ∅ !! k) as [r|] eqn:E;
      [|reflexivity].
    destruct (Hkeys k) as [o Ho]; [eauto|]. exfalso. now apply (Hno o).
Qed.

(** C9 (as the code has it). For every URL and every outcome of the cache
    and of the observers, [get_external_status_checks] returns and never
    raises. When the cache gives nothing usable and every observer
    request fails, it returns None if a future misses the deadline, and
    otherwise the mapping with a 'down' entry for isitdownrightnow and for
    websiteplanet and no entry for downforeveryoneorjustme. *)
Theorem get_external_status_checks_never_raises env url s :
  exists r s',
    get_external_status_checks env url s = (Returns r, s') /\
    (forall cached s0 p,
       get_cached_external_result env url s = (Returns cached, s0) ->
       truthy_cached cached = false ->
       Urllib.urlparse (netloc_invalid env) url = Some p ->
       (forall o u, exists e, observer_request env o u = Raises e) ->
       r = if all_completed (as_completed env)
           then Some unreachable_payload else None).
Proof.
  destruct (get_external_status_checks_returns env url s) as (r & s' & Hrun).
  exists r, s'. split; [exact Hrun|].
  intros cached s0 p Hc Ht Hp Hfail.
  destruct (submit_all_parsed env url s0 p Hp)
    as (a & b & c & Hsub & Ha & Hb & Hw).
  destruct (get_external_status_checks_miss env url s cached s0 _ _ Hc Ht Hsub)
    as (s2 & Hres & _).
  rewrite Hrun in Hres. injection Hres as -> _.
  destruct (all_completed (as_completed env)) eqn:Hall; [|reflexivity].
  f_equal. apply fold_record_unreachable; simpl; auto.
  f_equal. apply Ha, Hfail.
Qed.

Lemma get_external_status_checks_never_raises_witness :
  exists s',
    get_external_status_checks env_offline sample_url initial_state
    = (Returns (Some unreachable_payload), s').
Proof.
  destruct (get_external_status_checks_never_raises env_offline sample_url
              initial_state) as (r & s' & Hrun & Hr).
  exists s'. rewrite Hrun. f_equal. f_equal.
  eapply Hr; [vm_compute; reflexivity | reflexivity | vm_compute; reflexivity |].
  intros o u. eexists. reflexivity.
Defined.

(** C9, as stated, fails: no observer request succeeds, the table is
    empty, and the result is neither absent nor empty but a mapping of two
    'down' entries. *)
Lemma unreachable_observers_give_entries :
  (forall o u, exists e, observer_request env_offline o u = Raises e) /\
  table initial_state = ∅ /\
  exists r s',
    get_external_status_checks env_offline sample_url initial_state
    = (Returns r, s') /\
    ~ empty_or_absent r.
Proof.
  split; [intros o u; eexists; reflexivity|]. split; [reflexivity|].
  eexists. eexists. split; [vm_compute; reflexivity|].
  intros [H|H]; discriminate.
Qed.

(** ** Request validation *)

(** [is_valid_url] in words: after the scheme is defaulted, the URL parses
    to scheme http or https with a non-empty netloc. *)
Lemma is_valid_url_spec env url :
  is_valid_url env url = true <->
  exists p,
    Urllib.urlparse (netloc_invalid env) (ensure_protocol url) = Some p /\
    (Urllib.scheme p = "http" \/ Urllib.scheme p = "https") /\
    Urllib.netloc p <> "".
Proof.
  unfold is_valid_url.
  destruct (Urllib.urlparse (netloc_invalid env) (ensure_protocol url)) as [p|].
  - rewrite andb_true_iff, orb_true_iff, negb_true_iff.
    rewrite !string_eqb_true, string_eqb_false.
    split.
    + intros [Hs Hn]. exists p. auto.
    + intros (p' & [= <-] & Hs & Hn). auto.
  - split; [discriminate|]. intros (p & Hp & _). discriminate.
Qed.

Lemma body_url_run event s :
  body_url event s =
  match requested_url event with
  | Some _ =>
      (Returns match ev_body event with
               | Some (JsonObject u) => u
               | _ => None
               end, s)
  | None =>
      (Raises match ev_body event with
              | Some JsonInvalid => exn ValueError "JSONDecodeError"
              | _ => exn AttributeError "get"
              end, s)
  end.
Proof.
  unfold body_url, requested_url.
  destruct (ev_body event) as [[]|]; reflexivity.
Qed.

Lemma startswith_app p :
  forall s, Str.startswith p s = true -> exists r, s = p +:+ r.
Proof.
  induction p as [|a p IH]; intros s H; simpl in *.
  - exists s. reflexivity.
  - destruct s as [|b s]; [discriminate|].
    apply andb_true_iff in H as [Hab Hs].
    apply Ascii.eqb_eq in Hab. subst b.
    destruct (IH s Hs) as [r ->]. exists r. reflexivity.
Qed.

Lemma written_scheme_http rest : written_scheme ("http://" +:+ rest) = "http".
Proof.
  unfold written_scheme.
  change (Str.lstrip_by Urllib.c0_or_space ("http://" +:+ rest))
    with ("http://" +:+ rest).
  change (Str.filter (fun c => negb (Urllib.unsafe_byte c)) ("http://" +:+ rest))
    with ("http://"
          +:+ Str.filter (fun c => negb (Urllib.unsafe_byte c)) rest).
  reflexivity.
Qed.

Lemma written_scheme_https rest :
  written_scheme ("https://" +:+ rest) = "https".
Proof.
  unfold written_scheme.
  change (Str.lstrip_by Urllib.c0_or_space ("https://" +:+ rest))
    with ("https://" +:+ rest).
  change (Str.filter (fun c => negb (Urllib.unsafe_byte c)) ("https://" +:+ rest))
    with ("https://"
          +:+ Str.filter (fun c => negb (Urllib.unsafe_byte c)) rest).
  reflexivity.
Qed.

(** On a URL written without a scheme or with one of the two protocols in
    front, the prefixing of [is_valid_url] is the defaulting of a missing
    scheme to https. *)
Lemma default_scheme_ensure_protocol url :
  plain_or_web url -> default_scheme url = ensure_protocol url.
Proof.
  unfold default_scheme, ensure_protocol.
  intros [Hnone | [Hh | Hs]].
  - rewrite Hnone. cbn [Str.truthy].
    destruct (Str.startswith "http://" url) eqn:Hh.
    { destruct (startswith_app _ _ Hh) as [r ->].
      rewrite written_scheme_http in Hnone. discriminate. }
    destruct (Str.startswith "https://" url) eqn:Hs; [|reflexivity].
    destruct (startswith_app _ _ Hs) as [r ->].
    rewrite written_scheme_https in Hnone. discriminate.
  - rewrite Hh. destruct (startswith_app _ _ Hh) as [r ->].
    now rewrite written_scheme_http.
  - rewrite Hs, orb_true_r. destruct (startswith_app _ _ Hs) as [r ->].
    now rewrite written_scheme_https.
Qed.

(** C2 (as the code has it). For a request that is not a CORS preflight
    and every input string that is written without a scheme or with
    'http://' or 'https://' in front, and that does not, after a missing
    scheme is defaulted to https, parse to scheme http or https with a
    non-empty netloc, the handler answers with a validation error (status
    400) before any call to a probe, an observer or the cache; the empty
    string is such an input. *)
Theorem invalid_url_rejected_before_network env event s url :
  ev_httpMethod event <> Some "OPTIONS" ->
  requested_url event = Some (Some url) ->
  plain_or_web url ->
  ~ (exists p,
       Urllib.urlparse (netloc_invalid env) (default_scheme url) = Some p /\
       (Urllib.scheme p = "http" \/ Urllib.scheme p = "https") /\
       Urllib.netloc p <> "") ->
  rejected_before_network env event s /\
  plain_or_web "" /\
  rejected_before_network env (post_url "") s.
Proof.
  intros Hm Hu Hplain Hbad.
  rewrite (default_scheme_ensure_protocol url Hplain) in Hbad.
  assert (Hv : is_valid_url env url = false).
  { destruct (is_valid_url env url) eqn:E; [|reflexivity].
    apply is_valid_url_spec in E. contradiction. }
  split; [|split].
  - unfold rejected_before_network, lambda_handler, try_except.
    rewrite bool_decide_eq_false_2 by exact Hm.
    unfold bind. rewrite body_url_run, Hu.
    unfold requested_url in Hu.
    destruct (ev_body event) as [[| u |]|]; try discriminate;
      injection Hu as ->; simpl; rewrite Hv;
      destruct (Str.truthy url); simpl; eexists; reflexivity.
  - left. reflexivity.
  - eexists. reflexivity.
Qed.

Lemma invalid_url_rejected_before_network_witness :
  rejected_before_network env_offline (post_url "https://") initial_state.
Proof.
  apply (invalid_url_rejected_before_network env_offline
           (post_url "https://") initial_state "https://").
  - simpl. congruence.
  - reflexivity.
  - right. right. reflexivity.
  - intros (p & Hp & _ & Hn). vm_compute in Hp. injection Hp as <-.
    apply Hn. reflexivity.
Defined.

(** C2, as stated, fails at three requests.  "not a url" passes the
    validation, since with the scheme defaulted it parses to scheme https
    and netloc "not a url", and the handler goes on to the probes, the
    cache and the observers and answers 200.  "https://:80" parses to a
    netloc, ":80", with no host component, passes the validation all the
    same, and the probes run with no host.  A CORS preflight is answered
    200 before its URL, here one with an empty netloc, is looked at. *)
Lemma validation_lets_through :
  (is_valid_url env_offline "not a url" = true /\
   ~ rejected_before_network env_offline (post_url "not a url") initial_state /\
   exists r s',
     lambda_handler env_offline (post_url "not a url") initial_state
     = (Returns r, s') /\
     statusCode r = 200 /\
     In (CallHttpGet "https://not a url") (calls s')) /\
  (plain_or_web "https://:80" /\
   (exists p,
      Urllib.urlparse (netloc_invalid env_offline) (default_scheme "https://:80")
      = Some p /\
      Urllib.scheme p = "https" /\ Urllib.netloc p = ":80" /\
      Urllib.hostname p = None) /\
   ~ rejected_before_network env_offline (post_url "https://:80") initial_state /\
   exists r s',
     lambda_handler env_offline (post_url "https://:80") initial_state
     = (Returns r, s') /\
     statusCode r = 200 /\
     In (CallResolve None) (calls s')) /\
  (requested_url preflight_invalid_url = Some (Some "https://") /\
   is_valid_url env_offline "https://" = false /\
   ~ rejected_before_network env_offline preflight_invalid_url initial_state /\
   exists r,
     lambda_handler env_offline preflight_invalid_url initial_state
     = (Returns r, initial_state) /\
     statusCode r = 200).
Proof.
  split; [|split].
  - split; [reflexivity|]. split.
    + intros [msg H]. vm_compute in H. discriminate.
    + eexists. eexists. split; [vm_compute; reflexivity|].
      split; [reflexivity|]. simpl. auto.
  - split; [right; right; reflexivity|]. split.
    + eexists. split; [vm_compute; reflexivity|]. repeat split.
    + split.
      * intros [msg H]. vm_compute in H. discriminate.
      * eexists. eexists. split; [vm_compute; reflexivity|].
        split; [reflexivity|]. simpl. auto.
  - split; [reflexivity|]. split; [reflexivity|]. split.
    + intros [msg H]. vm_compute in H. discriminate.
    + eexists. split; [vm_compute; reflexivity|]. reflexivity.
Qed.

(** An input that carries another scheme is not among those above.
    "ftp://x.com" gets 'https://' in front like an input with no scheme, so
    the scheme test of [is_valid_url] cannot tell it: it parses to scheme
    https and netloc "ftp:", and the probes run against the host "ftp". *)
Remark ftp_url_is_probed :
  written_scheme "ftp://x.com" = "ftp" /\
  ~ plain_or_web "ftp://x.com" /\
  is_valid_url env_offline "ftp://x.com" = true /\
  exists r s',
    lambda_handler env_offline (post_url "ftp://x.com") initial_state
    = (Returns r, s') /\
    statusCode r = 200 /\
    In (CallResolve (Some "ftp")) (calls s').
Proof.
  split; [reflexivity|].
  split; [intros [H | [H | H]]; vm_compute in H; discriminate H|].
  split; [reflexivity|].
  eexists. eexists. split; [vm_compute; reflexivity|].
  split; [reflexivity|]. simpl. auto.
Qed.

(** ** Multi-region orchestrator *)

Lemma invoke_region_run env url i r acc s :
  exists s',
    invoke_region env url i r acc s
    = (Returns (app acc (responding env url i [r])), s').
Proof.
  unfold invoke_region. simpl. rewrite app_nil_r.
  destruct (Str.truthy (Str.strip r)); [|rewrite app_nil_r; eexists; reflexivity].
  run.
  destruct (invoke env i ("website-status-checker-" +:+ Str.strip r) url)
    as [e|code b]; simpl; [rewrite app_nil_r; eexists; reflexivity|].
  destruct (bool_decide (code = Some 200)), b; simpl;
    rewrite ?app_nil_r; eexists; reflexivity.
Qed.

Lemma responding_cons env url i r rest :
  responding env url i (r :: rest)
  = app (responding env url i [r]) (responding env url (S i) rest).
Proof. simpl. now rewrite app_nil_r. Qed.

Lemma invoke_regions_run env url regions :
  forall i acc s,
  exists s',
    invoke_regions env url i regions acc s
    = (Returns (app acc (responding env url i regions)), s').
Proof.
  induction regions as [|r rest IH]; intros i acc s.
  - simpl. rewrite app_nil_r. eexists. reflexivity.
  - cbn [invoke_regions]. unfold bind.
    destruct (invoke_region_run env url i r acc s) as (s1 & ->).
    destruct (IH (S i) (app acc (responding env url i [r])) s1) as (s2 & ->).
    exists s2. rewrite (responding_cons env url i r rest), app_assoc.
    reflexivity.
Qed.

Lemma collect_peers_run env url s :
  (peers_configured (other_regions env) = true ->
   lambda_client_fault env = None) ->
  exists s', collect_peers env url s = (Returns (responding_peers env url), s').
Proof.
  intros Hclient. unfold collect_peers, responding_peers.
  destruct (peers_configured (other_regions env)); [|eexists; reflexivity].
  unfold bind, raise_fault. rewrite (Hclient eq_refl). simpl.
  apply (invoke_regions_run env url (other_regions env) 0%nat []).
Qed.

Lemma count_up_objects (l : list RegionValue) :
  Forall is_object l ->
  count_up l = Returns (count (fun x => reachable (status_of x)) l).
Proof.
  unfold count. induction 1 as [|x l Hx _ IH]; [reflexivity|].
  cbn [count_up List.filter]. rewrite IH.
  destruct x as [r|st|]; cbn [region_status status_of];
    try (destruct Hx);
    match goal with |- context [reachable ?o] => destruct (reachable o) end;
    reflexivity.
Qed.

Lemma analyze_returns (l : list RegionValue) n :
  count_up l = Returns n ->
  exists a, analyze_multi_region_results l = Returns a.
Proof.
  intros Hn. unfold analyze_multi_region_results.
  destruct l as [|x l]; [eauto|]. rewrite Hn.
  destruct (n =? length (x :: l))%nat; [eauto|].
  destruct (n =? 0)%nat; eauto.
Qed.


Lemma collect_peers_returns env url s peers s' :
  collect_peers env url s = (Returns peers, s') ->
  peers = responding_peers env url.
Proof.
  unfold collect_peers, responding_peers.
  destruct (peers_configured (other_regions env)); [|intros [= <- _]; reflexivity].
  unfold bind, raise_fault.
  destruct (lambda_client_fault env); simpl; [discriminate|].
  destruct (invoke_regions_run env url (other_regions env) 0%nat [] s) as (s2 & ->).
  now intros [= <- _].
Qed.

Lemma count_up_returns (l : list RegionValue) n :
  count_up l = Returns n ->
  n = count (fun x => reachable (status_of x)) l.
Proof.
  unfold count. revert n. induction l as [|x l IH]; intros n.
  - now intros [= <-].
  - cbn [count_up List.filter].
    destruct x as [r|st|]; cbn [region_status status_of]; try discriminate;
      (destruct (count_up l) as [m|e]; [|discriminate]);
      specialize (IH m eq_refl);
      match goal with |- context [reachable ?o] => destruct (reachable o) end;
      intros [= <-]; cbn [length]; congruence.
Qed.

Lemma multi_region_check_200 env event s resp s' :
  multi_region_check env event s = (Returns resp, s') ->
  statusCode resp = 200 ->
  exists r url local,
    body resp = BodyMultiRegion r /\
    mr_results r = LocalRegion local :: responding_peers env url /\
    mr_regions_up r
    = count (fun x => reachable (status_of x)) (mr_results r) /\
    mr_total_regions r = length (mr_results r) /\
    mr_overall_status r
    = (if (mr_regions_up r =? mr_total_regions r)%nat then "up"
       else if (0 <? mr_regions_up r)%nat then "mixed" else "down").
Proof.
  unfold multi_region_check, try_except. unfold bind at 1.
  rewrite body_url_run. unfold requested_url.
  destruct (ev_body event) as [[| u |]|];
    try (cbn; intros [= <- _]; discriminate).
  destruct u as [url|]; [|cbn; intros [= <- _]; discriminate].
  cbn -[count_up analyze_multi_region_results].
  destruct (Str.truthy url); [|cbn; intros [= <- _]; discriminate].
  cbn -[count_up analyze_multi_region_results].
  unfold bind at 1.
  destruct (check_website_status env url s) as [[local|e] s1];
    [|cbn; intros [= <- _]; discriminate].
  unfold bind at 1.
  destruct (collect_peers env url s1) as [[peers|e] s2] eqn:Hpeers;
    [|cbn; intros [= <- _]; discriminate].
  apply collect_peers_returns in Hpeers. subst peers.
  unfold bind at 1. unfold lift.
  destruct (count_up (LocalRegion local :: responding_peers env url))
    as [up|e] eqn:Hcount; [|cbn; intros [= <- _]; discriminate].
  destruct (analyze_returns _ _ Hcount) as (a & Ha).
  unfold bind, now. rewrite Ha.
  apply count_up_returns in Hcount.
  cbn -[count Nat.eqb Nat.ltb]. intros [= <- _] _.
  eexists. exists url, local. cbn -[count Nat.eqb Nat.ltb].
  split; [reflexivity|]. split; [reflexivity|]. split; [exact Hcount|].
  split; reflexivity.
Qed.

(** A request with a URL whose local check returns is answered with the
    consensus of the local result and the answering peers. *)
Lemma multi_region_check_answers env event s url local s1 :
  ev_body event = Some (JsonObject (Some url)) ->
  Str.truthy url = true ->
  check_website_status env url s = (Returns local, s1) ->
  (peers_configured (other_regions env) = true ->
   lambda_client_fault env = None) ->
  Forall is_object (responding_peers env url) ->
  exists r s2,
    multi_region_check env event s
    = (Returns (cors_response 200 (BodyMultiRegion r)), s2) /\
    mr_results r = LocalRegion local :: responding_peers env url /\
    mr_regions_up r
    = count (fun x => reachable (status_of x)) (mr_results r) /\
    mr_total_regions r = length (mr_results r) /\
    mr_total_regions r = S (length (responding_peers env url)) /\
    (mr_regions_up r = mr_total_regions r -> mr_overall_status r = "up") /\
    (mr_regions_up r = 0%nat -> mr_overall_status r = "down") /\
    (mr_regions_up r <> mr_total_regions r -> mr_regions_up r <> 0%nat ->
     mr_overall_status r = "mixed").
Proof.
  intros Hb Hu Hlocal Hclient Hobj.
  unfold multi_region_check, try_except. unfold bind at 1.
  rewrite body_url_run. unfold requested_url. rewrite Hb.
  cbn -[count_up analyze_multi_region_results]. rewrite Hu.
  cbn -[count_up analyze_multi_region_results].
  unfold bind at 1. rewrite Hlocal. unfold bind at 1.
  destruct (collect_peers_run env url s1 Hclient) as (s2 & ->).
  assert (Hall : Forall is_object (LocalRegion local :: responding_peers env url))
    by (constructor; [exact I | exact Hobj]).
  pose proof (count_up_objects _ Hall) as Hcount.
  destruct (analyze_returns _ _ Hcount) as (a & Ha).
  unfold bind, lift, now. rewrite Hcount, Ha.
  cbn -[count]. eexists. eexists. split; [reflexivity|]. cbn -[count].
  set (up := count _ _).
  split; [reflexivity|]. split; [reflexivity|]. split; [reflexivity|].
  split; [reflexivity|].
  split; [|split].
  - intros E. apply Nat.eqb_eq in E. now rewrite E.
  - intros E. rewrite E. reflexivity.
  - intros Hne Hz.
    apply Nat.eqb_neq in Hne. rewrite Hne.
    destruct up; [contradiction|reflexivity].
Qed.

Lemma reachable_up_or_partial (st : option string) :
  reachable st = true <-> st = Some "up" \/ st = Some "partial".
Proof.
  unfold reachable. destruct st as [st|].
  - rewrite orb_true_iff, !String.eqb_eq. split.
    + intros [-> | ->]; [left | right]; reflexivity.
    + intros [[= ->] | [= ->]]; [left | right]; reflexivity.
  - split; [discriminate | intros [H | H]; discriminate H].
Qed.

Lemma count_reachable (l : list RegionValue) :
  count (fun x => reachable (status_of x)) l
  = length (filter (fun x => status_of x = Some "up"
                             \/ status_of x = Some "partial") l).
Proof.
  unfold count. induction l as [|x l IH]; [reflexivity|].
  cbn [List.filter]. rewrite filter_cons.
  destruct (decide (status_of x = Some "up" \/ status_of x = Some "partial"))
    as [Hx | Hx].
  - apply reachable_up_or_partial in Hx. rewrite Hx. cbn [length].
    now rewrite IH.
  - destruct (reachable (status_of x)) eqn:E; [|exact IH].
    apply reachable_up_or_partial in E. contradiction.
Qed.

(** C4. In [multi_region_check], regions_up is the number of collected
    results whose status is 'up' or 'partial'; total_regions is the number
    of results collected, the local result and the peers whose invocation
    answered (a peer whose invocation failed is in neither the list nor
    the denominator); overall_status is 'up' when regions_up equals
    total_regions, 'down' when regions_up is zero, 'mixed' otherwise. *)
Theorem multi_region_consensus env event s :
  (forall resp s',
     multi_region_check env event s = (Returns resp, s') ->
     statusCode resp = 200 ->
     exists r url local,
       body resp = BodyMultiRegion r /\
       mr_results r = LocalRegion local :: responding_peers env url /\
       mr_regions_up r
       = length (filter (fun x => status_of x = Some "up"
                                  \/ status_of x = Some "partial")
                        (mr_results r)) /\
       mr_total_regions r = length (mr_results r) /\
       mr_total_regions r = S (length (responding_peers env url)) /\
       (mr_regions_up r = mr_total_regions r -> mr_overall_status r = "up") /\
       (mr_regions_up r = 0%nat -> mr_overall_status r = "down") /\
       (mr_regions_up r <> mr_total_regions r -> mr_regions_up r <> 0%nat ->
        mr_overall_status r = "mixed")) /\
  (forall url local s1,
     ev_body event = Some (JsonObject (Some url)) ->
     Str.truthy url = true ->
     check_website_status env url s = (Returns local, s1) ->
     (peers_configured (other_regions env) = true ->
      lambda_client_fault env = None) ->
     Forall is_object (responding_peers env url) ->
     exists r s2,
       multi_region_check env event s
       = (Returns (cors_response 200 (BodyMultiRegion r)), s2) /\
       mr_results r = LocalRegion local :: responding_peers env url).
Proof.
  split.
  - intros resp s' Hrun Hcode.
    destruct (multi_region_check_200 env event s resp s' Hrun Hcode)
      as (r & url & local & Hb & Hres & Hup & Htot & Hov).
    exists r, url, local.
    split; [exact Hb|]. split; [exact Hres|].
    split; [rewrite Hup; apply count_reachable|].
    split; [exact Htot|].
    split; [rewrite Htot, Hres; reflexivity|].
    rewrite Hov. split; [|split].
    + intros E. apply Nat.eqb_eq in E. now rewrite E.
    + intros E. rewrite E, Htot, Hres. reflexivity.
    + intros Hne Hz. apply Nat.eqb_neq in Hne. rewrite Hne.
      destruct (mr_regions_up r); [contradiction|reflexivity].
  - intros url local s1 Hb Hu Hlocal Hclient Hobj.
    destruct (multi_region_check_answers env event s url local s1
                Hb Hu Hlocal Hclient Hobj) as (r & s2 & Hrun & Hres & _).
    eauto.
Qed.

Lemma multi_region_consensus_witness :
  exists r s2,
    multi_region_check env_mixed_regions (post_url "example.com") initial_state
    = (Returns (cors_response 200 (BodyMultiRegion r)), s2) /\
    status_of <$> mr_results r = [Some "partial"; Some "up"; Some "down"] /\
    mr_regions_up r = 2%nat /\ mr_total_regions r = 3%nat /\
    mr_overall_status r = "mixed".
Proof.
  destruct (multi_region_consensus env_mixed_regions (post_url "example.com")
              initial_state) as [Hprops Hanswers].
  edestruct (Hanswers "example.com") as (r & s2 & Hrun & _);
    [reflexivity | reflexivity | vm_compute; reflexivity
    | reflexivity | vm_compute; repeat constructor |].
  destruct (Hprops _ _ Hrun eq_refl)
    as (r' & url & local & [= <-] & Hres & Hup & Htot & _ & _ & _ & Hov).
  exists r, s2. split; [exact Hrun|].
  assert (Hr : mr_results r
               = LocalRegion
                   (match check_website_status env_mixed_regions "example.com"
                            initial_state with
                    | (Returns l, _) => l
                    | _ => local
                    end)
                 :: responding_peers env_mixed_regions "example.com").
  { vm_compute in Hrun. injection Hrun as <- _. vm_compute. reflexivity. }
  assert (Hup2 : mr_regions_up r = 2%nat)
    by (rewrite Hup, Hr; vm_compute; reflexivity).
  assert (Htot2 : mr_total_regions r = 3%nat)
    by (rewrite Htot, Hr; vm_compute; reflexivity).
  split; [rewrite Hr; vm_compute; reflexivity|].
  split; [exact Hup2|]. split; [exact Htot2|].
  apply Hov; [rewrite Hup2, Htot2 | rewrite Hup2]; discriminate.
Defined.

(** * Further properties of the code *)

(** ** HTTP probe *)

Lemma check_http_response_raised env url s e :
  requests_get env url = Raises e ->
  match exn_class e with
  | RequestsTimeout =>
      exists r s',
        check_http_response env url s = (Returns r, s') /\
        http_status r = "timeout" /\
        http_error r = Some "Request timed out" /\
        http_status_code r = None
  | RequestException =>
      exists r s',
        check_http_response env url s = (Returns r, s') /\
        http_status r = "error" /\
        http_error r = Some (exn_str e) /\
        http_status_code r = None
  | _ => exists s', check_http_response env url s = (Raises e, s')
  end.
Proof.
  intros He. unfold check_http_response. run. rewrite He. simpl.
  destruct (exn_class e); simpl; eexists; try eexists; repeat split.
Qed.

Lemma check_http_response_answered env url s resp :
  requests_get env url = Returns resp ->
  exists r s',
    check_http_response env url s = (Returns r, s') /\
    http_status r = "success" /\
    http_status_code r = Some (resp_status_code resp) /\
    http_content_length r = Some (resp_content_length resp) /\
    (http_redirected r = Some true <-> resp_url resp <> url) /\
    (http_redirected r = Some false <-> resp_url resp = url) /\
    (resp_url resp <> url -> http_final_url r = Some (resp_url resp)) /\
    (resp_url resp = url -> http_final_url r = None) /\
    calls s' = app (calls s) [CallHttpGet url].
Proof.
  intros Hresp. unfold check_http_response. run. rewrite Hresp. simpl.
  eexists. eexists. split; [reflexivity|]. simpl.
  destruct (String.eqb (resp_url resp) url) eqn:E;
    [apply string_eqb_true in E | apply string_eqb_false in E]; simpl;
    repeat split; intros; try congruence; try reflexivity.
Qed.

(** X1. The outcomes of [check_http_response]. An answered request gives
    'success' with the response's status code and body length, whatever
    the status code, marked redirected exactly when the final URL differs
    from the requested one and carrying the final URL exactly then. A
    [requests] timeout gives 'timeout'; any other [requests] exception
    gives 'error' with its message; an exception of any other class is not
    caught and leaves the probe as raised. *)
Theorem check_http_response_outcomes env url s :
  match requests_get env url with
  | Returns resp =>
      exists r s',
        check_http_response env url s = (Returns r, s') /\
        http_status r = "success" /\
        http_status_code r = Some (resp_status_code resp) /\
        http_content_length r = Some (resp_content_length resp) /\
        (http_redirected r = Some true <-> resp_url resp <> url) /\
        (http_redirected r = Some false <-> resp_url resp = url) /\
        (resp_url resp <> url -> http_final_url r = Some (resp_url resp)) /\
        (resp_url resp = url -> http_final_url r = None) /\
        calls s' = app (calls s) [CallHttpGet url]
  | Raises e =>
      match exn_class e with
      | RequestsTimeout =>
          exists r s',
            check_http_response env url s = (Returns r, s') /\
            http_status r = "timeout" /\
            http_error r = Some "Request timed out" /\
            http_status_code r = None
      | RequestException =>
          exists r s',
            check_http_response env url s = (Returns r, s') /\
            http_status r = "error" /\
            http_error r = Some (exn_str e) /\
            http_status_code r = None
      | _ => exists s', check_http_response env url s = (Raises e, s')
      end
  end.
Proof.
  destruct (requests_get env url) as [resp|e] eqn:H.
  - apply check_http_response_answered, H.
  - apply check_http_response_raised, H.
Qed.

Lemma check_http_response_outcomes_witness :
  (exists r s',
     check_http_response env_offline sample_url initial_state = (Returns r, s') /\
     http_status r = "error" /\
     http_error r = Some "connection refused") /\
  (exists r s',
     check_http_response env_online sample_url initial_state = (Returns r, s') /\
     http_status r = "success" /\ http_final_url r = None).
Proof.
  split.
  - pose proof (check_http_response_outcomes env_offline sample_url
                  initial_state) as H.
    simpl in H. destruct H as (r & s' & Hrun & Hst & Herr & _).
    exists r, s'. auto.
  - pose proof (check_http_response_outcomes env_online sample_url
                  initial_state) as H.
    cbn [requests_get env_online] in H.
    destruct H as (r & s' & Hrun & Hst & _ & _ & _ & _ & _ & Hfin & _).
    exists r, s'. split; [exact Hrun|]. split; [exact Hst|].
    apply Hfin. reflexivity.
Defined.

(** ** Port probe *)

(** X2. [check_port_connectivity] never raises: it reports 'open' exactly
    when the connection attempt returns 0, 'closed' when it returns another
    error number, and 'error' with the message when the attempt raises;
    the result names the port probed. *)
Theorem check_port_connectivity_total env domain port s :
  exists r s',
    check_port_connectivity env domain port s = (Returns r, s') /\
    port_port r = port /\
    (port_status r = "open" <-> connect_ex env domain port = Returns 0) /\
    (port_status r = "closed" <->
     exists n, connect_ex env domain port = Returns n /\ n <> 0) /\
    (port_status r = "error" <->
     exists e, connect_ex env domain port = Raises e) /\
    (forall e, connect_ex env domain port = Raises e ->
       port_error r = Some (exn_str e)) /\
    calls s' = app (calls s) [CallConnect domain port].
Proof.
  unfold check_port_connectivity. run.
  destruct (connect_ex env domain port) as [n|e]; simpl.
  - destruct (n =? 0) eqn:E;
      [apply Z.eqb_eq in E; subst n | apply Z.eqb_neq in E];
      eexists; eexists; (split; [reflexivity|]); simpl;
      repeat split; intros; try congruence; try discriminate; eauto.
    + destruct H as (m & [= <-] & Hm). congruence.
    + destruct H as (e & He). discriminate.
    + destruct H as (e & He). discriminate.
  - eexists; eexists; (split; [reflexivity|]); simpl;
      repeat split; intros; try congruence; try discriminate; eauto.
    destruct H as (m & Hm & _). discriminate.
Qed.

Lemma check_port_connectivity_total_witness :
  exists r s',
    check_port_connectivity
      (with_connect_ex env_online (fun _ _ => Returns 111))
      (Some "example.com") 443 initial_state = (Returns r, s') /\
    port_status r = "closed".
Proof.
  destruct (check_port_connectivity_total
              (with_connect_ex env_online (fun _ _ => Returns 111))
              (Some "example.com") 443 initial_state)
    as (r & s' & Hrun & _ & _ & Hclosed & _).
  exists r, s'. split; [exact Hrun|].
  apply Hclosed. exists 111. split; [reflexivity|discriminate].
Defined.

(** ** DNS probe *)

(** X3. [check_dns_resolution] reports one result per listed server, in
    the order of the list, issues exactly three lookups, all of the same
    name, and counts as successes the lookups that were answered. *)
Theorem check_dns_resolution_shape env domain s :
  exists r s',
    check_dns_resolution env domain s = (Returns r, s') /\
    List.map rr_dns_server (dns_results r) = dns_servers /\
    dns_total_servers r = 3%nat /\
    dns_success_count r
    = count (resolver_answers env domain) [0%nat; 1%nat; 2%nat] /\
    (forall i entry, dns_results r !! i = Some entry ->
       (rr_status entry = "success" <-> resolver_answers env domain i = true) /\
       (rr_status entry = "failed" <-> resolver_answers env domain i = false) /\
       (rr_ip_address entry = None <-> rr_status entry = "failed")) /\
    calls s' = app (calls s)
                 [CallResolve domain; CallResolve domain; CallResolve domain] /\
    table s' = table s.
Proof.
  unfold check_dns_resolution, dns_servers, resolver_answers, count.
  cbn [resolve_all]. unfold resolve_one. run.
  destruct (gethostbyname env 0 domain) as [ip0|e0] eqn:E0,
           (gethostbyname env 1 domain) as [ip1|e1] eqn:E1,
           (gethostbyname env 2 domain) as [ip2|e2] eqn:E2; simpl;
    eexists; eexists; (split; [reflexivity|]); simpl;
    (split; [reflexivity|]); (split; [reflexivity|]);
    (split; [reflexivity|]);
    (split; [|split; [rewrite <- !app_assoc; reflexivity | reflexivity]]);
    intros [|[|[|i]]] entry; simpl; intros [= <-]; simpl;
    rewrite ?E0, ?E1, ?E2; repeat split; intros; congruence.
Qed.

Lemma check_dns_resolution_shape_witness :
  exists r s',
    check_dns_resolution (with_resolvers env_online (Nat.eqb 1))
      (Some "example.com") initial_state = (Returns r, s') /\
    dns_success_count r = 1%nat /\
    (forall entry, dns_results r !! 1%nat = Some entry ->
       rr_status entry = "success").
Proof.
  destruct (check_dns_resolution_shape (with_resolvers env_online (Nat.eqb 1))
              (Some "example.com") initial_state)
    as (r & s' & Hrun & _ & _ & Hcount & Hentries & _).
  exists r, s'. split; [exact Hrun|]. split; [exact Hcount|].
  intros entry Hentry. apply (Hentries _ _ Hentry). reflexivity.
Defined.

(** ** URL validation *)

(** What [ensure_protocol] returns begins with one of the two protocols. *)
Lemma ensure_protocol_cases url :
  exists rest,
    (Str.startswith "http://" url = true /\
     ensure_protocol url = "http://" +:+ rest) \/
    (Str.startswith "http://" url = false /\
     ensure_protocol url = "https://" +:+ rest).
Proof.
  unfold ensure_protocol.
  destruct (Str.startswith "http://" url) eqn:Hh.
  - destruct (startswith_app _ _ Hh) as [rest ->]. exists rest. left.
    split; reflexivity.
  - rewrite orb_false_l.
    destruct (Str.startswith "https://" url) eqn:Hs.
    + destruct (startswith_app _ _ Hs) as [rest ->]. exists rest. right.
      split; reflexivity.
    + exists url. right. split; reflexivity.
Qed.

Lemma urlparse_http ni rest p :
  Urllib.urlparse ni ("http://" +:+ rest) = Some p ->
  Urllib.scheme p = "http" /\
  Urllib.netloc p
  = Urllib.take_netloc (Str.filter (fun c => negb (Urllib.unsafe_byte c)) rest).
Proof.
  unfold Urllib.urlparse.
  change (Str.lstrip_by Urllib.c0_or_space ("http://" +:+ rest))
    with ("http://" +:+ rest).
  change (Str.filter (fun c => negb (Urllib.unsafe_byte c)) ("http://" +:+ rest))
    with ("http://"
          +:+ Str.filter (fun c => negb (Urllib.unsafe_byte c)) rest).
  set (r := Str.filter (fun c => negb (Urllib.unsafe_byte c)) rest).
  change (Urllib.split_scheme ("http://" +:+ r)) with ("http", "//" +:+ r).
  cbv beta iota.
  change (Urllib.split_netloc ("//" +:+ r)) with (Urllib.take_netloc r).
  repeat match goal with
         | |- context [if ?b then None else _] => destruct b
         end; try discriminate.
  intros [= <-]. split; reflexivity.
Qed.

Lemma urlparse_https ni rest p :
  Urllib.urlparse ni ("https://" +:+ rest) = Some p ->
  Urllib.scheme p = "https" /\
  Urllib.netloc p
  = Urllib.take_netloc (Str.filter (fun c => negb (Urllib.unsafe_byte c)) rest).
Proof.
  unfold Urllib.urlparse.
  change (Str.lstrip_by Urllib.c0_or_space ("https://" +:+ rest))
    with ("https://" +:+ rest).
  change (Str.filter (fun c => negb (Urllib.unsafe_byte c)) ("https://" +:+ rest))
    with ("https://"
          +:+ Str.filter (fun c => negb (Urllib.unsafe_byte c)) rest).
  set (r := Str.filter (fun c => negb (Urllib.unsafe_byte c)) rest).
  change (Urllib.split_scheme ("https://" +:+ r)) with ("https", "//" +:+ r).
  cbv beta iota.
  change (Urllib.split_netloc ("//" +:+ r)) with (Urllib.take_netloc r).
  repeat match goal with
         | |- context [if ?b then None else _] => destruct b
         end; try discriminate.
  intros [= <-]. split; reflexivity.
Qed.

(** X4. After the scheme is defaulted, a URL that parses always has scheme
    http or https, 'http' exactly when the input began with 'http://': the
    scheme test of [is_valid_url] never fails, and the URL is valid exactly
    when it parses with a non-empty netloc. *)
Theorem is_valid_url_netloc_only env url :
  (forall p,
     Urllib.urlparse (netloc_invalid env) (ensure_protocol url) = Some p ->
     Urllib.scheme p
     = if Str.startswith "http://" url then "http" else "https") /\
  (is_valid_url env url = true <->
   exists p,
     Urllib.urlparse (netloc_invalid env) (ensure_protocol url) = Some p /\
     Urllib.netloc p <> "").
Proof.
  assert (Hs : forall p,
     Urllib.urlparse (netloc_invalid env) (ensure_protocol url) = Some p ->
     Urllib.scheme p
     = if Str.startswith "http://" url then "http" else "https").
  { intros p Hp.
    destruct (ensure_protocol_cases url) as [rest [[-> Hu]|[-> Hu]]];
      rewrite Hu in Hp.
    - apply (urlparse_http _ _ _ Hp).
    - apply (urlparse_https _ _ _ Hp). }
  split; [exact Hs|].
  rewrite is_valid_url_spec. split.
  - intros (p & Hp & _ & Hn). eauto.
  - intros (p & Hp & Hn). exists p. split; [exact Hp|]. split; [|exact Hn].
    rewrite (Hs p Hp). destruct (Str.startswith "http://" url); auto.
Qed.

Lemma is_valid_url_netloc_only_witness :
  is_valid_url env_offline "gopher://x.com" = true.
Proof.
  apply (proj2 (is_valid_url_netloc_only env_offline "gopher://x.com")).
  eexists. split; [vm_compute; reflexivity|]. discriminate.
Defined.

(** ** Single-region check *)

Lemma check_dns_resolution_returns env domain s :
  exists r cs,
    check_dns_resolution env domain s = (Returns r, add_calls s cs).
Proof.
  unfold check_dns_resolution, dns_servers.
  cbn [resolve_all]. unfold resolve_one. run.
  destruct (gethostbyname env 0 domain), (gethostbyname env 1 domain),
           (gethostbyname env 2 domain); simpl;
    eexists; eexists; unfold add_calls; simpl;
    rewrite <- !app_assoc; reflexivity.
Qed.

Lemma check_port_connectivity_returns env domain port s :
  exists r s',
    check_port_connectivity env domain port s = (Returns r, s') /\
    port_port r = port /\
    calls s' = app (calls s) [CallConnect domain port] /\
    table s' = table s.
Proof.
  unfold check_port_connectivity. run.
  destruct (connect_ex env domain port) as [n|e]; simpl;
    eexists; eexists; repeat split.
Qed.

(** The steps of [check_website_status], for a run that returns. *)
Lemma check_website_status_returns env url s local s' :
  check_website_status env url s = (Returns local, s') ->
  exists p po dns http port_chk s1 s2 s3,
    Urllib.urlparse (netloc_invalid env) (ensure_protocol url) = Some p /\
    Urllib.port p = Some po /\
    check_dns_resolution env (Urllib.hostname p) (tick s) = (Returns dns, s1) /\
    check_http_response env (ensure_protocol url) s1 = (Returns http, s2) /\
    check_port_connectivity env (Urllib.hostname p) (port_or_default p po) s2
    = (Returns port_chk, s3) /\
    s' = tick (tick s3) /\
    local =
      {| sr_url := ensure_protocol url;
         sr_domain := Urllib.hostname p;
         sr_status := determine_overall_status
                        {| chk_dns := dns; chk_http := http;
                           chk_port := port_chk |};
         sr_response_time := clock env (ticks s3) - clock env (ticks s);
         sr_region := default "unknown" (environ_AWS_REGION env);
         sr_timestamp := clock env (S (ticks s3));
         sr_detailed_checks := {| chk_dns := dns; chk_http := http;
                                  chk_port := port_chk |};
         sr_summary := generate_status_summary
                         {| chk_dns := dns; chk_http := http;
                            chk_port := port_chk |};
         sr_external_checks := None |}.
Proof.
  unfold check_website_status. unfold bind at 1. unfold now at 1.
  fold (tick s). unfold bind at 1, from_option_exn at 1.
  destruct (Urllib.urlparse (netloc_invalid env) (ensure_protocol url))
    as [p|] eqn:Hp; [|discriminate].
  unfold ret at 1. unfold bind at 1, from_option_exn at 1.
  destruct (Urllib.port p) as [po|] eqn:Hpo; [|discriminate].
  unfold ret at 1. fold (port_or_default p po).
  unfold bind at 1.
  destruct (check_dns_resolution env (Urllib.hostname p) (tick s))
    as [[dns|e] s1] eqn:Hdns; [|discriminate].
  unfold bind at 1.
  destruct (check_http_response env (ensure_protocol url) s1)
    as [[http|e] s2] eqn:Hhttp; [|discriminate].
  unfold bind at 1.
  destruct (check_port_connectivity env (Urllib.hostname p)
              (port_or_default p po) s2) as [[port_chk|e] s3] eqn:Hport;
    [|discriminate].
  unfold bind, now, ret. intros [= <- <-].
  exists p, po, dns, http, port_chk, s1, s2, s3.
  repeat split; try assumption; reflexivity.
Qed.

Lemma startswith_prefix p r : Str.startswith p (p +:+ r) = true.
Proof.
  induction p as [|a p IH]; simpl; [reflexivity|].
  unfold Str.eqc. now rewrite Ascii.eqb_refl, IH.
Qed.

Lemma ensure_protocol_idempotent url :
  ensure_protocol (ensure_protocol url) = ensure_protocol url.
Proof.
  destruct (ensure_protocol_cases url) as [rest [[_ ->]|[_ ->]]];
    unfold ensure_protocol; now rewrite startswith_prefix, ?orb_true_r.
Qed.

(** The scheme a defaulted URL parses to. *)
Lemma defaulted_scheme env url p :
  Urllib.urlparse (netloc_invalid env) (ensure_protocol url) = Some p ->
  Urllib.scheme p = if Str.startswith "http://" url then "http" else "https".
Proof.
  intros Hp.
  destruct (ensure_protocol_cases url) as [rest [[-> Hu]|[-> Hu]]];
    rewrite Hu in Hp.
  - apply (urlparse_http _ _ _ Hp).
  - apply (urlparse_https _ _ _ Hp).
Qed.

(** X5. [check_website_status] treats a URL and the same URL with the
    protocol already ensured alike: the whole run, result and state, is the
    same. *)
Theorem check_website_status_normalised env url s :
  check_website_status env (ensure_protocol url) s
  = check_website_status env url s.
Proof.
  unfold check_website_status. now rewrite ensure_protocol_idempotent.
Qed.

(** X6. The port [check_website_status] probes is the port written in the
    URL when there is one other than 0, and otherwise 80 for a URL given
    with 'http://' and 443 for every other URL; the port probe is made to
    the parsed host name on that port. *)
Theorem check_website_status_port env url s local s' :
  check_website_status env url s = (Returns local, s') ->
  exists p po,
    Urllib.urlparse (netloc_invalid env) (ensure_protocol url) = Some p /\
    Urllib.port p = Some po /\
    let fallback := if Str.startswith "http://" url then 80 else 443 in
    let port := match po with
                | Some n => if n =? 0 then fallback else n
                | None => fallback
                end in
    port_port (chk_port (sr_detailed_checks local)) = port /\
    sr_domain local = Urllib.hostname p /\
    In (CallConnect (Urllib.hostname p) port) (calls s').
Proof.
  intros Hrun.
  destruct (check_website_status_returns env url s local s' Hrun)
    as (p & po & dns & http & port_chk & s1 & s2 & s3
        & Hp & Hpo & _ & _ & Hport & -> & ->).
  exists p, po. split; [exact Hp|]. split; [exact Hpo|].
  destruct (check_port_connectivity_returns env (Urllib.hostname p)
              (port_or_default p po) s2) as (r & s3' & Hport' & Hpp & Hcalls & _).
  rewrite Hport in Hport'. injection Hport' as <- <-.
  assert (Hd : port_or_default p po
               = match po with
                 | Some n => if n =? 0
                             then (if Str.startswith "http://" url then 80 else 443)
                             else n
                 | None => if Str.startswith "http://" url then 80 else 443
                 end).
  { unfold port_or_default. rewrite (defaulted_scheme env url p Hp).
    destruct (Str.startswith "http://" url); reflexivity. }
  cbv zeta. rewrite <- Hd. cbn [sr_detailed_checks chk_port sr_domain].
  split; [exact Hpp|]. split; [reflexivity|].
  cbn [tick calls]. rewrite Hcalls. apply in_or_app. right. left. reflexivity.
Qed.

Lemma check_website_status_port_witness :
  exists local s',
    check_website_status env_online "http://example.com:0/x" initial_state
    = (Returns local, s') /\
    port_port (chk_port (sr_detailed_checks local)) = 80.
Proof.
  destruct (check_website_status env_online "http://example.com:0/x"
              initial_state) as [[local|e] s'] eqn:Hrun;
    [|vm_compute in Hrun; discriminate].
  destruct (check_website_status_port env_online "http://example.com:0/x"
              initial_state local s' Hrun) as (p & po & Hp & Hpo & Hport & _).
  exists local, s'. split; [reflexivity|].
  vm_compute in Hp. injection Hp as <-.
  vm_compute in Hpo. injection Hpo as <-.
  exact Hport.
Defined.

(** X7. When the URL with the protocol ensured does not parse, or its port
    is not a number between 0 and 65535, [check_website_status] raises a
    ValueError before any probe: no external call is issued and the table
    is untouched. *)
Theorem check_website_status_parse_error env url s :
  Urllib.urlparse (netloc_invalid env) (ensure_protocol url) = None \/
  (exists p,
     Urllib.urlparse (netloc_invalid env) (ensure_protocol url) = Some p /\
     Urllib.port p = None) ->
  exists e s',
    check_website_status env url s = (Raises e, s') /\
    exn_class e = ValueError /\
    calls s' = calls s /\
    table s' = table s.
Proof.
  intros H. unfold check_website_status. run.
  destruct H as [Hp|(p & Hp & Hpo)]; rewrite Hp; simpl.
  - eexists. eexists. repeat split.
  - rewrite Hpo. simpl. eexists. eexists. repeat split.
Qed.

Lemma check_website_status_parse_error_witness :
  exists e s',
    check_website_status env_online "example.com:http" initial_state
    = (Raises e, s') /\
    calls s' = [].
Proof.
  destruct (check_website_status_parse_error env_online "example.com:http"
              initial_state) as (e & s' & Hrun & _ & Hcalls & _).
  - right. eexists. split; vm_compute; reflexivity.
  - exists e, s'. split; [exact Hrun | exact Hcalls].
Defined.

Lemma determine_overall_status_values checks :
  determine_overall_status checks = "up" \/
  determine_overall_status checks = "partial" \/
  determine_overall_status checks = "dns_only" \/
  determine_overall_status checks = "down".
Proof.
  unfold determine_overall_status.
  destruct (String.eqb (http_status (chk_http checks)) "success"); [auto|].
  destruct (String.eqb (dns_overall_status (chk_dns checks)) "success");
    destruct (String.eqb (port_status (chk_port checks)) "open"); simpl; auto.
Qed.

Lemma check_http_response_status env url s r s' :
  check_http_response env url s = (Returns r, s') ->
  (http_status r = "success" <-> exists resp, requests_get env url = Returns resp).
Proof.
  unfold check_http_response. run.
  destruct (requests_get env url) as [resp|e]; simpl.
  - intros [= <- _]. simpl. split; eauto.
  - destruct (exn_class e); simpl; try discriminate;
      intros [= <- _]; simpl; split; try discriminate;
      intros [resp Hr]; discriminate.
Qed.

(** X8. The result of [check_website_status] is consistent: its status is
    the verdict of its own detailed checks, one of 'up', 'partial',
    'dns_only' and 'down', and its summary is the summary of the same
    checks; it carries the URL with the protocol ensured and no external
    checks. The status is 'up' exactly when the request of the HTTP probe
    was answered, whatever the DNS and port probes found. *)
Theorem check_website_status_consistent env url s local s' :
  check_website_status env url s = (Returns local, s') ->
  sr_status local = determine_overall_status (sr_detailed_checks local) /\
  sr_summary local = generate_status_summary (sr_detailed_checks local) /\
  (sr_status local = "up" \/ sr_status local = "partial" \/
   sr_status local = "dns_only" \/ sr_status local = "down") /\
  sr_url local = ensure_protocol url /\
  sr_external_checks local = None /\
  (sr_status local = "up" <->
   exists resp, requests_get env (ensure_protocol url) = Returns resp).
Proof.
  intros Hrun.
  destruct (check_website_status_returns env url s local s' Hrun)
    as (p & po & dns & http & port_chk & s1 & s2 & s3
        & _ & _ & _ & Hhttp & _ & _ & ->).
  cbn [sr_status sr_summary sr_detailed_checks sr_url sr_external_checks].
  split; [reflexivity|]. split; [reflexivity|].
  split; [apply determine_overall_status_values|].
  split; [reflexivity|]. split; [reflexivity|].
  rewrite <- (check_http_response_status env _ s1 http s2 Hhttp).
  unfold determine_overall_status. cbn [chk_http chk_dns chk_port].
  destruct (String.eqb (http_status http) "success") eqn:E.
  - apply string_eqb_true in E. split; auto.
  - apply string_eqb_false in E.
    destruct (String.eqb (dns_overall_status dns) "success"),
             (String.eqb (port_status port_chk) "open"); simpl;
      split; intros; try discriminate; contradiction.
Qed.

Lemma check_website_status_consistent_witness :
  exists local s',
    check_website_status
      (with_connect_ex (with_resolvers env_online (fun _ => false))
         (fun _ _ => Returns 111))
      "example.com" initial_state = (Returns local, s') /\
    sr_status local = "up" /\
    sr_summary local = "DNS fail; HTTP OK; Port closed".
Proof.
  destruct (check_website_status
              (with_connect_ex (with_resolvers env_online (fun _ => false))
                 (fun _ _ => Returns 111))
              "example.com" initial_state) as [[local|e] s'] eqn:Hrun;
    [|vm_compute in Hrun; discriminate].
  destruct (check_website_status_consistent _ _ _ _ _ Hrun)
    as (_ & _ & _ & _ & _ & Hup).
  exists local, s'. split; [reflexivity|]. split.
  - apply Hup. eexists. reflexivity.
  - vm_compute in Hrun. injection Hrun as <- _. reflexivity.
Defined.

(** ** The three observers *)

Lemma contains_not_just_you t :
  Str.contains "not just you" t = true -> Str.contains "just you" t = true.
Proof.
  induction t as [|c t IH].
  - discriminate.
  - change (Str.contains "not just you" (String c t))
      with (Str.startswith "not just you" (String c t)
            || Str.contains "not just you" t).
    change (Str.contains "just you" (String c t))
      with (Str.startswith "just you" (String c t)
            || Str.contains "just you" t).
    intros H. apply orb_true_iff in H as [H|H].
    + destruct (startswith_app _ _ H) as [r Hr].
      simpl in Hr. injection Hr as -> ->.
      apply orb_true_iff. right.
      simpl. unfold Str.eqc. simpl.
      rewrite ?Ascii.eqb_refl. simpl.
      now rewrite ?orb_true_r.
    + apply orb_true_iff. right. auto.
Qed.

(** X9. [check_downforeveryoneorjustme] never reports 'down': whatever
    the page says, its verdict is 'up' or 'unknown', and a page whose
    lower-cased text contains 'not just you' is reported as 'up', since it
    also contains 'just you', which is tested first. *)
Theorem check_downforeveryoneorjustme_never_down env url s r s' :
  check_downforeveryoneorjustme env url s = (Returns (Some r), s') ->
  (obs_status r = "up" \/ obs_status r = "unknown") /\
  obs_status r <> "down" /\
  exists p resp,
    Urllib.urlparse (netloc_invalid env) url = Some p /\
    observer_request env Downforeveryoneorjustme
      ("https://downforeveryoneorjustme.com/check?domain=" +:+ Urllib.netloc p)
    = Returns resp /\
    (obs_status r = "up" <->
     Str.contains "just you" (Str.lower (resp_text resp)) = true) /\
    (Str.contains "not just you" (Str.lower (resp_text resp)) = true ->
     obs_status r = "up").
Proof.
  unfold check_downforeveryoneorjustme. unfold bind at 1.
  rewrite netloc_of_run.
  destruct (Urllib.urlparse (netloc_invalid env) url) as [p|]; [|discriminate].
  unfold observer_call. run.
  destruct (observer_request env Downforeveryoneorjustme
              ("https://downforeveryoneorjustme.com/check?domain="
               +:+ Urllib.netloc p)) as [resp|e] eqn:Hreq; simpl;
    [|discriminate].
  destruct (Str.contains "just you" (Str.lower (resp_text resp))) eqn:Hjust.
  - intros [= <- _]. simpl. split; [auto|]. split; [discriminate|].
    exists p, resp. repeat split; auto.
  - destruct (Str.contains "not just you" (Str.lower (resp_text resp))) eqn:Hnot.
    + apply contains_not_just_you in Hnot. congruence.
    + intros [= <- _]. simpl. split; [auto|]. split; [discriminate|].
      exists p, resp. repeat split; intros; auto; congruence.
Qed.

Lemma check_downforeveryoneorjustme_never_down_witness :
  exists r s',
    check_downforeveryoneorjustme
      (with_observers env_online (fun _ _ => Returns outage_page) dispatched)
      sample_url initial_state = (Returns (Some r), s') /\
    obs_status r = "up".
Proof.
  destruct (check_downforeveryoneorjustme
              (with_observers env_online (fun _ _ => Returns outage_page)
                 dispatched) sample_url initial_state)
    as [[[r|]|e] s'] eqn:Hrun; try (vm_compute in Hrun; discriminate).
  destruct (check_downforeveryoneorjustme_never_down _ _ _ _ _ Hrun)
    as (_ & _ & p & resp & Hp & Hreq & _ & Hnot).
  exists r, s'. split; [reflexivity|].
  apply Hnot. vm_compute in Hreq. injection Hreq as <-.
  vm_compute. reflexivity.
Defined.

(** X10. For a URL that parses, [check_isitdownrightnow] always
    contributes a result and asks the target itself over plain http: the
    verdict is 'up' exactly when that request is answered with a status
    code below 400, and 'down' otherwise; a request that fails gives
    'down' with the error 'Connection failed' and no status code. *)
Theorem check_isitdownrightnow_verdict env url s p :
  Urllib.urlparse (netloc_invalid env) url = Some p ->
  let request := "http://" +:+ Urllib.netloc p in
  exists r,
    check_isitdownrightnow env url s
    = (Returns (Some r), add_calls s [CallObserver Isitdownrightnow request]) /\
    (obs_status r = "up" <->
     answered_ok (observer_request env Isitdownrightnow request) = true) /\
    (obs_status r = "down" <->
     answered_ok (observer_request env Isitdownrightnow request) = false) /\
    (forall resp, observer_request env Isitdownrightnow request = Returns resp ->
       obs_status_code r = Some (resp_status_code resp) /\ obs_error r = None) /\
    (forall e, observer_request env Isitdownrightnow request = Raises e ->
       obs_status_code r = None /\ obs_error r = Some "Connection failed").
Proof.
  intros Hp request. unfold check_isitdownrightnow, bind at 1.
  rewrite netloc_of_run, Hp. unfold observer_call. run. fold request.
  destruct (observer_request env Isitdownrightnow request) as [resp|e]; simpl.
  - eexists. split; [reflexivity|]. simpl.
    destruct (resp_status_code resp <? 400);
      repeat split; intros; try congruence; try discriminate.
  - eexists. split; [reflexivity|]. simpl.
    repeat split; intros; try congruence; discriminate.
Qed.

Lemma check_isitdownrightnow_verdict_witness :
  exists r s',
    check_isitdownrightnow env_offline sample_url initial_state
    = (Returns (Some r), s') /\
    obs_status r = "down" /\ obs_error r = Some "Connection failed".
Proof.
  edestruct (check_isitdownrightnow_verdict env_offline sample_url
               initial_state) as (r & Hrun & _ & Hdown & _ & Hfail);
    [vm_compute; reflexivity|].
  exists r. eexists. split; [exact Hrun|]. split.
  - apply Hdown. reflexivity.
  - apply (Hfail unreachable). reflexivity.
Defined.

(** X11. For a URL that parses, [check_websiteplanet] asks the target over
    https and then over http and lists both outcomes in that order; its
    verdict is 'up' exactly when at least one of the two requests is
    answered with a status code below 400, and 'down' otherwise. *)
Theorem check_websiteplanet_verdict env url s p :
  Urllib.urlparse (netloc_invalid env) url = Some p ->
  let over proto :=
    observer_request env Websiteplanet (proto +:+ "://" +:+ Urllib.netloc p) in
  exists r secure plain,
    check_websiteplanet env url s
    = (Returns (Some r),
       add_calls s
         [CallObserver Websiteplanet ("https://" +:+ Urllib.netloc p);
          CallObserver Websiteplanet ("http://" +:+ Urllib.netloc p)]) /\
    obs_protocols r = Some [secure; plain] /\
    pr_protocol secure = "https" /\ pr_protocol plain = "http" /\
    (pr_status secure = "up" <-> answered_ok (over "https") = true) /\
    (pr_status plain = "up" <-> answered_ok (over "http") = true) /\
    (obs_status r = "up" <->
     answered_ok (over "https") = true \/ answered_ok (over "http") = true) /\
    (obs_status r = "down" <->
     answered_ok (over "https") = false /\ answered_ok (over "http") = false).
Proof.
  intros Hp over. unfold check_websiteplanet, bind at 1.
  rewrite netloc_of_run, Hp. cbn [websiteplanet_all].
  unfold websiteplanet_one, observer_call. run.
  change ("https" +:+ "://" +:+ Urllib.netloc p) with ("https://" +:+ Urllib.netloc p).
  change ("http" +:+ "://" +:+ Urllib.netloc p) with ("http://" +:+ Urllib.netloc p).
  subst over. cbv beta.
  change ("https" +:+ "://" +:+ Urllib.netloc p) with ("https://" +:+ Urllib.netloc p).
  change ("http" +:+ "://" +:+ Urllib.netloc p) with ("http://" +:+ Urllib.netloc p).
  destruct (observer_request env Websiteplanet ("https://" +:+ Urllib.netloc p))
    as [r1|e1];
  destruct (observer_request env Websiteplanet ("http://" +:+ Urllib.netloc p))
    as [r2|e2]; simpl;
    try destruct (resp_status_code r1 <? 400);
    try destruct (resp_status_code r2 <? 400); simpl;
    eexists; eexists; eexists;
    (split; [unfold add_calls; simpl; rewrite <- ?app_assoc; reflexivity|]);
    simpl; (split; [reflexivity|]);
    repeat split; intros; try congruence; try discriminate; auto;
    try (match goal with H : _ \/ _ |- _ => destruct H; discriminate end);
    try (match goal with H : _ /\ _ |- _ => destruct H; discriminate end).
Qed.

Lemma check_websiteplanet_verdict_witness :
  exists r s',
    check_websiteplanet env_online sample_url initial_state
    = (Returns (Some r), s') /\
    obs_status r = "up".
Proof.
  edestruct (check_websiteplanet_verdict env_online sample_url initial_state)
    as (r & secure & plain & Hrun & _ & _ & _ & _ & _ & Hup & _);
    [vm_compute; reflexivity|].
  exists r. eexists. split; [exact Hrun|].
  apply Hup. left. reflexivity.
Defined.

(** ** A target given without scheme *)

Lemma has_char_lstrip c q s :
  Str.has_char c s = false -> Str.has_char c (Str.lstrip_by q s) = false.
Proof.
  unfold Str.has_char. induction s as [|a s IH]; simpl; [auto|].
  intros H. apply orb_false_iff in H as [Ha Hs].
  destruct (q a); [auto|]. simpl. now rewrite Ha, Hs.
Qed.

Lemma has_char_filter c q s :
  Str.has_char c s = false -> Str.has_char c (Str.filter q s) = false.
Proof.
  unfold Str.has_char. induction s as [|a s IH]; simpl; [auto|].
  intros H. apply orb_false_iff in H as [Ha Hs].
  destruct (q a); [|auto]. simpl. now rewrite Ha, IH.
Qed.

Lemma partition_absent c s :
  Str.has_char c s = false -> Str.partition c s = (s, false, "").
Proof.
  unfold Str.has_char. induction s as [|a s IH]; simpl; [auto|].
  intros H. apply orb_false_iff in H as [Ha Hs].
  unfold Str.eqc in *. rewrite Ascii.eqb_sym in Ha. rewrite Ha.
  now rewrite (IH Hs).
Qed.

(** A text with neither a colon nor a slash parses to an empty scheme and
    an empty netloc. *)
Lemma urlparse_plain ni url :
  Str.has_char ":" url = false ->
  Str.has_char "/" url = false ->
  Urllib.urlparse ni url = Some {| Urllib.scheme := ""; Urllib.netloc := "" |}.
Proof.
  intros Hc Hs. unfold Urllib.urlparse.
  set (u := Str.filter (fun c => negb (Urllib.unsafe_byte c))
              (Str.lstrip_by Urllib.c0_or_space url)).
  assert (Huc : Str.has_char ":" u = false)
    by (apply has_char_filter, has_char_lstrip, Hc).
  assert (Hus : Str.has_char "/" u = false)
    by (apply has_char_filter, has_char_lstrip, Hs).
  assert (Hsplit : Urllib.split_scheme u = ("", u)).
  { unfold Urllib.split_scheme. destruct u as [|c0 u']; [reflexivity|].
    now rewrite (partition_absent _ _ Huc). }
  rewrite Hsplit.
  assert (Hnl : Urllib.split_netloc u = "").
  { destruct u as [|c0 u']; [reflexivity|].
    unfold Str.has_char in Hus. simpl in Hus.
    apply orb_false_iff in Hus as [H0 _].
    unfold Urllib.split_netloc.
    destruct c0 as [[] [] [] [] [] [] [] []]; try reflexivity.
    discriminate. }
  rewrite Hnl. reflexivity.
Qed.

(** X12. For a target written without a colon and without a slash, such
    as a bare host name, every observer reads an empty domain from the
    URL: the four requests of the fan-out go to the check page with an
    empty [domain=] and to 'http://', 'https://' and 'http://' with no
    host. *)
Theorem bare_host_reaches_observers_empty env url s :
  Str.has_char ":" url = false ->
  Str.has_char "/" url = false ->
  exists fs,
    submit_all env url s = (Returns fs, add_calls s (observer_calls "")) /\
    observer_calls ""
    = [CallObserver Downforeveryoneorjustme
         "https://downforeveryoneorjustme.com/check?domain=";
       CallObserver Isitdownrightnow "http://";
       CallObserver Websiteplanet "https://";
       CallObserver Websiteplanet "http://"].
Proof.
  intros Hc Hs.
  destruct (submit_all_parsed env url s _ (urlparse_plain _ url Hc Hs))
    as (a & b & c & Hrun & _).
  eexists. split; [exact Hrun | reflexivity].
Qed.

Lemma bare_host_reaches_observers_empty_witness :
  exists fs,
    submit_all env_online "example.com" initial_state
    = (Returns fs, add_calls initial_state (observer_calls "")).
Proof.
  destruct (bare_host_reaches_observers_empty env_online "example.com"
              initial_state eq_refl eq_refl) as (fs & Hrun & _).
  exists fs. exact Hrun.
Defined.

(** ** The aggregation and the cache *)

Lemma cache_external_result_table env url data s :
  exists s',
    cache_external_result env url data s = (Returns tt, s') /\
    calls s' = app (calls s) [CallPutItem url] /\
    (forall k, k <> cache_key url -> table s' !! k = table s !! k) /\
    (put_item_fault env <> None ->
     table s' = table s /\ exists line, stdout s' = app (stdout s) [line]) /\
    (put_item_fault env = None ->
     stdout s' = stdout s /\
     table s' !! cache_key url =
       Some {| item_data := Some data;
               item_timestamp := Some (clock env (ticks s));
               item_ttl := Some (epoch_seconds env
                                   (clock env (S (ticks s)) + storage_lifetime)) |}).
Proof.
  unfold cache_external_result. run.
  destruct (put_item_fault env) as [e|]; simpl.
  - destruct (exn_class e); eexists; repeat split; eauto; discriminate.
  - eexists; repeat split; try congruence.
    + intros k Hk. simpl. now rewrite lookup_insert_ne.
    + simpl. apply lookup_insert_eq.
Qed.

Lemma get_cached_external_result_table env url s cached s0 :
  get_cached_external_result env url s = (Returns cached, s0) ->
  table s0 = table s.
Proof.
  intros Hc.
  destruct (get_cached_external_result_cases env url s) as (r & s' & Hrun & Ht & _).
  rewrite Hc in Hrun. now injection Hrun as <- <-.
Qed.

(** The mapping collected from completed futures is never empty. *)
Lemma fold_record_nonempty env url s fs s1 l :
  submit_all env url s = (Returns fs, s1) ->
  all_completed l = true ->
  fold_left (record_future fs) l ∅ <> ∅.
Proof.
  intros Hsub Hall Hempty.
  destruct (submit_all_returns env url s) as (fs' & cs & Hsub' & Hi & _).
  rewrite Hsub in Hsub'. injection Hsub' as <- _.
  destruct (fold_record_complete fs l Hall) as [Hlook _].
  specialize (Hlook Isitdownrightnow). rewrite Hempty, lookup_empty in Hlook.
  simpl in Hlook. destruct (fut_isitdownrightnow fs) as [[r|]|e];
    simpl in Hlook; congruence.
Qed.

(** The run of the aggregation after a miss, step by step. *)
Lemma get_external_status_checks_miss_steps env url s cached s0 fs s1 :
  get_cached_external_result env url s = (Returns cached, s0) ->
  truthy_cached cached = false ->
  submit_all env url s0 = (Returns fs, s1) ->
  let m := fold_left (record_future fs) (as_completed env) ∅ in
  if all_completed (as_completed env) then
    exists s2,
      cache_external_result env url m s1 = (Returns tt, s2) /\
      get_external_status_checks env url s = (Returns (Some m), s2)
  else
    exists line,
      get_external_status_checks env url s
      = (Returns None,
         {| ticks := ticks s1; table := table s1; calls := calls s1;
            stdout := app (stdout s1) [line] |}).
Proof.
  intros Hc Ht Hsub m.
  assert (Hafter : get_external_status_checks env url s
                   = try_except (fan_out env url)
                       (fun e => let* _ := print ("External checks error: "
                                                  +:+ exn_str e) in ret None) s0).
  { unfold get_external_status_checks, try_except, bind. now rewrite Hc, Ht. }
  rewrite Hafter. clear Hafter.
  unfold try_except, fan_out, bind. rewrite Hsub, collect_run. fold m.
  destruct (all_completed (as_completed env)) eqn:Hall.
  - assert (Hne : truthy_payload m = true).
    { unfold truthy_payload. apply bool_decide_eq_true.
      apply (fold_record_nonempty env url s0 fs s1 _ Hsub Hall). }
    rewrite Hne.
    destruct (cache_external_result_table env url m s1) as (s2 & Hw & _).
    rewrite Hw. exists s2. split; reflexivity.
  - unfold print, ret. eexists. reflexivity.
Qed.

(** X13. When the cache gives nothing usable and a future misses the
    deadline of the fan-out, the aggregation returns None: the results of
    the observers that did complete are discarded, nothing is written to
    the table, one line is logged, and the requests of all three observers
    have been issued all the same. *)
Theorem aggregation_deadline_discards env url s cached s0 :
  get_cached_external_result env url s = (Returns cached, s0) ->
  truthy_cached cached = false ->
  all_completed (as_completed env) = false ->
  exists fs cs line s2,
    submit_all env url s0 = (Returns fs, add_calls s0 cs) /\
    get_external_status_checks env url s = (Returns None, s2) /\
    table s2 = table s /\
    calls s2 = app (calls s0) cs /\
    stdout s2 = app (stdout s0) [line] /\
    (forall p, Urllib.urlparse (netloc_invalid env) url = Some p ->
       cs = observer_calls (Urllib.netloc p)).
Proof.
  intros Hc Ht Hall.
  destruct (submit_all_returns env url s0) as (fs & cs & Hsub & _).
  pose proof (get_external_status_checks_miss_steps env url s cached s0 fs _
                Hc Ht Hsub) as Hsteps.
  cbv zeta in Hsteps. rewrite Hall in Hsteps. destruct Hsteps as (line & Hrun).
  exists fs, cs, line. eexists. split; [exact Hsub|]. split; [exact Hrun|].
  cbn [table calls stdout add_calls].
  split; [apply (get_cached_external_result_table env url s cached s0 Hc)|].
  split; [reflexivity|]. split; [reflexivity|].
  intros p Hp.
  destruct (submit_all_parsed env url s0 p Hp) as (a & b & c & Hsub2 & _).
  rewrite Hsub in Hsub2. injection Hsub2 as _ Hcs.
  now apply app_inv_head in Hcs.
Qed.

Lemma aggregation_deadline_discards_witness :
  exists s2,
    get_external_status_checks env_slow sample_url initial_state
    = (Returns None, s2) /\
    table s2 = ∅ /\
    In (CallObserver Websiteplanet "https://example.com") (calls s2).
Proof.
  edestruct (aggregation_deadline_discards env_slow sample_url initial_state)
    as (fs & cs & line & s2 & Hsub & Hrun & Htab & Hcalls & _ & Hcs);
    [vm_compute; reflexivity | reflexivity | reflexivity |].
  exists s2. split; [exact Hrun|]. split; [exact Htab|].
  rewrite Hcalls. apply in_or_app. right.
  erewrite Hcs by (vm_compute; reflexivity).
  simpl. auto.
Defined.

(** X14. When the cache gives nothing usable and every future completes in
    time, the mapping returned is never empty and is written to the table
    under the URL, stamped with the clock reading taken at the write; the
    rows of other URLs are left as they were, and one write is issued after
    the observers' requests. *)
Theorem completed_fan_out_is_cached env url s cached s0 fs s1 :
  get_cached_external_result env url s = (Returns cached, s0) ->
  truthy_cached cached = false ->
  submit_all env url s0 = (Returns fs, s1) ->
  all_completed (as_completed env) = true ->
  exists (m : Payload) (s2 : State),
    get_external_status_checks env url s = (Returns (Some m), s2) /\
    m <> ∅ /\
    calls s2 = app (calls s1) [CallPutItem url] /\
    (forall other, other <> url ->
       table s2 !! cache_key other = table s !! cache_key other) /\
    (put_item_fault env = None ->
     exists ttl,
       table s2 !! cache_key url =
         Some {| item_data := Some m;
                 item_timestamp := Some (clock env (ticks s1));
                 item_ttl := Some ttl |}).
Proof.
  intros Hc Ht Hsub Hall.
  pose proof (get_external_status_checks_miss_steps env url s cached s0 fs s1
                Hc Ht Hsub) as Hsteps.
  cbv zeta in Hsteps. rewrite Hall in Hsteps.
  destruct Hsteps as (s2 & Hw & Hrun).
  set (m := fold_left (record_future fs) (as_completed env) ∅) in *.
  destruct (cache_external_result_table env url m s1)
    as (s2' & Hw' & Hcalls & Hframe & _ & Hstored).
  rewrite Hw in Hw'. injection Hw' as <-.
  exists m, s2. split; [exact Hrun|].
  split; [apply (fold_record_nonempty env url s0 fs s1 _ Hsub Hall)|].
  split; [exact Hcalls|]. split.
  - intros other Hne. rewrite Hframe by (unfold cache_key; congruence).
    destruct (submit_all_returns env url s0) as (fs' & cs & Hsub' & _).
    rewrite Hsub in Hsub'. injection Hsub' as _ ->.
    cbn [add_calls table].
    now rewrite (get_cached_external_result_table env url s cached s0 Hc).
  - intros Hput. destruct (Hstored Hput) as [_ Hitem]. eauto.
Qed.

Lemma completed_fan_out_is_cached_witness :
  exists (m : Payload) (s2 : State),
    get_external_status_checks env_online sample_url initial_state
    = (Returns (Some m), s2) /\
    m <> ∅ /\
    is_Some (table s2 !! cache_key sample_url).
Proof.
  edestruct (completed_fan_out_is_cached env_online sample_url initial_state)
    as (m & s2 & Hrun & Hne & _ & _ & Hstored);
    [vm_compute; reflexivity | reflexivity | vm_compute; reflexivity
    | reflexivity |].
  exists m, s2. split; [exact Hrun|]. split; [exact Hne|].
  destruct (Hstored eq_refl) as [ttl Hitem]. rewrite Hitem. eauto.
Defined.

(** ** Freshness of the rows the aggregation writes *)

(** The aggregation is the only writer of the table, and it writes the
    mapping it collected only when that mapping has an entry: a table of
    rows written by the aggregation stays one. *)
Lemma aggregation_keeps_written_rows env url s :
  written_rows (table s) ->
  exists r s',
    get_external_status_checks env url s = (Returns r, s') /\
    written_rows (table s').
Proof.
  intros Hinv.
  destruct (get_cached_external_result_calls env url s)
    as (cached & s0 & Hc & _).
  pose proof (get_cached_external_result_table env url s cached s0 Hc) as Ht0.
  destruct (truthy_cached cached) eqn:Ht.
  - rewrite (get_external_status_checks_hit env url s cached s0 Hc Ht).
    eexists. eexists. split; [reflexivity|]. now rewrite Ht0.
  - destruct (submit_all_returns env url s0) as (fs & cs & Hsub & _).
    pose proof (get_external_status_checks_miss_steps env url s cached s0 fs _
                  Hc Ht Hsub) as Hsteps.
    cbv zeta in Hsteps.
    destruct (all_completed (as_completed env)) eqn:Hall.
    + destruct Hsteps as (s2 & Hw & Hrun).
      set (m := fold_left (record_future fs) (as_completed env) ∅) in *.
      destruct (cache_external_result_table env url m (add_calls s0 cs))
        as (s2' & Hw' & _ & Hframe & Hfault & Hstored).
      rewrite Hw in Hw'. injection Hw' as <-.
      eexists. eexists. split; [exact Hrun|].
      intros k item Hk.
      destruct (put_item_fault env) as [e|] eqn:Hput.
      * destruct Hfault as [Htab _]; [discriminate|].
        rewrite Htab in Hk. cbn [add_calls table] in Hk.
        rewrite Ht0 in Hk. exact (Hinv k item Hk).
      * destruct (decide (k = cache_key url)) as [-> | Hne].
        -- destruct (Hstored eq_refl) as [_ Hitem].
           rewrite Hitem in Hk. injection Hk as <-.
           eexists. eexists. eexists. split; [reflexivity|].
           apply (fold_record_nonempty env url s0 fs _ _ Hsub Hall).
        -- rewrite (Hframe k Hne) in Hk. cbn [add_calls table] in Hk.
           rewrite Ht0 in Hk. exact (Hinv k item Hk).
    + destruct Hsteps as (line & Hrun).
      eexists. eexists. split; [exact Hrun|].
      cbn [table add_calls]. now rewrite Ht0.
Qed.

Lemma written_rows_empty : written_rows ∅.
Proof. intros k item Hk. rewrite lookup_empty in Hk. discriminate. Qed.

Lemma sample_payload_nonempty : sample_payload <> ∅.
Proof.
  intros H. apply (f_equal (fun m : Payload => m !! "isitdownrightnow")) in H.
  vm_compute in H. discriminate.
Qed.

Lemma cached_state_written url stamp :
  written_rows (table (cached_state url sample_payload stamp)).
Proof.
  intros k item Hk. cbn [cached_state table] in Hk.
  apply lookup_singleton_Some in Hk as [_ <-].
  eexists. eexists. eexists. split; [reflexivity|].
  apply sample_payload_nonempty.
Qed.

(** C5 (as the code has it). The table holds for the URL an entry as the
    aggregation writes it, with its write timestamp.  If the cache read
    succeeds and the entry's age at read time is below the freshness
    window, the aggregation returns the entry's payload unchanged, issues
    no call but the cache read, and leaves the table as it is.  If the age
    has reached the window, the read gives nothing and the three observers
    are dispatched, the result being what their futures hold. *)
Theorem cache_freshness_governs_aggregation env url s item ts :
  table s !! cache_key url = Some item ->
  written_row item ->
  item_timestamp item = Some ts ->
  (get_item_fault env = None ->
   clock env (ticks s) - ts < freshness_window ->
   exists data s',
     item_data item = Some data /\
     get_external_status_checks env url s = (Returns (Some data), s') /\
     calls s' = app (calls s) [CallGetItem url] /\
     table s' = table s) /\
  (freshness_window <= clock env (ticks s) - ts ->
   exists s0 fs s1 s2,
     get_cached_external_result env url s = (Returns None, s0) /\
     submit_all env url s0 = (Returns fs, s1) /\
     get_external_status_checks env url s
     = (Returns (if all_completed (as_completed env)
                 then Some (fold_left (record_future fs) (as_completed env) ∅)
                 else None), s2) /\
     (exists cs, calls s2 = app (calls s1) cs) /\
     (forall p, Urllib.urlparse (netloc_invalid env) url = Some p ->
        calls s1 = app (calls s)
                     (CallGetItem url :: observer_calls (Urllib.netloc p)))).
Proof.
  intros Hi (data & ts' & ttl & -> & Hne) Ht.
  cbn [item_timestamp] in Ht. injection Ht as ->.
  split.
  - intros Hf Hfresh. exists data.
    destruct (fresh_entry_served env url s _ ts data Hf Hi eq_refl eq_refl
                Hfresh Hne) as (s' & Hrun & Hcalls & Htab).
    exists s'. repeat split; assumption.
  - intros Hold.
    destruct (get_cached_external_result_cases env url s)
      as (r & s0 & Hrun & Htab & Hr).
    destruct (get_cached_external_result_calls env url s)
      as (r' & s0' & Hrun' & Hcalls).
    rewrite Hrun in Hrun'. injection Hrun' as <- <-.
    rewrite Hi in Hr. cbn [item_timestamp] in Hr.
    apply Z.ltb_ge in Hold. rewrite Hold in Hr.
    assert (Hnone : r = None) by (destruct (get_item_fault env); exact Hr).
    clear Hr. subst r.
    destruct (submit_all_returns env url s0) as (fs & cs & Hsub & _).
    destruct (get_external_status_checks_miss env url s None s0 fs _
                Hrun eq_refl Hsub) as (s2 & Hres & Hcs).
    exists s0, fs, (add_calls s0 cs), s2.
    split; [exact Hrun|]. split; [exact Hsub|]. split; [exact Hres|].
    split; [exact Hcs|].
    intros p Hp.
    destruct (submit_all_parsed env url s0 p Hp) as (a & b & c & Hsub2 & _).
    rewrite Hsub in Hsub2. injection Hsub2 as _ Hs.
    simpl. rewrite Hs, Hcalls, <- app_assoc. reflexivity.
Qed.

Lemma cache_freshness_governs_aggregation_witness :
  exists s',
    get_external_status_checks env_online sample_url
      (cached_state sample_url sample_payload (sample_clock 0 - 1000000))
    = (Returns (Some sample_payload), s') /\
    calls s' = [CallGetItem sample_url].
Proof.
  edestruct (cache_freshness_governs_aggregation env_online sample_url
               (cached_state sample_url sample_payload (sample_clock 0 - 1000000)))
    as [Hhit _];
    [vm_compute; reflexivity
    | eexists; eexists; eexists; split;
      [reflexivity | apply sample_payload_nonempty]
    | reflexivity |].
  destruct Hhit as (data & s' & [= <-] & Hrun & Hcalls & _);
    [reflexivity | vm_compute; reflexivity |].
  exists s'. split; [exact Hrun | exact Hcalls].
Defined.

(** C5, as stated, fails: the table holds for the URL an entry the
    aggregation wrote one second before the read, so within the window;
    the read of the table fails, and the aggregation does not return the
    entry's payload but dispatches the observers and returns what they
    answer. *)
Lemma fresh_entry_unread_on_storage_fault :
  written_rows
    (table (cached_state sample_url sample_payload (sample_clock 0 - 1000000))) /\
  (exists item,
     table (cached_state sample_url sample_payload (sample_clock 0 - 1000000))
       !! cache_key sample_url = Some item /\
     item_data item = Some sample_payload /\
     exists ts, item_timestamp item = Some ts /\
       clock env_read_fault 0 - ts < freshness_window) /\
  (exists e, get_item_fault env_read_fault = Some e) /\
  ~ served_from_cache env_read_fault sample_url
      (cached_state sample_url sample_payload (sample_clock 0 - 1000000))
      sample_payload /\
  fst (get_external_status_checks env_read_fault sample_url
         (cached_state sample_url sample_payload (sample_clock 0 - 1000000)))
  <> Returns (Some sample_payload) /\
  In (CallObserver Isitdownrightnow "http://example.com")
     (calls (snd (get_external_status_checks env_read_fault sample_url
                    (cached_state sample_url sample_payload
                       (sample_clock 0 - 1000000))))).
Proof.
  split; [apply cached_state_written|].
  split.
  { eexists. split; [vm_compute; reflexivity|]. split; [reflexivity|].
    eexists. split; reflexivity. }
  split; [eexists; reflexivity|].
  split; [|split].
  - intros (s' & Hrun & Hcalls).
    apply (f_equal (fun x : Outcome (option Payload) * State =>
                      length (calls (snd x)))) in Hrun.
    cbv beta in Hrun. cbn [snd] in Hrun. rewrite Hcalls in Hrun.
    vm_compute in Hrun. discriminate Hrun.
  - intros H.
    apply (f_equal (fun o : Outcome (option Payload) =>
                      match o with
                      | Returns (Some m) => m !! "websiteplanet"
                      | _ => None
                      end)) in H.
    vm_compute in H. discriminate H.
  - vm_compute. tauto.
Qed.

(** X16. Caching is best effort: when the write to the table fails, the
    aggregation still returns the mapping it collected; the table is left
    as it was and the failure is logged in one line. *)
Theorem aggregation_survives_write_fault env url s cached s0 fs s1 :
  get_cached_external_result env url s = (Returns cached, s0) ->
  truthy_cached cached = false ->
  submit_all env url s0 = (Returns fs, s1) ->
  all_completed (as_completed env) = true ->
  put_item_fault env <> None ->
  exists (m : Payload) (s2 : State) line,
    get_external_status_checks env url s = (Returns (Some m), s2) /\
    m = fold_left (record_future fs) (as_completed env) ∅ /\
    table s2 = table s /\
    stdout s2 = app (stdout s1) [line].
Proof.
  intros Hc Ht Hsub Hall Hput.
  pose proof (get_external_status_checks_miss_steps env url s cached s0 fs s1
                Hc Ht Hsub) as Hsteps.
  cbv zeta in Hsteps. rewrite Hall in Hsteps.
  destruct Hsteps as (s2 & Hw & Hrun).
  set (m := fold_left (record_future fs) (as_completed env) ∅) in *.
  destruct (cache_external_result_table env url m s1)
    as (s2' & Hw' & _ & _ & Hfault & _).
  rewrite Hw in Hw'. injection Hw' as <-.
  destruct (Hfault Hput) as (Htab & line & Hout).
  exists m, s2, line. split; [exact Hrun|]. split; [reflexivity|].
  split; [|exact Hout].
  rewrite Htab.
  destruct (submit_all_returns env url s0) as (fs' & cs & Hsub' & _).
  rewrite Hsub in Hsub'. injection Hsub' as _ ->.
  cbn [add_calls table].
  apply (get_cached_external_result_table env url s cached s0 Hc).
Qed.

Lemma aggregation_survives_write_fault_witness :
  exists (m : Payload) (s2 : State),
    get_external_status_checks env_readonly sample_url initial_state
    = (Returns (Some m), s2) /\
    table s2 = ∅.
Proof.
  edestruct (aggregation_survives_write_fault env_readonly sample_url
               initial_state)
    as (m & s2 & line & Hrun & _ & Htab & _);
    [vm_compute; reflexivity | reflexivity | vm_compute; reflexivity
    | reflexivity | discriminate |].
  exists m, s2. split; [exact Hrun | exact Htab].
Defined.

(** X17. When the URL handed to the aggregation does not parse, no
    observer sends a request: each of the three calls raises, and in a
    fan-out that completes the mapping holds an error-marked entry for
    each of the three observers. *)
Theorem unparsable_url_gives_error_entries env url s cached s0 :
  get_cached_external_result env url s = (Returns cached, s0) ->
  truthy_cached cached = false ->
  Urllib.urlparse (netloc_invalid env) url = None ->
  all_completed (as_completed env) = true ->
  exists (m : Payload) (s2 : State) e,
    get_external_status_checks env url s = (Returns (Some m), s2) /\
    exn_class e = ValueError /\
    (forall o, m !! observer_name o = Some (error_entry e)) /\
    obs_status (error_entry e) = "error" /\
    calls s2 = app (calls s0) [CallPutItem url].
Proof.
  intros Hc Ht Hp Hall.
  pose proof (submit_all_unparsed env url s0 Hp) as Hsub. cbv zeta in Hsub.
  pose proof (get_external_status_checks_miss_steps env url s cached s0 _ _
                Hc Ht Hsub) as Hsteps.
  cbv zeta in Hsteps. rewrite Hall in Hsteps.
  destruct Hsteps as (s2 & Hw & Hrun).
  match type of Hrun with
  | _ = (Returns (Some ?mm), _) => set (m := mm) in *
  end.
  destruct (cache_external_result_table env url m s0) as (s2' & Hw' & Hcalls & _).
  rewrite Hw in Hw'. injection Hw' as <-.
  exists m, s2, (exn ValueError "urlparse").
  split; [exact Hrun|]. split; [reflexivity|].
  split; [|split; [reflexivity | exact Hcalls]].
  intros o. subst m.
  rewrite (proj1 (fold_record_complete _ _ Hall) o).
  destruct o; reflexivity.
Qed.

Lemma unparsable_url_gives_error_entries_witness :
  exists (m : Payload) (s2 : State),
    get_external_status_checks env_online "foo://[x" initial_state
    = (Returns (Some m), s2) /\
    exists r, m !! "websiteplanet" = Some r /\ obs_status r = "error".
Proof.
  edestruct (unparsable_url_gives_error_entries env_online "foo://[x"
               initial_state)
    as (m & s2 & e & Hrun & _ & Hentries & Hst & _);
    [vm_compute; reflexivity | reflexivity | reflexivity | reflexivity |].
  exists m, s2. split; [exact Hrun|].
  exists (error_entry e). split; [apply (Hentries Websiteplanet) | exact Hst].
Defined.

(** ** The single-region handler *)

(** The handler on a request whose URL passed the validation. *)
Lemma lambda_handler_valid env event s url :
  ev_httpMethod event <> Some "OPTIONS" ->
  requested_url event = Some (Some url) ->
  Str.truthy url = true ->
  is_valid_url env url = true ->
  lambda_handler env event s =
  match check_website_status env url s with
  | (Raises e, s1) => (Returns internal_error, add_log s1 ("Error: " +:+ exn_str e))
  | (Returns result, s1) =>
      match get_external_status_checks env url s1 with
      | (Returns ext, s2) =>
          (Returns (cors_response 200
                      (BodyStatus (if truthy_cached ext
                                   then with_external result (default ∅ ext)
                                   else result))), s2)
      | (Raises e, s2) =>
          (Returns internal_error, add_log s2 ("Error: " +:+ exn_str e))
      end
  end.
Proof.
  intros Hm Hu Ht Hv. unfold lambda_handler, try_except.
  rewrite bool_decide_eq_false_2 by exact Hm.
  unfold bind at 1. rewrite body_url_run, Hu.
  unfold requested_url in Hu.
  assert (Hor : or_url match ev_body event with
                       | Some (JsonObject u) => u
                       | _ => None
                       end (ev_url event) = Some url).
  { destruct (ev_body event) as [[| u |]|]; try discriminate;
      now injection Hu. }
  rewrite Hor, Ht, Hv. cbn [negb]. unfold bind at 1.
  destruct (check_website_status env url s) as [[result|e] s1]; [|reflexivity].
  unfold bind at 1.
  destruct (get_external_status_checks env url s1) as [[ext|e] s2]; reflexivity.
Qed.

(** What a request without a usable URL gets. *)
Lemma lambda_handler_invalid env event s u :
  ev_httpMethod event <> Some "OPTIONS" ->
  requested_url event = Some u ->
  match u with
  | Some url => Str.truthy url = false \/ is_valid_url env url = false
  | None => True
  end ->
  exists msg,
    lambda_handler env event s = (Returns (cors_response 400 (BodyError msg)), s).
Proof.
  intros Hm Hu Hbad. unfold lambda_handler, try_except.
  rewrite bool_decide_eq_false_2 by exact Hm.
  unfold bind at 1. rewrite body_url_run, Hu.
  unfold requested_url in Hu.
  assert (Hor : or_url match ev_body event with
                       | Some (JsonObject u) => u
                       | _ => None
                       end (ev_url event) = u).
  { destruct (ev_body event) as [[| u' |]|]; try discriminate;
      now injection Hu. }
  rewrite Hor. destruct u as [url|]; [|eexists; reflexivity].
  destruct (Str.truthy url) eqn:Ht; [|eexists; reflexivity].
  destruct Hbad as [Hbad|Hbad]; [discriminate|].
  rewrite Hbad. eexists. reflexivity.
Qed.

Lemma lambda_handler_undecodable env event s :
  ev_httpMethod event <> Some "OPTIONS" ->
  requested_url event = None ->
  exists line, lambda_handler env event s = (Returns internal_error, add_log s line).
Proof.
  intros Hm Hu. unfold lambda_handler, try_except.
  rewrite bool_decide_eq_false_2 by exact Hm.
  unfold bind at 1. rewrite body_url_run, Hu. eexists. reflexivity.
Qed.

(** X18. [lambda_handler] never raises: for every request and every
    behaviour of the network, the table and the clock it returns a
    response, with status code 200, 400 or 500 and the CORS headers; a 500
    carries only the text 'Internal server error'. A CORS preflight
    (method OPTIONS) is answered 200 with an empty body before the request
    body is decoded or a URL is looked at, with the state unchanged. *)
Theorem lambda_handler_total env event s :
  exists resp s',
    lambda_handler env event s = (Returns resp, s') /\
    (statusCode resp = 200 \/ statusCode resp = 400 \/ statusCode resp = 500) /\
    headers resp = cors_headers /\
    (statusCode resp = 500 -> body resp = BodyError "Internal server error") /\
    (ev_httpMethod event = Some "OPTIONS" ->
     resp = cors_response 200 BodyEmpty /\ s' = s).
Proof.
  destruct (decide (ev_httpMethod event = Some "OPTIONS")) as [Hm|Hm].
  - unfold lambda_handler, try_except.
    rewrite bool_decide_eq_true_2 by exact Hm.
    eexists. eexists. split; [reflexivity|]. simpl. repeat split; auto.
    discriminate.
  - destruct (requested_url event) as [u|] eqn:Hu.
    + destruct u as [url|].
      * destruct (Str.truthy url) eqn:Ht.
        -- destruct (is_valid_url env url) eqn:Hv.
           ++ rewrite (lambda_handler_valid env event s url Hm Hu Ht Hv).
              destruct (check_website_status env url s) as [[result|e] s1].
              ** destruct (get_external_status_checks_returns env url s1)
                   as (ext & s2 & ->).
                 eexists. eexists. split; [reflexivity|]. simpl.
                 repeat split; auto; try discriminate; contradiction.
              ** eexists. eexists. split; [reflexivity|]. simpl.
                 repeat split; auto; contradiction.
           ++ destruct (lambda_handler_invalid env event s (Some url) Hm Hu)
                as (msg & ->); [auto|].
              eexists. eexists. split; [reflexivity|]. simpl.
              repeat split; auto; try discriminate; contradiction.
        -- destruct (lambda_handler_invalid env event s (Some url) Hm Hu)
             as (msg & ->); [auto|].
           eexists. eexists. split; [reflexivity|]. simpl.
           repeat split; auto; try discriminate; contradiction.
      * destruct (lambda_handler_invalid env event s None Hm Hu I) as (msg & ->).
        eexists. eexists. split; [reflexivity|]. simpl.
        repeat split; auto; try discriminate; contradiction.
    + destruct (lambda_handler_undecodable env event s Hm Hu) as (line & ->).
      eexists. eexists. split; [reflexivity|]. simpl.
      repeat split; auto; contradiction.
Qed.

Lemma lambda_handler_total_witness :
  lambda_handler env_offline preflight_request initial_state
  = (Returns (cors_response 200 BodyEmpty), initial_state).
Proof.
  destruct (lambda_handler_total env_offline preflight_request initial_state)
    as (resp & s' & Hrun & _ & _ & _ & Hpre).
  destruct (Hpre eq_refl) as [-> ->]. exact Hrun.
Defined.

(** The handler reads of a request only its method and its URL. *)
Lemma lambda_handler_same_url env e1 e2 s u :
  ev_httpMethod e1 <> Some "OPTIONS" ->
  ev_httpMethod e2 <> Some "OPTIONS" ->
  requested_url e1 = Some u ->
  requested_url e2 = Some u ->
  lambda_handler env e1 s = lambda_handler env e2 s.
Proof.
  intros H1 H2 Hu1 Hu2. unfold lambda_handler, try_except.
  rewrite !bool_decide_eq_false_2 by assumption.
  unfold bind. rewrite !body_url_run, Hu1, Hu2.
  unfold requested_url in Hu1, Hu2.
  assert (Ho1 : or_url match ev_body e1 with
                       | Some (JsonObject u) => u
                       | _ => None
                       end (ev_url e1) = u)
    by (destruct (ev_body e1) as [[| u' |]|]; try discriminate; now injection Hu1).
  assert (Ho2 : or_url match ev_body e2 with
                       | Some (JsonObject u) => u
                       | _ => None
                       end (ev_url e2) = u)
    by (destruct (ev_body e2) as [[| u' |]|]; try discriminate; now injection Hu2).
  now rewrite Ho1, Ho2.
Qed.

(** X19. In [lambda_handler] a non-empty URL in the request body takes
    precedence over the URL of the event, which is used when the body is
    absent or has no URL or an empty one; a body that is not JSON, or is
    JSON but not an object, is answered 500 and not 400, with no call
    issued. *)
Theorem lambda_handler_url_source env event s :
  ev_httpMethod event <> Some "OPTIONS" ->
  (forall url, ev_body event = Some (JsonObject (Some url)) ->
     Str.truthy url = true ->
     lambda_handler env event s = lambda_handler env (post_url url) s) /\
  (ev_body event = None \/ ev_body event = Some (JsonObject None) \/
   ev_body event = Some (JsonObject (Some "")) ->
   lambda_handler env event s
   = lambda_handler env {| ev_httpMethod := Some "GET"; ev_body := None;
                           ev_url := ev_url event |} s) /\
  (ev_body event = Some JsonInvalid \/ ev_body event = Some JsonOther ->
   exists line,
     lambda_handler env event s = (Returns internal_error, add_log s line)).
Proof.
  intros Hm. split; [|split].
  - intros url Hb Ht.
    apply (lambda_handler_same_url env _ _ s (Some url));
      [exact Hm | discriminate | |].
    + unfold requested_url. rewrite Hb. cbn [or_url]. now rewrite Ht.
    + unfold requested_url. cbn. now rewrite Ht.
  - intros Hb.
    apply (lambda_handler_same_url env _ _ s (ev_url event));
      [exact Hm | discriminate | | reflexivity].
    unfold requested_url. destruct Hb as [->|[->| ->]]; reflexivity.
  - intros Hb. apply lambda_handler_undecodable; [exact Hm|].
    unfold requested_url. destruct Hb as [->| ->]; reflexivity.
Qed.

Lemma lambda_handler_url_source_witness :
  exists msg,
    lambda_handler env_online two_url_request initial_state
    = (Returns (cors_response 400 (BodyError msg)), initial_state).
Proof.
  destruct (lambda_handler_url_source env_online two_url_request initial_state)
    as (Hbody & _); [discriminate|].
  rewrite (Hbody "https://" eq_refl eq_refl).
  eexists. reflexivity.
Defined.

(** X20. A 200 answer of [lambda_handler] to a request that is not a
    preflight carries the result of the local check of a URL that passed
    the validation: the URL with the protocol ensured, a status that is the
    verdict of the detailed checks it carries, one of 'up', 'partial',
    'dns_only', 'down', and external checks that are either absent or a
    non-empty mapping. *)
Theorem lambda_handler_success_shape env event s resp s' :
  ev_httpMethod event <> Some "OPTIONS" ->
  lambda_handler env event s = (Returns resp, s') ->
  statusCode resp = 200 ->
  exists url r,
    requested_url event = Some (Some url) /\
    is_valid_url env url = true /\
    body resp = BodyStatus r /\
    sr_url r = ensure_protocol url /\
    sr_status r = determine_overall_status (sr_detailed_checks r) /\
    sr_summary r = generate_status_summary (sr_detailed_checks r) /\
    (sr_status r = "up" \/ sr_status r = "partial" \/
     sr_status r = "dns_only" \/ sr_status r = "down") /\
    (sr_external_checks r = None \/
     exists m : Payload, sr_external_checks r = Some m /\ m <> ∅).
Proof.
  intros Hm Hrun Hcode.
  destruct (requested_url event) as [[url|]|] eqn:Hu.
  - destruct (Str.truthy url) eqn:Ht;
      [destruct (is_valid_url env url) eqn:Hv|].
    + rewrite (lambda_handler_valid env event s url Hm Hu Ht Hv) in Hrun.
      destruct (check_website_status env url s) as [[result|e] s1] eqn:Hlocal;
        [|injection Hrun as <- _; discriminate].
      destruct (get_external_status_checks env url s1) as [[ext|e] s2];
        [|injection Hrun as <- _; discriminate].
      injection Hrun as <- _.
      destruct (check_website_status_returns env url s result s1 Hlocal)
        as (p & po & dns & http & port_chk & t1 & t2 & t3
            & _ & _ & _ & _ & _ & _ & ->).
      exists url. eexists. split; [reflexivity|]. split; [exact Hv|].
      split; [reflexivity|].
      destruct ext as [m|]; cbn [truthy_cached].
      * unfold truthy_payload. destruct (decide (m <> ∅)) as [Hne|He].
        -- rewrite bool_decide_eq_true_2 by exact Hne. cbn.
           repeat split; try reflexivity;
             [apply determine_overall_status_values | eauto].
        -- rewrite bool_decide_eq_false_2 by exact He. cbn.
           repeat split; try reflexivity;
             [apply determine_overall_status_values | auto].
      * cbn. repeat split; try reflexivity;
          [apply determine_overall_status_values | auto].
    + destruct (lambda_handler_invalid env event s (Some url) Hm Hu)
        as (msg & Hbad); [auto|].
      rewrite Hbad in Hrun. injection Hrun as <- _. discriminate.
    + destruct (lambda_handler_invalid env event s (Some url) Hm Hu)
        as (msg & Hbad); [auto|].
      rewrite Hbad in Hrun. injection Hrun as <- _. discriminate.
  - destruct (lambda_handler_invalid env event s None Hm Hu I) as (msg & Hbad).
    rewrite Hbad in Hrun. injection Hrun as <- _. discriminate.
  - destruct (lambda_handler_undecodable env event s Hm Hu) as (line & Hbad).
    rewrite Hbad in Hrun. injection Hrun as <- _. discriminate.
Qed.

Lemma lambda_handler_success_shape_witness :
  exists resp s' r,
    lambda_handler env_online (post_url "example.com") initial_state
    = (Returns resp, s') /\
    body resp = BodyStatus r /\
    sr_url r = "https://example.com" /\
    sr_status r = determine_overall_status (sr_detailed_checks r).
Proof.
  destruct (lambda_handler env_online (post_url "example.com") initial_state)
    as [[resp|e] s'] eqn:Hrun; [|vm_compute in Hrun; discriminate].
  destruct (lambda_handler_success_shape env_online (post_url "example.com")
              initial_state resp s') as (url & r & Hu & _ & Hb & Hurl & Hst & _).
  - discriminate.
  - exact Hrun.
  - vm_compute in Hrun. injection Hrun as <- _. reflexivity.
  - exists resp, s', r. split; [reflexivity|]. split; [exact Hb|].
    injection Hu as <-. split; [exact Hurl | exact Hst].
Defined.

(** X21. Once the URL has passed the validation, an exception that escapes
    the local check is answered 500: this is what a URL with a port that is
    not a number gets, although it is valid for [is_valid_url], and what
    an exception of the HTTP probe other than a [requests] one gets; the
    state is the one the local check left with one more logged line, so
    the external aggregation is not started. *)
Theorem lambda_handler_check_raises env event s url e s1 :
  ev_httpMethod event <> Some "OPTIONS" ->
  requested_url event = Some (Some url) ->
  Str.truthy url = true ->
  is_valid_url env url = true ->
  check_website_status env url s = (Raises e, s1) ->
  lambda_handler env event s
  = (Returns internal_error, add_log s1 ("Error: " +:+ exn_str e)).
Proof.
  intros Hm Hu Ht Hv Hraise.
  now rewrite (lambda_handler_valid env event s url Hm Hu Ht Hv), Hraise.
Qed.

Lemma lambda_handler_check_raises_witness :
  is_valid_url env_online "example.com:http" = true /\
  exists s',
    lambda_handler env_online (post_url "example.com:http") initial_state
    = (Returns internal_error, s') /\
    calls s' = [].
Proof.
  split; [reflexivity|].
  edestruct (lambda_handler_check_raises env_online
               (post_url "example.com:http") initial_state "example.com:http")
    as [];
    [discriminate | reflexivity | reflexivity | reflexivity
    | vm_compute; reflexivity |].
  eexists. split; reflexivity.
Defined.

(** ** The multi-region handler *)

(** The handler on a request whose body carries a non-empty URL. *)
Lemma multi_region_check_with_url env event s url :
  ev_body event = Some (JsonObject (Some url)) ->
  Str.truthy url = true ->
  multi_region_check env event s =
  match check_website_status env url s with
  | (Raises e, s1) =>
      (Returns internal_error, add_log s1 ("Multi-region error: " +:+ exn_str e))
  | (Returns local, s1) =>
      match collect_peers env url s1 with
      | (Raises e, s2) =>
          (Returns internal_error,
           add_log s2 ("Multi-region error: " +:+ exn_str e))
      | (Returns peers, s2) =>
          let all_res := LocalRegion local :: peers in
          match count_up all_res with
          | Raises e =>
              (Returns internal_error,
               add_log s2 ("Multi-region error: " +:+ exn_str e))
          | Returns up =>
              match analyze_multi_region_results all_res with
              | Raises e =>
                  (Returns internal_error,
                   add_log (tick s2) ("Multi-region error: " +:+ exn_str e))
              | Returns analysis =>
                  (Returns (cors_response 200 (BodyMultiRegion
                     {| mr_url := url;
                        mr_overall_status :=
                          if (up =? length all_res)%nat then "up"
                          else if (0 <? up)%nat then "mixed" else "down";
                        mr_regions_up := up;
                        mr_total_regions := length all_res;
                        mr_results := all_res;
                        mr_timestamp := clock env (ticks s2);
                        mr_analysis := analysis |})), tick s2)
              end
          end
      end
  end.
Proof.
  intros Hb Ht. unfold multi_region_check, try_except. unfold bind at 1.
  rewrite body_url_run. unfold requested_url. rewrite Hb.
  cbn [truthy_url]. rewrite Ht. cbn [negb].
  change (default "" (Some url)) with url.
  unfold bind at 1.
  destruct (check_website_status env url s) as [[local|e] s1]; [|reflexivity].
  unfold bind at 1.
  destruct (collect_peers env url s1) as [[peers|e] s2]; [|reflexivity].
  cbv zeta. unfold bind at 1, lift at 1.
  destruct (count_up (LocalRegion local :: peers)) as [up|e]; [|reflexivity].
  unfold bind at 1, now at 1. unfold bind at 1, lift at 1.
  destruct (analyze_multi_region_results (LocalRegion local :: peers))
    as [analysis|e]; reflexivity.
Qed.

Lemma multi_region_check_without_url env event s :
  ev_body event = None \/ ev_body event = Some (JsonObject None) \/
  ev_body event = Some (JsonObject (Some "")) ->
  multi_region_check env event s
  = (Returns (cors_response 400 (BodyError "URL is required")), s).
Proof.
  intros Hb. unfold multi_region_check, try_except. unfold bind at 1.
  rewrite body_url_run. unfold requested_url.
  destruct Hb as [->|[->| ->]]; reflexivity.
Qed.

Lemma multi_region_check_undecodable env event s :
  ev_body event = Some JsonInvalid \/ ev_body event = Some JsonOther ->
  exists line,
    multi_region_check env event s = (Returns internal_error, add_log s line).
Proof.
  intros Hb. unfold multi_region_check, try_except. unfold bind at 1.
  rewrite body_url_run. unfold requested_url.
  destruct Hb as [->| ->]; eexists; reflexivity.
Qed.

(** X22. [multi_region_check] never raises: for every request and every
    behaviour of the probes and the peers it returns a response, with
    status code 200, 400 or 500 and the CORS headers; a 500 carries only
    the text 'Internal server error'. *)
Theorem multi_region_check_total env event s :
  exists resp s',
    multi_region_check env event s = (Returns resp, s') /\
    (statusCode resp = 200 \/ statusCode resp = 400 \/ statusCode resp = 500) /\
    headers resp = cors_headers /\
    (statusCode resp = 500 -> body resp = BodyError "Internal server error").
Proof.
  destruct (ev_body event) as [[| [url|] |]|] eqn:Hb.
  - destruct (multi_region_check_undecodable env event s) as (line & ->); [auto|].
    eexists. eexists. split; [reflexivity|]. simpl. repeat split; auto.
  - destruct (Str.truthy url) eqn:Ht.
    + rewrite (multi_region_check_with_url env event s url Hb Ht).
      destruct (check_website_status env url s) as [[local|e] s1];
        [|eexists; eexists; split; [reflexivity|]; simpl; repeat split; auto].
      destruct (collect_peers env url s1) as [[peers|e] s2];
        [|eexists; eexists; split; [reflexivity|]; simpl; repeat split; auto].
      cbv zeta.
      destruct (count_up (LocalRegion local :: peers)) as [up|e];
        [|eexists; eexists; split; [reflexivity|]; simpl; repeat split; auto].
      destruct (analyze_multi_region_results (LocalRegion local :: peers))
        as [analysis|e];
        eexists; eexists; (split; [reflexivity|]); simpl; repeat split; auto.
      discriminate.
    + destruct url; [|discriminate].
      rewrite (multi_region_check_without_url env event s) by auto.
      eexists. eexists. split; [reflexivity|]. simpl. repeat split; auto.
      discriminate.
  - rewrite (multi_region_check_without_url env event s) by auto.
    eexists. eexists. split; [reflexivity|]. simpl. repeat split; auto.
    discriminate.
  - destruct (multi_region_check_undecodable env event s) as (line & ->); [auto|].
    eexists. eexists. split; [reflexivity|]. simpl. repeat split; auto.
  - rewrite (multi_region_check_without_url env event s) by auto.
    eexists. eexists. split; [reflexivity|]. simpl. repeat split; auto.
    discriminate.
Qed.

Lemma multi_region_check_total_witness :
  exists resp s',
    multi_region_check env_online garbled_request initial_state
    = (Returns resp, s') /\
    body resp = BodyError "Internal server error".
Proof.
  destruct (multi_region_check_total env_online garbled_request initial_state)
    as (resp & s' & Hrun & _ & _ & H500).
  exists resp, s'. split; [exact Hrun|].
  apply H500. vm_compute in Hrun. injection Hrun as <- _. reflexivity.
Defined.

(** X23. [multi_region_check] takes the URL from the request body only
    and does not validate it. A request with no body, or with a body that
    has no URL or an empty one, is answered 400 'URL is required' with
    nothing probed, also when the event itself carries a URL. An exception
    of the local check, such as the ValueError of a URL that does not
    parse, is answered 500 where [lambda_handler] answers 400; the state is
    the one the local check left with one more logged line, so no peer is
    invoked. *)
Theorem multi_region_check_url_handling env event s :
  (ev_body event = None \/ ev_body event = Some (JsonObject None) \/
   ev_body event = Some (JsonObject (Some "")) ->
   multi_region_check env event s
   = (Returns (cors_response 400 (BodyError "URL is required")), s)) /\
  (forall url e s1,
     ev_body event = Some (JsonObject (Some url)) ->
     Str.truthy url = true ->
     check_website_status env url s = (Raises e, s1) ->
     multi_region_check env event s
     = (Returns internal_error,
        add_log s1 ("Multi-region error: " +:+ exn_str e))).
Proof.
  split.
  - apply multi_region_check_without_url.
  - intros url e s1 Hb Ht Hraise.
    now rewrite (multi_region_check_with_url env event s url Hb Ht), Hraise.
Qed.

Lemma multi_region_check_url_handling_witness :
  multi_region_check env_online
    {| ev_httpMethod := Some "GET"; ev_body := None;
       ev_url := Some "https://example.com" |} initial_state
  = (Returns (cors_response 400 (BodyError "URL is required")), initial_state) /\
  (exists s',
     multi_region_check env_online (post_url "https://[::1") initial_state
     = (Returns internal_error, s') /\ calls s' = []) /\
  exists msg,
    lambda_handler env_online (post_url "https://[::1") initial_state
    = (Returns (cors_response 400 (BodyError msg)), initial_state).
Proof.
  split; [|split].
  - apply (proj1 (multi_region_check_url_handling env_online
                    {| ev_httpMethod := Some "GET"; ev_body := None;
                       ev_url := Some "https://example.com" |} initial_state)).
    left. reflexivity.
  - destruct (multi_region_check_url_handling env_online
                (post_url "https://[::1") initial_state) as [_ Hraise].
    erewrite Hraise; [| reflexivity | reflexivity | vm_compute; reflexivity].
    eexists. split; reflexivity.
  - eexists. vm_compute. reflexivity.
Defined.

Lemma peers_configured_off env :
  environ_OTHER_REGIONS env = None \/
  environ_OTHER_REGIONS env = Some "" \/
  (exists rest, environ_OTHER_REGIONS env = Some ("," +:+ rest)) ->
  peers_configured (other_regions env) = false.
Proof.
  unfold other_regions. intros [->|[->|[rest ->]]]; reflexivity.
Qed.

(** X24. When [OTHER_REGIONS] is unset, empty, or begins with a comma, no
    peer is invoked at all, whatever follows the comma: the fan-out
    returns no result and leaves the state as it was, and a 200 answer
    lists the local result alone, with total_regions 1 and an overall
    status that is 'up' or 'down', never 'mixed'. *)
Theorem multi_region_check_no_peers env event s :
  environ_OTHER_REGIONS env = None \/
  environ_OTHER_REGIONS env = Some "" \/
  (exists rest, environ_OTHER_REGIONS env = Some ("," +:+ rest)) ->
  (forall url s1, collect_peers env url s1 = (Returns [], s1)) /\
  (forall resp s',
     multi_region_check env event s = (Returns resp, s') ->
     statusCode resp = 200 ->
     exists r local,
       body resp = BodyMultiRegion r /\
       mr_results r = [LocalRegion local] /\
       mr_total_regions r = 1%nat /\
       (reachable (Some (sr_status local)) = true ->
        mr_regions_up r = 1%nat /\ mr_overall_status r = "up") /\
       (reachable (Some (sr_status local)) = false ->
        mr_regions_up r = 0%nat /\ mr_overall_status r = "down")).
Proof.
  intros Hoff. apply peers_configured_off in Hoff.
  assert (Hpeers : forall url s1, collect_peers env url s1 = (Returns [], s1))
    by (intros url s1; unfold collect_peers; now rewrite Hoff).
  split; [exact Hpeers|].
  intros resp s' Hrun Hcode.
  destruct (ev_body event) as [[| [url|] |]|] eqn:Hb.
  - destruct (multi_region_check_undecodable env event s) as (line & Hr); [auto|].
    rewrite Hr in Hrun. injection Hrun as <- _. discriminate.
  - destruct (Str.truthy url) eqn:Ht.
    + rewrite (multi_region_check_with_url env event s url Hb Ht) in Hrun.
      destruct (check_website_status env url s) as [[local|e] s1];
        [|injection Hrun as <- _; discriminate].
      rewrite Hpeers in Hrun. cbv zeta in Hrun.
      cbn [count_up region_status analyze_multi_region_results length] in Hrun.
      destruct (reachable (Some (sr_status local))) eqn:Hreach;
        cbn in Hrun; injection Hrun as <- _;
        eexists; exists local; repeat split; intros; try reflexivity;
        congruence.
    + destruct url; [|discriminate].
      rewrite (multi_region_check_without_url env event s) in Hrun by auto.
      injection Hrun as <- _. discriminate.
  - rewrite (multi_region_check_without_url env event s) in Hrun by auto.
    injection Hrun as <- _. discriminate.
  - destruct (multi_region_check_undecodable env event s) as (line & Hr); [auto|].
    rewrite Hr in Hrun. injection Hrun as <- _. discriminate.
  - rewrite (multi_region_check_without_url env event s) in Hrun by auto.
    injection Hrun as <- _. discriminate.
Qed.

Lemma multi_region_check_no_peers_witness :
  collect_peers env_leading_comma sample_url initial_state
  = (Returns [], initial_state).
Proof.
  apply (proj1 (multi_region_check_no_peers env_leading_comma
                  (post_url sample_url) initial_state
                  (or_intror (or_intror (ex_intro _ "us-east-1" eq_refl))))).
Defined.

(** The 200 answers of [multi_region_check], with the analysis. *)
Lemma multi_region_check_200_analysis env event s resp s' :
  multi_region_check env event s = (Returns resp, s') ->
  statusCode resp = 200 ->
  exists r up,
    body resp = BodyMultiRegion r /\
    count_up (mr_results r) = Returns up /\
    mr_regions_up r = up /\
    mr_total_regions r = length (mr_results r) /\
    mr_results r <> [] /\
    mr_overall_status r
    = (if (up =? length (mr_results r))%nat then "up"
       else if (0 <? up)%nat then "mixed" else "down") /\
    analyze_multi_region_results (mr_results r) = Returns (mr_analysis r).
Proof.
  intros Hrun Hcode.
  destruct (ev_body event) as [[| [url|] |]|] eqn:Hb.
  - destruct (multi_region_check_undecodable env event s) as (line & Hr); [auto|].
    rewrite Hr in Hrun. injection Hrun as <- _. discriminate.
  - destruct (Str.truthy url) eqn:Ht.
    + rewrite (multi_region_check_with_url env event s url Hb Ht) in Hrun.
      destruct (check_website_status env url s) as [[local|e] s1];
        [|injection Hrun as <- _; discriminate].
      destruct (collect_peers env url s1) as [[peers|e] s2];
        [|injection Hrun as <- _; discriminate].
      cbv zeta in Hrun.
      destruct (count_up (LocalRegion local :: peers)) as [up|e] eqn:Hcount;
        [|injection Hrun as <- _; discriminate].
      destruct (analyze_multi_region_results (LocalRegion local :: peers))
        as [analysis|e] eqn:Han; [|injection Hrun as <- _; discriminate].
      injection Hrun as <- _.
      eexists. exists up. cbn [body cors_response mr_results mr_regions_up
                                mr_total_regions mr_overall_status mr_analysis].
      repeat split; try assumption; try reflexivity. discriminate.
    + destruct url; [|discriminate].
      rewrite (multi_region_check_without_url env event s) in Hrun by auto.
      injection Hrun as <- _. discriminate.
  - rewrite (multi_region_check_without_url env event s) in Hrun by auto.
    injection Hrun as <- _. discriminate.
  - destruct (multi_region_check_undecodable env event s) as (line & Hr); [auto|].
    rewrite Hr in Hrun. injection Hrun as <- _. discriminate.
  - rewrite (multi_region_check_without_url env event s) in Hrun by auto.
    injection Hrun as <- _. discriminate.
Qed.

(** X25. In a 200 answer of [multi_region_check] the analysis text agrees
    with the overall status, although the two are computed apart: 'up'
    goes with 'Website accessible from all tested regions', 'down' with
    'Website appears down globally', and 'mixed' with the text
    'Mixed: U/T regions can reach it' for the two counts of the answer. *)
Theorem multi_region_analysis_agrees env event s resp s' :
  multi_region_check env event s = (Returns resp, s') ->
  statusCode resp = 200 ->
  exists r,
    body resp = BodyMultiRegion r /\
    (mr_overall_status r = "up" <->
     mr_analysis r = "Website accessible from all tested regions") /\
    (mr_overall_status r = "down" <->
     mr_analysis r = "Website appears down globally") /\
    (mr_overall_status r = "mixed" <->
     mr_analysis r = "Mixed: " +:+ pretty (mr_regions_up r) +:+ "/"
                     +:+ pretty (mr_total_regions r)
                     +:+ " regions can reach it").
Proof.
  intros Hrun Hcode.
  destruct (multi_region_check_200_analysis env event s resp s' Hrun Hcode)
    as (r & up & Hb & Hcount & Hup & Htot & Hne & Hov & Han).
  exists r. split; [exact Hb|].
  unfold analyze_multi_region_results in Han.
  destruct (mr_results r) as [|x l] eqn:Hres; [congruence|].
  rewrite Hcount in Han. rewrite Hov, Hup, Htot.
  destruct (up =? length (x :: l))%nat eqn:Hall.
  - injection Han as <-.
    repeat split; intros H; try reflexivity;
      cbn [String.append] in H; discriminate H.
  - destruct up as [|n].
    + cbn in Han |- *. injection Han as <-.
      repeat split; intros H; try reflexivity;
        cbn [String.append] in H; discriminate H.
    + cbn [Nat.eqb Nat.ltb Nat.leb] in Han |- *. injection Han as <-.
      repeat split; intros H; try reflexivity;
        cbn [String.append] in H; discriminate H.
Qed.

Lemma multi_region_analysis_agrees_witness :
  exists resp s' r,
    multi_region_check env_three_peers (post_url "example.com") initial_state
    = (Returns resp, s') /\
    body resp = BodyMultiRegion r /\
    mr_overall_status r = "mixed" /\
    mr_analysis r = "Mixed: 1/2 regions can reach it".
Proof.
  destruct (multi_region_check env_three_peers (post_url "example.com")
              initial_state) as [[resp|e] s'] eqn:Hrun;
    [|vm_compute in Hrun; discriminate].
  assert (Hcode : statusCode resp = 200)
    by (vm_compute in Hrun; injection Hrun as <- _; reflexivity).
  destruct (multi_region_analysis_agrees _ _ _ _ _ Hrun Hcode)
    as (r & Hb & _ & _ & Hmixed).
  exists resp, s', r. split; [reflexivity|]. split; [exact Hb|].
  assert (Hov : mr_overall_status r = "mixed" /\
                mr_regions_up r = 1%nat /\ mr_total_regions r = 2%nat).
  { vm_compute in Hrun. injection Hrun as <- _.
    injection Hb as <-. repeat split. }
  destruct Hov as (Hov & Hu & Ht). split; [exact Hov|].
  rewrite (proj1 Hmixed Hov), Hu, Ht. reflexivity.
Defined.

Lemma count_up_other (l : list RegionValue) :
  In PeerOther l -> exists e, count_up l = Raises e.
Proof.
  induction l as [|x l IH]; [contradiction|].
  intros [->|Hin].
  - eexists. reflexivity.
  - destruct (IH Hin) as [e He]. cbn [count_up]. rewrite He.
    destruct (region_status x); eauto.
Qed.

(** X26. Two faults of the fan-out turn the whole answer of
    [multi_region_check] into a 500, although the local check succeeded:
    a failure to create the Lambda client when peers are configured, and
    the body of an answering peer that decodes to something other than a
    JSON object. *)
Theorem multi_region_check_peer_faults env event s url local s1 :
  ev_body event = Some (JsonObject (Some url)) ->
  Str.truthy url = true ->
  check_website_status env url s = (Returns local, s1) ->
  (peers_configured (other_regions env) = true ->
   forall e, lambda_client_fault env = Some e ->
     multi_region_check env event s
     = (Returns internal_error,
        add_log s1 ("Multi-region error: " +:+ exn_str e))) /\
  ((peers_configured (other_regions env) = true ->
    lambda_client_fault env = None) ->
   In PeerOther (responding_peers env url) ->
   exists s', multi_region_check env event s = (Returns internal_error, s')).
Proof.
  intros Hb Ht Hlocal.
  rewrite (multi_region_check_with_url env event s url Hb Ht), Hlocal.
  split.
  - intros Hconf e He. unfold collect_peers. rewrite Hconf.
    unfold bind, raise_fault. rewrite He. reflexivity.
  - intros Hclient Hin.
    destruct (collect_peers_run env url s1 Hclient) as (s2 & ->).
    cbv zeta.
    destruct (count_up_other (LocalRegion local :: responding_peers env url))
      as [e ->]; [right; exact Hin|].
    eexists. reflexivity.
Qed.

Lemma multi_region_check_peer_faults_witness :
  exists s',
    multi_region_check env_odd_peer (post_url "example.com") initial_state
    = (Returns internal_error, s').
Proof.
  edestruct (multi_region_check_peer_faults env_odd_peer
               (post_url "example.com") initial_state "example.com")
    as [_ Hbody];
    [reflexivity | reflexivity | vm_compute; reflexivity |].
  apply Hbody; [reflexivity|]. left. reflexivity.
Defined.

Lemma invoke_region_calls env url i r acc s :
  exists s',
    invoke_region env url i r acc s
    = (Returns (app acc (responding env url i [r])), s') /\
    calls s' = app (calls s) (invocations [r]) /\
    table s' = table s /\
    (length (responding env url i [r]) <= length (invocations [r]))%nat.
Proof.
  unfold invoke_region, invocations. simpl. rewrite app_nil_r.
  destruct (Str.truthy (Str.strip r)); simpl;
    [|rewrite !app_nil_r; eexists; repeat split; destruct s; reflexivity].
  run.
  destruct (invoke env i ("website-status-checker-" +:+ Str.strip r) url)
    as [e|code b]; simpl;
    [rewrite app_nil_r; eexists; repeat split; simpl; lia|].
  destruct (bool_decide (code = Some 200)), b; simpl;
    rewrite ?app_nil_r; eexists; repeat split; simpl; lia.
Qed.

Lemma invocations_cons r rest :
  invocations (r :: rest) = app (invocations [r]) (invocations rest).
Proof.
  unfold invocations. simpl.
  destruct (Str.truthy (Str.strip r)); reflexivity.
Qed.

Lemma invoke_regions_calls env url regions :
  forall i acc s,
  exists s',
    invoke_regions env url i regions acc s
    = (Returns (app acc (responding env url i regions)), s') /\
    calls s' = app (calls s) (invocations regions) /\
    table s' = table s /\
    (length (responding env url i regions) <= length (invocations regions))%nat.
Proof.
  induction regions as [|r rest IH]; intros i acc s.
  - simpl. rewrite !app_nil_r. eexists. repeat split. unfold invocations.
    simpl. lia.
  - cbn [invoke_regions]. unfold bind.
    destruct (invoke_region_calls env url i r acc s)
      as (s1 & -> & Hc1 & Ht1 & Hl1).
    destruct (IH (S i) (app acc (responding env url i [r])) s1)
      as (s2 & -> & Hc2 & Ht2 & Hl2).
    exists s2. rewrite (responding_cons env url i r rest), app_assoc.
    split; [reflexivity|]. rewrite invocations_cons.
    split; [rewrite Hc2, Hc1, app_assoc; reflexivity|].
    split; [congruence|]. rewrite !length_app. lia.
Qed.

(** X27. The fan-out to the peers invokes every configured region whose
    name is not blank exactly once, in the order of the list and under the
    name 'website-status-checker-' followed by the trimmed region name,
    whether or not an earlier invocation failed; it never raises once the
    client exists, collects at most one result per invocation, and does
    not touch the cache table. *)
Theorem collect_peers_invokes_each env url s :
  peers_configured (other_regions env) = true ->
  lambda_client_fault env = None ->
  exists s',
    collect_peers env url s = (Returns (responding_peers env url), s') /\
    calls s' = app (calls s) (invocations (other_regions env)) /\
    (length (responding_peers env url)
     <= length (invocations (other_regions env)))%nat /\
    table s' = table s.
Proof.
  intros Hconf Hclient. unfold collect_peers, responding_peers.
  rewrite Hconf. unfold bind, raise_fault. rewrite Hclient.
  destruct (invoke_regions_calls env url (other_regions env) 0%nat [] s)
    as (s' & Hrun & Hcalls & Htab & Hlen).
  exists s'. simpl in Hrun. auto.
Qed.

Lemma collect_peers_invokes_each_witness :
  exists s',
    collect_peers env_three_peers "example.com" initial_state
    = (Returns [PeerObject (Some "down")], s') /\
    calls s' = [CallInvoke "website-status-checker-us-east-1";
                CallInvoke "website-status-checker-ap-south-1";
                CallInvoke "website-status-checker-eu-north-1"].
Proof.
  destruct (collect_peers_invokes_each env_three_peers "example.com"
              initial_state eq_refl eq_refl) as (s' & Hrun & Hcalls & _).
  exists s'. split; [exact Hrun | exact Hcalls].
Defined.
